(** * Discrete-Calculator: a shallow embedding of the algorithmic core

    The four leaf modules of the calculator (number_systems.py,
    set_operations.py, searching.py, sorting.py) are embedded as Rocq
    functions, together with the guards of the handlers of
    calculator_gui.py that decide what reaches them.

    Conventions of the embedding:
    - a Python [int] is a [Z];
    - a Python [str] is the [string] of its characters, for text made
      of ASCII characters ([PyStr.is_ascii]); the built-ins [upper],
      [strip], [int] and [repr] are embedded as they act on such text,
      and [PyStr.is_ascii] is a hypothesis where a statement depends
      on it;
    - a raised exception is the [Raise] outcome of [result];
    - a Python [list] object lives in a [heap] and is named by a
      location, so that aliasing and in-place updates are explicit;
    - a [while] loop is a function defined by well-founded recursion on
      the quantity the loop decreases;
    - integers are unbounded, as Python's are; [int] and [str] refuse
      to read or write more than [PyStr.int_max_str_digits] decimal
      digits, the interpreter's default
      ([sys.int_info.default_max_str_digits]). *)

From Stdlib Require Import ZArith Lia String Ascii List OrdersEx.
From stdpp Require Import base list strings gmap.
From Equations Require Import Equations.

Open Scope Z_scope.

(** ** Outcomes of calls that may raise *)

(** The [ValueError]s reachable from [convert]: those of the built-ins
    [int(value)] and [str(decimal)], the digit checks of the three
    [*_to_decimal] functions, and the base dispatch. *)
Inductive error : Type :=
  | InvalidLiteral (value : string)
      (* ValueError: invalid literal for int() with base 10: value *)
  | IntDigitLimit (digits : Z)
      (* ValueError: Exceeds the limit (4300 digits) for integer string
         conversion: value has {digits} digits; ... *)
  | StrDigitLimit
      (* ValueError: Exceeds the limit (4300 digits) for integer string
         conversion; ... *)
  | InvalidDigit (system : string) (digit : ascii)
      (* ValueError(f"Invalid {system} digit: {digit}") *)
  | UnsupportedBase (base : Z).
      (* ValueError(f"Unsupported base: {base}") *)

Inductive result (A : Type) : Type :=
  | Ok (a : A)
  | Raise (e : error).
Arguments Ok {A} a.
Arguments Raise {A} e.

#[export] Instance result_ret : MRet result := fun A a => Ok a.

#[export] Instance result_bind : MBind result := fun A B k r =>
  match r with
  | Ok a => k a
  | Raise e => Raise e
  end.

(** ** Python string primitives *)

Module PyStr.

(** Text made of ASCII characters. *)
Definition is_ascii (s : string) : bool :=
  forallb (fun c => (nat_of_ascii c <? 128)%nat) (list_ascii_of_string s).

(** [c in s] for a one-character [c]. *)
Fixpoint contains (c : ascii) (s : string) : bool :=
  match s with
  | EmptyString => false
  | String d r => if Ascii.eqb c d then true else contains c r
  end.

(** [s.index(c)]: position of the first occurrence. *)
Fixpoint index (c : ascii) (s : string) : option nat :=
  match s with
  | EmptyString => None
  | String d r =>
      if Ascii.eqb c d then Some 0%nat else option_map S (index c r)
  end.

(** [s.replace(" ", "")]. *)
Fixpoint remove_spaces (s : string) : string :=
  match s with
  | EmptyString => EmptyString
  | String c r =>
      if Ascii.eqb c " " then remove_spaces r else String c (remove_spaces r)
  end.

Definition upper_char (c : ascii) : ascii :=
  let n := nat_of_ascii c in
  if ((97 <=? n)%nat && (n <=? 122)%nat)%bool then ascii_of_nat (n - 32) else c.

(** [s.upper()], on ASCII text. *)
Fixpoint upper (s : string) : string :=
  match s with
  | EmptyString => EmptyString
  | String c r => String (upper_char c) (upper r)
  end.

(** [s.startswith("-")]. *)
Definition starts_with_minus (s : string) : bool :=
  match s with
  | String "-" _ => true
  | _ => false
  end.

(** [s[1:]]. *)
Definition tail (s : string) : string :=
  match s with
  | EmptyString => EmptyString
  | String _ r => r
  end.

(** [reversed(s)], as the sequence the [for] loop walks. *)
Definition reversed (s : string) : list ascii := rev (list_ascii_of_string s).

(** The characters [str.strip()] skips, those of [str.isspace()]: tab,
    line feed, vertical tab, form feed, carriage return, the four
    separators 0x1C-0x1F, and space. *)
Definition is_space (c : ascii) : bool :=
  let n := nat_of_ascii c in
  (((9 <=? n)%nat && (n <=? 13)%nat) || ((28 <=? n)%nat && (n <=? 32)%nat))%bool.

Fixpoint lstrip (s : string) : string :=
  match s with
  | EmptyString => EmptyString
  | String c r => if is_space c then lstrip r else s
  end.

Fixpoint rstrip (s : string) : string :=
  match s with
  | EmptyString => EmptyString
  | String c r =>
      match rstrip r with
      | EmptyString => if is_space c then EmptyString else String c EmptyString
      | r' => String c r'
      end
  end.

(** [s.strip()], on ASCII text. *)
Definition strip (s : string) : string := rstrip (lstrip s).

Definition is_digit (c : ascii) : bool :=
  let n := nat_of_ascii c in ((48 <=? n)%nat && (n <=? 57)%nat)%bool.

(** Value of a decimal digit character, [int(c)]. *)
Definition digit_value (c : ascii) : Z := Z.of_nat (nat_of_ascii c) - 48.

(** The whitespace [int()] skips around the number: tab, line feed,
    vertical tab, form feed, carriage return and space; the four
    separators are not among them. *)
Definition is_int_space (c : ascii) : bool :=
  let n := nat_of_ascii c in
  (((9 <=? n)%nat && (n <=? 13)%nat) || (n =? 32)%nat)%bool.

Fixpoint int_lstrip (s : string) : string :=
  match s with
  | EmptyString => EmptyString
  | String c r => if is_int_space c then int_lstrip r else s
  end.

(** The longest run of digits and underscores a text starts with, and
    what follows it. *)
Fixpoint int_scan (s : string) : string * string :=
  match s with
  | EmptyString => (EmptyString, EmptyString)
  | String c r =>
      if (is_digit c || Ascii.eqb c "_")%bool then
        let '(run, rest) := int_scan r in (String c run, rest)
      else (EmptyString, s)
  end.

(** The digits of [int(s)] after the sign: decimal digits, where a
    single underscore may stand between two digits. [seen] tells
    whether the previous character was a digit. *)
Fixpoint int_digits (s : string) (acc : Z) (seen : bool) : option Z :=
  match s with
  | EmptyString => if seen then Some acc else None
  | String c r =>
      if is_digit c then int_digits r (acc * 10 + digit_value c) true
      else if (Ascii.eqb c "_" && seen)%bool then int_digits r acc false
      else None
  end.

Fixpoint count_digits (s : string) : Z :=
  match s with
  | EmptyString => 0
  | String c r => if is_digit c then 1 + count_digits r else count_digits r
  end.

(** [sys.int_info.default_max_str_digits]: the number of decimal
    digits beyond which [int(value)] and [str(decimal)] raise. *)
Definition int_max_str_digits : Z := 4300.

(** The built-in [int(value)] on a string. Leading whitespace is
    skipped and one sign [+] or [-] is accepted; the run of digits and
    underscores that follows must be well formed, and is refused when
    it has more digits than the limit, whatever comes after it; only
    whitespace may follow the run. *)
Definition int (value : string) : result Z :=
  let s := int_lstrip value in
  let '(sign, body) :=
    match s with
    | String "-" r => (-1, r)
    | String "+" r => (1, r)
    | _ => (1, s)
    end in
  let '(run, rest) := int_scan body in
  match int_digits run 0 false with
  | None => Raise (InvalidLiteral value)
  | Some n =>
      if int_max_str_digits <? count_digits run
      then Raise (IntDigitLimit (count_digits run))
      else if forallb is_int_space (list_ascii_of_string rest) then Ok (sign * n)
      else Raise (InvalidLiteral value)
  end.

(** The [while num > 0] loop shared by [str] and by the three
    [decimal_to_*] functions: prepend the digit of [num % base],
    then [num //= base]. *)
Equations? digits_loop (base : Z) (Hbase : (1 <? base) = true)
    (digit : Z -> string) (num : Z) (acc : string) : string
    by wf (Z.to_nat num) lt :=
  digits_loop base Hbase digit num acc with Z_gt_dec num 0 := {
    | left _ => digits_loop base Hbase digit (num / base) (digit (num mod base) +:+ acc)
    | right _ => acc }.
Proof.
  apply Z.ltb_lt in Hbase.
  apply Z2Nat.inj_lt; [apply Z.div_pos; lia | lia | apply Z.div_lt; lia].
Qed.

(** The character of a decimal digit [0..9]. *)
Definition digit_char (d : Z) : string :=
  String (ascii_of_nat (48 + Z.to_nat d)) EmptyString.

(** The decimal writing of an integer: what [str(n)], [repr(n)] and
    [f"{n}"] return when they return. *)
Definition decimal_string (n : Z) : string :=
  if n =? 0 then "0"
  else
    let digits := digits_loop 10 eq_refl digit_char (Z.abs n) "" in
    if n >=? 0 then digits else "-" +:+ digits.

(** The built-in [str(n)] on an integer: it raises when the writing,
    sign apart, has more digits than the limit. *)
Definition str (n : Z) : result string :=
  if int_max_str_digits <? Z.of_nat (String.length (decimal_string (Z.abs n)))
  then Raise StrDigitLimit
  else Ok (decimal_string n).

(** [s[i]] for an index within range; the digit loops only index
    with [num % 16]. *)
Definition item (s : string) (i : Z) : string :=
  match String.get (Z.to_nat i) s with
  | Some c => String c EmptyString
  | None => EmptyString
  end.

End PyStr.

(** ** number_systems.py *)

Module NumberSystemConverter.

(** In the two loops below [str(num % 2)] and [str(num % 8)] write a
    single digit, which [str] never refuses ([str_small]): they are
    embedded by what [str] returns. *)
Definition decimal_to_binary (decimal : Z) : string :=
  if decimal =? 0 then "0"
  else
    let num := Z.abs decimal in
    let binary :=
      PyStr.digits_loop 2 eq_refl (fun d => PyStr.decimal_string d) num "" in
    if decimal >=? 0 then binary else "-" +:+ binary.

Definition decimal_to_octal (decimal : Z) : string :=
  if decimal =? 0 then "0"
  else
    let num := Z.abs decimal in
    let octal :=
      PyStr.digits_loop 8 eq_refl (fun d => PyStr.decimal_string d) num "" in
    if decimal >=? 0 then octal else "-" +:+ octal.

Definition hex_chars : string := "0123456789ABCDEF".

Definition decimal_to_hexadecimal (decimal : Z) : string :=
  if decimal =? 0 then "0"
  else
    let num := Z.abs decimal in
    let hexadecimal :=
      PyStr.digits_loop 16 eq_refl (fun d => PyStr.item hex_chars d) num "" in
    if decimal >=? 0 then hexadecimal else "-" +:+ hexadecimal.

(** [for i, digit in enumerate(reversed(binary))]: the loop stops at
    the first character, from the right, outside the alphabet. *)
Fixpoint binary_to_decimal_loop (cs : list ascii) (i : Z) (decimal : Z) : result Z :=
  match cs with
  | [] => Ok decimal
  | digit :: rest =>
      if negb (PyStr.contains digit "01") then Raise (InvalidDigit "binary" digit)
      else binary_to_decimal_loop rest (i + 1) (decimal + PyStr.digit_value digit * 2 ^ i)
  end.

Definition binary_to_decimal (binary : string) : result Z :=
  let binary := PyStr.remove_spaces binary in
  let '(sign, binary) :=
    if PyStr.starts_with_minus binary then (-1, PyStr.tail binary) else (1, binary) in
  decimal ← binary_to_decimal_loop (PyStr.reversed binary) 0 0;
  Ok (sign * decimal).

Fixpoint octal_to_decimal_loop (cs : list ascii) (i : Z) (decimal : Z) : result Z :=
  match cs with
  | [] => Ok decimal
  | digit :: rest =>
      if negb (PyStr.contains digit "01234567") then Raise (InvalidDigit "octal" digit)
      else octal_to_decimal_loop rest (i + 1) (decimal + PyStr.digit_value digit * 8 ^ i)
  end.

Definition octal_to_decimal (octal : string) : result Z :=
  let octal := PyStr.remove_spaces octal in
  let '(sign, octal) :=
    if PyStr.starts_with_minus octal then (-1, PyStr.tail octal) else (1, octal) in
  decimal ← octal_to_decimal_loop (PyStr.reversed octal) 0 0;
  Ok (sign * decimal).

Fixpoint hexadecimal_to_decimal_loop (cs : list ascii) (i : Z) (decimal : Z) : result Z :=
  match cs with
  | [] => Ok decimal
  | char :: rest =>
      match PyStr.index char hex_chars with
      | None => Raise (InvalidDigit "hexadecimal" char)
      | Some k => hexadecimal_to_decimal_loop rest (i + 1) (decimal + Z.of_nat k * 16 ^ i)
      end
  end.

Definition hexadecimal_to_decimal (hexadecimal : string) : result Z :=
  let hexadecimal := PyStr.upper (PyStr.remove_spaces hexadecimal) in
  let '(sign, hexadecimal) :=
    if PyStr.starts_with_minus hexadecimal
    then (-1, PyStr.tail hexadecimal) else (1, hexadecimal) in
  decimal ← hexadecimal_to_decimal_loop (PyStr.reversed hexadecimal) 0 0;
  Ok (sign * decimal).

Definition convert (value : string) (from_base to_base : Z) : result string :=
  decimal ←
    (if from_base =? 10 then PyStr.int value
     else if from_base =? 2 then binary_to_decimal value
     else if from_base =? 8 then octal_to_decimal value
     else if from_base =? 16 then hexadecimal_to_decimal value
     else Raise (UnsupportedBase from_base));
  if to_base =? 10 then PyStr.str decimal
  else if to_base =? 2 then Ok (decimal_to_binary decimal)
  else if to_base =? 8 then Ok (decimal_to_octal decimal)
  else if to_base =? 16 then Ok (decimal_to_hexadecimal decimal)
  else Raise (UnsupportedBase to_base).

End NumberSystemConverter.

(** ** Elements of the arrays, and the store of list objects *)

(** The comparisons the search and sort code applies to array elements:
    [==] and [<]; [x > y] is [y < x], as it is on [int] and on [str].
    The laws are those of a strict total order whose equality test is
    identity, which is what the two element types offer. *)
Class PyOrd (A : Type) : Type := {
  py_eqb : A -> A -> bool;
  py_ltb : A -> A -> bool;
  py_eqb_eq : forall x y, py_eqb x y = true <-> x = y;
  py_ltb_irrefl : forall x, py_ltb x x = false;
  py_ltb_trans : forall x y z,
    py_ltb x y = true -> py_ltb y z = true -> py_ltb x z = true;
  py_ltb_connex : forall x y,
    py_ltb x y = false -> py_ltb y x = false -> x = y
}.

Definition py_gtb {A : Type} `{PyOrd A} (x y : A) : bool := py_ltb y x.

(** How an element is printed by an f-string: [f"{x}"] on its own, and
    inside the printed list [f"{arr}"]. The class is for elements that
    are always printed, as strings are, and as integers are within the
    digit limit, where every integer that [int] has read lies. *)
Class PyFormat (A : Type) : Type := {
  format : A -> string;
  repr : A -> string
}.

Lemma Z_ltb_trans (x y z : Z) : (x <? y) = true -> (y <? z) = true -> (x <? z) = true.
Proof. rewrite !Z.ltb_lt. lia. Qed.

Lemma Z_ltb_connex (x y : Z) : (x <? y) = false -> (y <? x) = false -> x = y.
Proof. rewrite !Z.ltb_ge. lia. Qed.

#[export] Instance Z_PyOrd : PyOrd Z := {|
  py_eqb := Z.eqb;
  py_ltb := Z.ltb;
  py_eqb_eq := Z.eqb_eq;
  py_ltb_irrefl := Z.ltb_irrefl;
  py_ltb_trans := Z_ltb_trans;
  py_ltb_connex := Z_ltb_connex
|}.

(** Strings compare character by character, a proper prefix first. *)
Definition str_ltb (x y : string) : bool :=
  match String_as_OT.compare x y with
  | Lt => true
  | _ => false
  end.

Lemma str_ltb_irrefl (x : string) : str_ltb x x = false.
Proof.
  unfold str_ltb. destruct (String_as_OT.compare x x) eqn:Hc; try done.
  by destruct (StrictOrder_Irreflexive (R := String_as_OT.lt) x).
Qed.

Lemma str_ltb_trans (x y z : string) :
  str_ltb x y = true -> str_ltb y z = true -> str_ltb x z = true.
Proof.
  unfold str_ltb.
  destruct (String_as_OT.compare x y) eqn:Hxy; try done.
  destruct (String_as_OT.compare y z) eqn:Hyz; try done.
  intros _ _.
  by rewrite (StrictOrder_Transitive (R := String_as_OT.lt) x y z Hxy Hyz).
Qed.

Lemma str_ltb_connex (x y : string) :
  str_ltb x y = false -> str_ltb y x = false -> x = y.
Proof.
  unfold str_ltb.
  destruct (String_as_OT.compare_spec x y) as [Heq|Hlt|Hgt]; try done.
  unfold String_as_OT.lt in Hgt. by rewrite Hgt.
Qed.

#[export] Instance string_PyOrd : PyOrd string := {|
  py_eqb := String.eqb;
  py_ltb := str_ltb;
  py_eqb_eq := String.eqb_eq;
  py_ltb_irrefl := str_ltb_irrefl;
  py_ltb_trans := str_ltb_trans;
  py_ltb_connex := str_ltb_connex
|}.

(** An integer within the digit limit is printed as [str] writes
    it. *)
#[export] Instance Z_PyFormat : PyFormat Z := {
  format := PyStr.decimal_string;
  repr := PyStr.decimal_string
}.

(** [repr] of a string: single quotes unless the string holds a single
    quote and no double quote; a backslash before a backslash and before
    the quote in use; the usual escapes for tab, line feed and carriage
    return, and a hexadecimal escape for the other control characters
    of ASCII. *)
Definition double_quote : ascii := ascii_of_nat 34.

Definition hex_escape (n : nat) : string :=
  "\x" +:+ PyStr.item "0123456789abcdef" (Z.of_nat (n / 16))
        +:+ PyStr.item "0123456789abcdef" (Z.of_nat (n mod 16)).

Definition repr_char (quote c : ascii) : string :=
  let n := nat_of_ascii c in
  if Ascii.eqb c "\" then "\\"
  else if Ascii.eqb c quote then String "\" (String quote EmptyString)
  else if (n =? 9)%nat then "\t"
  else if (n =? 10)%nat then "\n"
  else if (n =? 13)%nat then "\r"
  else if ((n <? 32)%nat || (n =? 127)%nat)%bool then hex_escape n
  else String c EmptyString.

Fixpoint repr_chars (quote : ascii) (s : string) : string :=
  match s with
  | EmptyString => EmptyString
  | String c r => repr_char quote c +:+ repr_chars quote r
  end.

Definition repr_str (s : string) : string :=
  let quote :=
    if (PyStr.contains "'" s && negb (PyStr.contains double_quote s))%bool
    then double_quote else "'"%char in
  String quote (repr_chars quote s +:+ String quote EmptyString).

#[export] Instance string_PyFormat : PyFormat string := {
  format := fun s => s;
  repr := repr_str
}.

Definition newline : string := String (ascii_of_nat 10) EmptyString.

Fixpoint join (sep : string) (parts : list string) : string :=
  match parts with
  | [] => EmptyString
  | [p] => p
  | p :: rest => p +:+ sep +:+ join sep rest
  end.

(** [f"{arr}"] for a list. *)
Definition format_list {A : Type} `{PyFormat A} (l : list A) : string :=
  "[" +:+ join ", " (map repr l) +:+ "]".

(** [f"{n}"] for a position or a count: a number no larger than the
    length of an array. *)
Definition str_nat (n : nat) : string := PyStr.decimal_string (Z.of_nat n).

Module Heap.

(** A location names a list object; the heap holds the contents of
    every list object allocated so far. *)
Abbreviation loc := nat (only parsing).
Abbreviation heap A := (list (list A)) (only parsing).

Section Heap.
Context {A : Type}.

(** A computation on the heap; [None] is a raised [IndexError] (or a
    location that names no object). *)
Definition M (X : Type) : Type := heap A -> option (X * heap A).

Definition ret {X : Type} (x : X) : M X := fun h => Some (x, h).

Definition bind {X Y : Type} (m : M X) (k : X -> M Y) : M Y :=
  fun h =>
    match m h with
    | Some (x, h') => k x h'
    | None => None
    end.

(** [array.copy()]: a new list object with the same elements. *)
Definition copy (array : loc) : M loc := fun h =>
  match h !! array with
  | Some l => Some (length h, h ++ [l])
  | None => None
  end.

(** [len(arr)]. *)
Definition len (arr : loc) : M nat := fun h =>
  match h !! arr with
  | Some l => Some (length l, h)
  | None => None
  end.

(** The current elements, as [f"{arr}"] and [enumerate(arr)] see them. *)
Definition contents (arr : loc) : M (list A) := fun h =>
  match h !! arr with
  | Some l => Some (l, h)
  | None => None
  end.

(** [arr[i]] for [i >= 0]. *)
Definition getitem (arr : loc) (i : nat) : M A := fun h =>
  match h !! arr with
  | Some l =>
      match l !! i with
      | Some x => Some (x, h)
      | None => None
      end
  | None => None
  end.

(** The position a Python index denotes in a list of [n] elements:
    a negative index counts from the end. *)
Definition position (n : nat) (i : Z) : option nat :=
  if 0 <=? i then
    if i <? Z.of_nat n then Some (Z.to_nat i) else None
  else
    if 0 <=? i + Z.of_nat n then Some (Z.to_nat (i + Z.of_nat n)) else None.

(** [arr[i]] for an integer [i] of either sign. *)
Definition getitem_int (arr : loc) (i : Z) : M A := fun h =>
  match h !! arr with
  | Some l =>
      match position (length l) i with
      | Some k => getitem arr k h
      | None => None
      end
  | None => None
  end.

(** [arr[i] = x] for [i >= 0]. *)
Definition setitem (arr : loc) (i : nat) (x : A) : M unit := fun h =>
  match h !! arr with
  | Some l =>
      if decide (i < length l)%nat then Some (tt, <[arr := <[i := x]> l]> h)
      else None
  | None => None
  end.

End Heap.
End Heap.

Notation "x <- m ;; k" := (Heap.bind m (fun x => k))
  (at level 100, m at next level, right associativity, only parsing).
Notation "m ;;; k" := (Heap.bind m (fun _ => k))
  (at level 100, right associativity, only parsing).

(** ** sorting.py *)

Module SortingAlgorithms.
Section Sorting.
Context {A : Type} `{PyOrd A} `{PyFormat A}.
Import Heap.

Definition trace : Type := list string.

(** The inner loop of bubble sort, [for j in range(0, n - i - 1)],
    over the indices [js] still to visit. *)
Fixpoint bubble_inner (arr : loc) (js : list nat) (swapped : bool)
    (steps : trace) : M (bool * trace) :=
  match js with
  | [] => ret (swapped, steps)
  | j :: js' =>
      a <- getitem arr j ;;
      b <- getitem arr (j + 1) ;;
      if py_gtb a b then
        (* arr[j], arr[j + 1] = arr[j + 1], arr[j] *)
        x <- getitem arr (j + 1) ;;
        y <- getitem arr j ;;
        setitem arr j x ;;;
        setitem arr (j + 1) y ;;;
        p <- getitem arr (j + 1) ;;
        q <- getitem arr j ;;
        l <- contents arr ;;
        bubble_inner arr js' true
          (steps ++ ["  Swapped " +:+ format p +:+ " and " +:+ format q
                       +:+ ": " +:+ format_list l])
      else bubble_inner arr js' swapped steps
  end.

(** The outer loop, [for i in range(n)], with its [break]. *)
Fixpoint bubble_outer (arr : loc) (n : nat) (rng : list nat)
    (steps : trace) : M trace :=
  match rng with
  | [] => ret steps
  | i :: rng' =>
      let steps := steps ++ [newline +:+ "Pass " +:+ str_nat (i + 1) +:+ ":"] in
      r <- bubble_inner arr (seq 0 (n - i - 1)) false steps ;;
      let '(swapped, steps) := r in
      if negb swapped then ret (steps ++ ["  No swaps needed, array is sorted"])
      else bubble_outer arr n rng' steps
  end.

Definition bubble_sort (array : loc) : M (loc * trace) :=
  arr <- copy array ;;
  n <- len arr ;;
  l <- contents arr ;;
  steps <- bubble_outer arr n (seq 0 n) ["Starting array: " +:+ format_list l] ;;
  l <- contents arr ;;
  ret (arr, steps ++ [newline +:+ "Final sorted array: " +:+ format_list l]).

(** [for j in range(i + 1, n)]: track the index of the smallest
    element seen. *)
Fixpoint selection_inner (arr : loc) (js : list nat) (min_idx : nat) : M nat :=
  match js with
  | [] => ret min_idx
  | j :: js' =>
      a <- getitem arr j ;;
      b <- getitem arr min_idx ;;
      if py_ltb a b then selection_inner arr js' j
      else selection_inner arr js' min_idx
  end.

Fixpoint selection_outer (arr : loc) (n : nat) (rng : list nat)
    (steps : trace) : M trace :=
  match rng with
  | [] => ret steps
  | i :: rng' =>
      let steps :=
        steps ++ [newline +:+ "Pass " +:+ str_nat (i + 1)
                    +:+ ": Finding minimum from index " +:+ str_nat i
                    +:+ " to " +:+ PyStr.decimal_string (Z.of_nat n - 1)] in
      min_idx <- selection_inner arr (seq (i + 1) (n - (i + 1))) i ;;
      if negb (Nat.eqb min_idx i) then
        (* arr[i], arr[min_idx] = arr[min_idx], arr[i] *)
        x <- getitem arr min_idx ;;
        y <- getitem arr i ;;
        setitem arr i x ;;;
        setitem arr min_idx y ;;;
        p <- getitem arr i ;;
        q <- getitem arr min_idx ;;
        l <- contents arr ;;
        selection_outer arr n rng'
          (steps ++ ["  Swapped " +:+ format p +:+ " (min) with " +:+ format q
                       +:+ ": " +:+ format_list l])
      else
        p <- getitem arr i ;;
        selection_outer arr n rng'
          (steps ++ ["  " +:+ format p +:+ " is already in correct position"])
  end.

Definition selection_sort (array : loc) : M (loc * trace) :=
  arr <- copy array ;;
  n <- len arr ;;
  l <- contents arr ;;
  steps <- selection_outer arr n (seq 0 n) ["Starting array: " +:+ format_list l] ;;
  l <- contents arr ;;
  ret (arr, steps ++ [newline +:+ "Final sorted array: " +:+ format_list l]).

(** [while j >= 0 and arr[j] > key]. The loop variable is carried as
    [k = j + 1], so that [j >= 0] is [k = S j] and the loop is
    structural in [k]; it returns the final [j + 1]. *)
Fixpoint insertion_inner (arr : loc) (key : A) (k : nat) (steps : trace)
    : M (nat * trace) :=
  match k with
  | O => ret (O, steps)
  | S j =>
      a <- getitem arr j ;;
      if py_gtb a key then
        setitem arr (j + 1) a ;;;
        (* j -= 1, after which arr[j + 1] is the element just read *)
        p <- getitem arr j ;;
        l <- contents arr ;;
        insertion_inner arr key j
          (steps ++ ["  Shifted " +:+ format p +:+ " to the right: "
                       +:+ format_list l])
      else ret (S j, steps)
  end.

(** [for i in range(1, n)]. *)
Fixpoint insertion_outer (arr : loc) (rng : list nat) (steps : trace) : M trace :=
  match rng with
  | [] => ret steps
  | i :: rng' =>
      key <- getitem arr i ;;
      let steps :=
        steps ++ [newline +:+ "Pass " +:+ str_nat i +:+ ": Inserting "
                    +:+ format key +:+ " into sorted portion"] in
      r <- insertion_inner arr key i steps ;;
      let '(k, steps) := r in
      setitem arr k key ;;;
      if negb (Nat.eqb k i) then
        l <- contents arr ;;
        insertion_outer arr rng'
          (steps ++ ["  Inserted " +:+ format key +:+ " at position "
                       +:+ str_nat k +:+ ": " +:+ format_list l])
      else
        insertion_outer arr rng'
          (steps ++ ["  " +:+ format key +:+ " is already in correct position"])
  end.

Definition insertion_sort (array : loc) : M (loc * trace) :=
  arr <- copy array ;;
  n <- len arr ;;
  l <- contents arr ;;
  steps <- insertion_outer arr (seq 1 (n - 1)) ["Starting array: " +:+ format_list l] ;;
  l <- contents arr ;;
  ret (arr, steps ++ [newline +:+ "Final sorted array: " +:+ format_list l]).

End Sorting.
End SortingAlgorithms.

(** ** searching.py *)

Module SearchingAlgorithms.
Section Searching.
Context {A : Type} `{PyOrd A} `{PyFormat A}.
Import Heap.

Definition trace : Type := list string.

(** [enumerate(array)], counting from [i]. *)
Fixpoint enumerate_from (i : nat) (l : list A) : list (nat * A) :=
  match l with
  | [] => []
  | x :: r => (i, x) :: enumerate_from (S i) r
  end.

Definition enumerate (l : list A) : list (nat * A) := enumerate_from 0 l.

Definition not_found_line : string := "✗ Target not found in array".

(** Positions and step numbers, which do not exceed the length of the
    array, are printed as [str] writes them. *)
Definition found_line (i : Z) : string :=
  "✓ Found at index " +:+ PyStr.decimal_string i +:+ "!".

(** The body of [for i, element in enumerate(array)], with the code
    after the loop when the pairs run out. *)
Fixpoint linear_loop (pairs : list (nat * A)) (target : A) (steps : trace)
    : Z * trace :=
  match pairs with
  | [] => (-1, steps ++ [not_found_line])
  | (i, element) :: rest =>
      let steps :=
        steps ++ ["Checking index " +:+ str_nat i +:+ ": " +:+ format element
                    +:+ " " +:+ (if py_eqb element target then "=" else "≠")
                    +:+ " " +:+ format target] in
      if py_eqb element target
      then (Z.of_nat i, steps ++ [found_line (Z.of_nat i)])
      else linear_loop rest target steps
  end.

Definition linear_search (array : loc) (target : A) : M (Z * trace) :=
  l <- contents array ;;
  ret (linear_loop (enumerate l) target []).

(** [while left <= right], with [left_] and [right_] for the two
    bounds; the distance [right_ - left_ + 1] shrinks at every turn. *)
Equations? binary_loop (array : loc) (target : A) (left_ right_ step_num : Z)
    (steps : trace) (h : heap A) : option ((Z * trace) * heap A)
    by wf (Z.to_nat (right_ - left_ + 1)) lt :=
  binary_loop array target left_ right_ step_num steps h with Z_le_dec left_ right_ := {
    | right _ => Some ((-1, steps ++ [not_found_line]), h)
    | left _ with getitem_int array ((left_ + right_) / 2) h := {
        | None => None
        | Some (mid_value, h') =>
            let mid := (left_ + right_) / 2 in
            let steps :=
              steps ++ ["Step " +:+ PyStr.decimal_string step_num
                          +:+ ": Checking middle element at index " +:+ PyStr.decimal_string mid
                          +:+ " = " +:+ format mid_value] in
            if py_eqb mid_value target
            then Some ((mid, steps ++ [found_line mid]), h')
            else if py_ltb mid_value target
            then binary_loop array target (mid + 1) right_ (step_num + 1)
                   (steps ++ ["  " +:+ format mid_value +:+ " < " +:+ format target
                                +:+ ", searching right half [" +:+ PyStr.decimal_string (mid + 1)
                                +:+ ".." +:+ PyStr.decimal_string right_ +:+ "]"]) h'
            else binary_loop array target left_ (mid - 1) (step_num + 1)
                   (steps ++ ["  " +:+ format mid_value +:+ " > " +:+ format target
                                +:+ ", searching left half [" +:+ PyStr.decimal_string left_
                                +:+ ".." +:+ PyStr.decimal_string (mid - 1) +:+ "]"]) h' } }.
Proof.
  all: subst mid; apply Z2Nat.inj_lt; Z.div_mod_to_equations; lia.
Qed.

Definition binary_search (array : loc) (target : A) : M (Z * trace) :=
  n <- len array ;;
  binary_loop array target 0 (Z.of_nat n - 1) 1 [].

End Searching.
End SearchingAlgorithms.

(** ** set_operations.py *)

Module SetOperations.
Section Sets.
Context {T : Type} `{Countable T}.

Definition union (set_a set_b : gset T) : gset T := set_a ∪ set_b.

Definition intersection (set_a set_b : gset T) : gset T := set_a ∩ set_b.

Definition difference (set_a set_b : gset T) : gset T := set_a ∖ set_b.

Definition cardinality (set_a : gset T) : nat := size set_a.

End Sets.
End SetOperations.

(** ** calculator_gui.py: the handler in front of [convert] *)

Module DiscreteCalculatorApp.

(** What the handler puts on the screen: an error box, or the result
    followed by the rows of the other bases that converted. *)
Inductive display : Type :=
  | ShowError (message : string)
  | ConversionFailed (e : error)
  | ShowResult (value : string) (result : string) (rows : list (Z * string)).

(** The values of [base_map], in the order the rows are produced. *)
Definition base_map : list Z := [2; 8; 10; 16].

(** The rows of the other bases; a conversion that raises is skipped. *)
Fixpoint all_conversions (value : string) (from_base : Z) (bases : list Z)
    : list (Z * string) :=
  match bases with
  | [] => []
  | base_num :: rest =>
      if negb (base_num =? from_base) then
        match NumberSystemConverter.convert value from_base base_num with
        | Ok conv_result => (base_num, conv_result) :: all_conversions value from_base rest
        | Raise _ => all_conversions value from_base rest
        end
      else all_conversions value from_base rest
  end.

Definition convert_number (num_input : string) (from_base to_base : Z) : display :=
  let value := PyStr.strip num_input in
  match value with
  | EmptyString => ShowError "Please enter a number!"
  | _ =>
      match NumberSystemConverter.convert value from_base to_base with
      | Ok result => ShowResult value result (all_conversions value from_base base_map)
      | Raise e => ConversionFailed e
      end
  end.

End DiscreteCalculatorApp.

(** ** Literals and their normal form *)

Module Literal.

(** The digit alphabet of a base; the letters of base 16 count in
    both cases. *)
Definition alphabet (base : Z) : string :=
  if base =? 2 then "01"
  else if base =? 8 then "01234567"
  else if base =? 10 then "0123456789"
  else "0123456789ABCDEFabcdef".

(** The characters after the optional leading [-]. *)
Definition digits (L : string) : string :=
  if PyStr.starts_with_minus L then PyStr.tail L else L.

(** A valid literal of a base: every character after the optional
    leading [-] is drawn from the alphabet of the base. *)
Definition valid (base : Z) (L : string) : bool :=
  forallb (fun c => PyStr.contains c (alphabet base))
    (list_ascii_of_string (digits L)).

Fixpoint strip_leading_zeros (s : string) : string :=
  match s with
  | EmptyString => EmptyString
  | String c r => if Ascii.eqb c "0" then strip_leading_zeros r else s
  end.

(** The normal form as the specification words it: leading zeros
    stripped, the sign kept, and ["0"] its own normal form. *)
Definition normalize (L : string) : string :=
  let stripped :=
    match strip_leading_zeros (digits L) with
    | EmptyString => "0"
    | d => d
    end in
  if PyStr.starts_with_minus L then "-" +:+ stripped else stripped.

(** The normal form [convert] produces, on a literal already in upper
    case: leading zeros stripped, ["0"] when no digit is left, and the
    sign kept on anything else. *)
Definition normal (U : string) : string :=
  match strip_leading_zeros (digits U) with
  | EmptyString => "0"
  | d => if PyStr.starts_with_minus U then "-" +:+ d else d
  end.

Definition normal_form (L : string) : string := normal (PyStr.upper L).

End Literal.

(** * Properties *)

(** ** The element order *)

Section Order.
Context {A : Type} `{PyOrd A}.

(** [x <= y], as "not [y < x]". *)
Definition le (x y : A) : Prop := py_ltb y x = false.

Lemma le_refl (x : A) : le x x.
Proof. apply py_ltb_irrefl. Qed.

Lemma lt_le (x y : A) : py_ltb x y = true -> le x y.
Proof.
  intros Hxy. unfold le. destruct (py_ltb y x) eqn:Hyx; [|done].
  pose proof (py_ltb_trans _ _ _ Hxy Hyx) as Hxx.
  rewrite py_ltb_irrefl in Hxx. done.
Qed.

Lemma le_trans (x y z : A) : le x y -> le y z -> le x z.
Proof.
  unfold le. intros Hyx Hzy.
  destruct (py_ltb z x) eqn:Hzx; [|done].
  destruct (py_ltb x y) eqn:Hxy.
  - rewrite (py_ltb_trans _ _ _ Hzx Hxy) in Hzy. done.
  - rewrite <- (py_ltb_connex _ _ Hxy Hyx) in Hzy. congruence.
Qed.

Lemma le_antisym (x y : A) : le x y -> le y x -> x = y.
Proof. unfold le. intros Hyx Hxy. by apply py_ltb_connex. Qed.

Lemma lt_le_trans (x y z : A) : py_ltb x y = true -> le y z -> le x z.
Proof. intros Hxy Hyz. eapply le_trans; [by apply lt_le|done]. Qed.

(** The elements at positions [p] and [q], when both exist, are in
    order. *)
Definition ordered_at (l : list A) (p q : nat) : Prop :=
  forall x y, l !! p = Some x -> l !! q = Some y -> le x y.

(** A non-decreasing array. *)
Definition non_decreasing (l : list A) : Prop :=
  forall p q, (p <= q)%nat -> ordered_at l p q.

Lemma ordered_at_refl (l : list A) (p : nat) : ordered_at l p p.
Proof. intros x y Hx Hy. rewrite Hx in Hy. injection Hy as <-. apply le_refl. Qed.

Lemma non_decreasing_cons (x : A) (l : list A) :
  non_decreasing (x :: l) -> (forall y, y ∈ l -> le x y) /\ non_decreasing l.
Proof.
  intros Hs. split.
  - intros y [i Hi]%list_elem_of_lookup.
    apply (Hs 0%nat (S i)); [lia|done|done].
  - intros p q Hpq a b Ha Hb. apply (Hs (S p) (S q)); [lia|done|done].
Qed.

(** Two non-decreasing arrangements of the same elements are equal. *)
Lemma non_decreasing_unique (l1 l2 : list A) :
  non_decreasing l1 -> non_decreasing l2 -> l1 ≡ₚ l2 -> l1 = l2.
Proof.
  revert l2. induction l1 as [|x l1 IH]; intros l2 Hs1 Hs2 Hp.
  - by apply Permutation_nil_l in Hp.
  - destruct l2 as [|y l2]; [by apply Permutation_nil_r in Hp|].
    destruct (non_decreasing_cons _ _ Hs1) as [Hx Hs1'].
    destruct (non_decreasing_cons _ _ Hs2) as [Hy Hs2'].
    assert (x = y) as ->.
    { assert (x ∈ y :: l2) as Hxin by (rewrite <- Hp; left).
      assert (y ∈ x :: l1) as Hyin by (rewrite Hp; left).
      apply elem_of_cons in Hxin as [->|Hxin]; [done|].
      apply elem_of_cons in Hyin as [->|Hyin]; [done|].
      apply le_antisym; auto. }
    f_equal. apply IH; [done|done|]. by apply Permutation_cons_inv in Hp.
Qed.

End Order.

(** ** Running heap operations *)

Section HeapFacts.
Context {A : Type}.
Import Heap.
Local Open Scope nat_scope.

Implicit Types (h : heap A) (l : list A).

Lemma getitem_run h arr l i x :
  h !! arr = Some l -> l !! i = Some x -> getitem arr i h = Some (x, h).
Proof. intros Hh Hi. unfold getitem. by rewrite Hh, Hi. Qed.

Lemma setitem_run h arr l i x :
  h !! arr = Some l -> i < length l ->
  setitem arr i x h = Some (tt, <[arr := <[i := x]> l]> h).
Proof. intros Hh Hi. unfold setitem. rewrite Hh. by rewrite decide_True. Qed.

Lemma contents_run h arr l :
  h !! arr = Some l -> contents arr h = Some (l, h).
Proof. intros Hh. unfold contents. by rewrite Hh. Qed.

Lemma len_run h arr l :
  h !! arr = Some l -> len arr h = Some (length l, h).
Proof. intros Hh. unfold len. by rewrite Hh. Qed.

Lemma copy_run h array l :
  h !! array = Some l -> copy array h = Some (length h, h ++ [l]).
Proof. intros Hh. unfold copy. by rewrite Hh. Qed.

Lemma heap_update_lookup h arr l l' :
  h !! arr = Some l -> <[arr := l']> h !! arr = Some l'.
Proof. intros Hh. apply list_lookup_insert_eq. by eapply lookup_lt_Some. Qed.

Lemma heap_update_update h arr l1 l2 :
  <[arr := l2]> (<[arr := l1]> h) = <[arr := l2]> h.
Proof. apply list_insert_insert_eq. Qed.

Lemma heap_update_id h arr l : h !! arr = Some l -> <[arr := l]> h = h.
Proof. apply list_insert_id. Qed.

Lemma heap_fresh_lookup h l : (h ++ [l]) !! length h = Some l.
Proof. by rewrite lookup_app_r, Nat.sub_diag. Qed.

Lemma heap_fresh_update h l l' : <[length h := l']> (h ++ [l]) = h ++ [l'].
Proof. by rewrite insert_app_r_alt, Nat.sub_diag. Qed.

(** Exchanging two positions. *)
Definition transp (i j p : nat) : nat :=
  if decide (p = i) then j else if decide (p = j) then i else p.

Lemma transp_inj i j : Inj (=) (=) (transp i j).
Proof. intros p q. unfold transp. repeat case_decide; lia. Qed.

Lemma swap_lookup l i j a b p :
  l !! i = Some a -> l !! j = Some b ->
  <[j := a]> (<[i := b]> l) !! p = l !! transp i j p.
Proof.
  intros Hi Hj. unfold transp.
  pose proof (lookup_lt_Some _ _ _ Hi). pose proof (lookup_lt_Some _ _ _ Hj).
  destruct (decide (p = j)) as [->|Hpj].
  - rewrite list_lookup_insert_eq by (rewrite length_insert; lia).
    case_decide; congruence.
  - rewrite list_lookup_insert_ne by done.
    destruct (decide (p = i)) as [->|Hpi].
    + rewrite list_lookup_insert_eq by lia. congruence.
    + by rewrite list_lookup_insert_ne.
Qed.

Lemma swap_perm l i j a b :
  l !! i = Some a -> l !! j = Some b -> <[j := a]> (<[i := b]> l) ≡ₚ l.
Proof.
  intros Hi Hj. apply Permutation_inj. split.
  - by rewrite !length_insert.
  - exists (transp i j). split; [apply transp_inj|].
    intros p. by apply swap_lookup.
Qed.

End HeapFacts.

(** ** Bubble sort *)

Section BubbleFacts.
Context {A : Type} `{PyOrd A} `{PyFormat A}.
Import Heap SortingAlgorithms.
Local Open Scope nat_scope.

Implicit Types (h : heap A) (l : list A).

(** Every position from [m] on holds an element that is at least
    each element before it: the part bubble sort has settled. *)
Definition settled_from (m : nat) (l : list A) : Prop :=
  forall p q, p <= q -> m <= q -> ordered_at l p q.

Lemma settled_from_0 l : settled_from 0 l -> non_decreasing l.
Proof. intros Hs p q Hpq. apply Hs; lia. Qed.

Lemma settled_from_length l : settled_from (length l) l.
Proof.
  intros p q _ Hq x y _ Hy. apply lookup_lt_Some in Hy. lia.
Qed.

Lemma bubble_inner_spec arr k : forall j0 l swapped steps h,
  h !! arr = Some l ->
  j0 + k < length l ->
  settled_from (j0 + k + 1) l ->
  (forall p, p <= j0 -> ordered_at l p j0) ->
  (swapped = false -> forall p q, p <= q -> q <= j0 -> ordered_at l p q) ->
  exists l' swapped' steps',
    bubble_inner arr (seq j0 k) swapped steps h
      = Some ((swapped', steps'), <[arr := l']> h)
    /\ l' ≡ₚ l
    /\ settled_from (j0 + k) l'
    /\ (swapped' = false -> non_decreasing l').
Proof.
  induction k as [|k IH]; intros j0 l swapped steps h Hh Hlen Hset Hmax Hsorted.
  - exists l, swapped, steps.
    rewrite (heap_update_id _ _ _ Hh). split; [done|]. split; [done|].
    assert (settled_from (j0 + 0) l) as Hset'.
    { intros p q Hpq Hq. destruct (decide (q = j0)) as [->|].
      - by apply Hmax.
      - apply Hset; lia. }
    split; [done|]. intros -> p q Hpq.
    destruct (decide (q <= j0)); [by apply Hsorted|apply Hset'; lia].
  - destruct (lookup_lt_is_Some_2 l j0) as [a Ha]; [lia|].
    destruct (lookup_lt_is_Some_2 l (j0 + 1)) as [b Hb]; [lia|].
    simpl seq. simpl bubble_inner. unfold bind at 1.
    rewrite (getitem_run _ _ _ _ _ Hh Ha). unfold bind at 1.
    rewrite (getitem_run _ _ _ _ _ Hh Hb).
    unfold py_gtb. destruct (py_ltb b a) eqn:Hba.
    + set (l1 := <[j0 + 1 := a]> (<[j0 := b]> l)).
      assert (forall p, l1 !! p = l !! transp j0 (j0 + 1) p) as Hl1
        by (intros p; by apply swap_lookup).
      assert (length l1 = length l) as Hlen1 by (unfold l1; by rewrite !length_insert).
      unfold bind at 1. rewrite (getitem_run _ _ _ _ _ Hh Hb).
      unfold bind at 1. rewrite (getitem_run _ _ _ _ _ Hh Ha).
      unfold bind at 1. rewrite (setitem_run _ _ _ _ _ Hh) by lia.
      unfold bind at 1.
      rewrite (setitem_run _ _ (<[j0 := b]> l)); cycle 1.
      { by eapply heap_update_lookup. }
      { rewrite length_insert. lia. }
      rewrite heap_update_update. fold l1.
      assert (<[arr := l1]> h !! arr = Some l1) as Hh1
        by (by eapply heap_update_lookup).
      assert (l1 !! (j0 + 1) = Some a) as Ha1.
      { rewrite Hl1. unfold transp. repeat case_decide; try lia; done. }
      assert (l1 !! j0 = Some b) as Hb1.
      { rewrite Hl1. unfold transp. repeat case_decide; try lia; done. }
      unfold bind at 1. rewrite (getitem_run _ _ _ _ _ Hh1 Ha1).
      unfold bind at 1. rewrite (getitem_run _ _ _ _ _ Hh1 Hb1).
      unfold bind at 1. rewrite (contents_run _ _ _ Hh1).
      match goal with
      | |- context [bubble_inner _ _ true ?st _] => set (steps1 := st)
      end.
      destruct (IH (S j0) l1 true steps1 (<[arr := l1]> h)) as (l' & swapped' & steps' & Hrun & Hperm & Hset' & Hsort').
      * done.
      * lia.
      * intros p q Hpq Hq x y. rewrite !Hl1.
        replace (transp j0 (j0 + 1) q) with q by (unfold transp; repeat case_decide; lia).
        apply Hset; [unfold transp; repeat case_decide; lia|lia].
      * intros p Hp x y Hx Hy.
        replace (S j0) with (j0 + 1) in Hy by lia.
        rewrite Ha1 in Hy. injection Hy as <-. rewrite Hl1 in Hx.
        unfold transp in Hx. repeat case_decide.
        -- subst p. rewrite Hb in Hx. injection Hx as <-. by apply lt_le.
        -- rewrite Ha in Hx. injection Hx as <-. apply le_refl.
        -- apply (Hmax p); [lia|done|done].
      * done.
      * exists l', swapped', steps'. rewrite heap_update_update in Hrun.
        split; [done|]. split.
        { rewrite Hperm. by apply swap_perm. }
        split; [|done].
        replace (j0 + S k) with (S j0 + k) by lia. done.
    + destruct (IH (S j0) l swapped steps h)
        as (l' & swapped' & steps' & Hrun & Hperm & Hset' & Hsort').
      * done.
      * lia.
      * replace (S j0 + k + 1) with (j0 + S k + 1) by lia. done.
      * intros p Hp x y Hx Hy.
        replace (S j0) with (j0 + 1) in Hy by lia. rewrite Hb in Hy. injection Hy as <-.
        destruct (decide (p = j0 + 1)) as [->|].
        -- rewrite Hb in Hx. injection Hx as <-. apply le_refl.
        -- eapply le_trans; [|exact Hba]. apply (Hmax p); [lia|done|done].
      * intros Hsw p q Hpq Hq. destruct (decide (q = S j0)) as [->|].
        -- intros x y Hx Hy.
           replace (S j0) with (j0 + 1) in Hy by lia. rewrite Hb in Hy. injection Hy as <-.
           destruct (decide (p = j0 + 1)) as [->|].
           ++ rewrite Hb in Hx. injection Hx as <-. apply le_refl.
           ++ eapply le_trans; [|exact Hba]. apply (Hmax p); [lia|done|done].
        -- apply Hsorted; [done|lia|lia].
      * exists l', swapped', steps'. split; [done|]. split; [done|].
        split; [|done]. replace (j0 + S k) with (S j0 + k) by lia. done.
Qed.

Lemma bubble_outer_spec arr c : forall i0 l steps h,
  h !! arr = Some l ->
  i0 + c = length l ->
  settled_from (length l - i0) l ->
  exists l' steps',
    bubble_outer arr (length l) (seq i0 c) steps h = Some (steps', <[arr := l']> h)
    /\ l' ≡ₚ l
    /\ non_decreasing l'.
Proof.
  induction c as [|c IH]; intros i0 l steps h Hh Hlen Hset.
  - exists l, steps. rewrite (heap_update_id _ _ _ Hh).
    split; [done|]. split; [done|].
    apply settled_from_0. by replace (length l - i0) with 0 in Hset by lia.
  - simpl seq. simpl bubble_outer. unfold bind at 1.
    match goal with
    | |- context [bubble_inner _ _ false ?st _] => set (steps0 := st)
    end.
    destruct (bubble_inner_spec arr (length l - i0 - 1) 0 l false steps0 h)
      as (l1 & swapped1 & steps1 & Hrun & Hperm & Hset1 & Hsort1).
    + done.
    + lia.
    + by replace (0 + (length l - i0 - 1) + 1) with (length l - i0) by lia.
    + intros p Hp. replace p with 0 by lia. apply ordered_at_refl.
    + intros _ p q Hpq Hq. replace p with 0 by lia. replace q with 0 by lia.
      apply ordered_at_refl.
    + rewrite Hrun. destruct swapped1; simpl negb; cbv iota.
      * assert (length l1 = length l) as Hlen1 by (by apply Permutation_length).
        destruct (IH (S i0) l1 steps1 (<[arr := l1]> h))
          as (l' & steps' & Hrun' & Hperm' & Hsort').
        -- by eapply heap_update_lookup.
        -- lia.
        -- rewrite Hlen1.
           by replace (length l - S i0) with (0 + (length l - i0 - 1)) by lia.
        -- exists l', steps'. rewrite Hlen1, heap_update_update in Hrun'.
           split; [done|]. split; [by rewrite Hperm'|done].
      * exists l1, (steps1 ++ ["  No swaps needed, array is sorted"]).
        split; [done|]. split; [done|]. by apply Hsort1.
Qed.

(** On a non-decreasing array the inner loop changes nothing. *)
Lemma bubble_inner_sorted arr k : forall j0 l swapped steps h,
  h !! arr = Some l ->
  j0 + k < length l ->
  non_decreasing l ->
  bubble_inner arr (seq j0 k) swapped steps h = Some ((swapped, steps), h).
Proof.
  induction k as [|k IH]; intros j0 l swapped steps h Hh Hlen Hsort; [done|].
  destruct (lookup_lt_is_Some_2 l j0) as [a Ha]; [lia|].
  destruct (lookup_lt_is_Some_2 l (j0 + 1)) as [b Hb]; [lia|].
  simpl seq. simpl bubble_inner. unfold bind at 1.
  rewrite (getitem_run _ _ _ _ _ Hh Ha). unfold bind at 1.
  rewrite (getitem_run _ _ _ _ _ Hh Hb).
  unfold py_gtb. rewrite (Hsort j0 (j0 + 1) ltac:(lia) a b Ha Hb).
  apply (IH (S j0) l); [done|lia|done].
Qed.

(** [bubble_sort] returns a new list object holding a non-decreasing
    arrangement of the elements of [array], and leaves every object
    that existed before as it was. *)
Lemma bubble_sort_spec h array l :
  h !! array = Some l ->
  exists l' steps,
    bubble_sort array h = Some ((length h, steps), h ++ [l'])
    /\ l' ≡ₚ l
    /\ non_decreasing l'.
Proof.
  intros Hh. unfold bubble_sort. unfold bind at 1.
  rewrite (copy_run _ _ _ Hh).
  pose proof (heap_fresh_lookup h l) as Hfresh.
  unfold bind at 1. rewrite (len_run _ _ _ Hfresh).
  unfold bind at 1. rewrite (contents_run _ _ _ Hfresh).
  unfold bind at 1.
  match goal with
  | |- context [bubble_outer _ _ _ ?st _] => set (steps0 := st)
  end.
  destruct (bubble_outer_spec (length h) (length l) 0 l steps0 (h ++ [l]))
    as (l' & steps' & Hrun & Hperm & Hsort).
  - done.
  - lia.
  - rewrite Nat.sub_0_r. apply settled_from_length.
  - rewrite Hrun, heap_fresh_update.
    pose proof (heap_fresh_lookup h l') as Hfresh'.
    unfold bind at 1. rewrite (contents_run _ _ _ Hfresh').
    eexists l', _. split; [done|]. done.
Qed.

End BubbleFacts.

(** ** Selection sort *)

Section SelectionFacts.
Context {A : Type} `{PyOrd A} `{PyFormat A}.
Import Heap SortingAlgorithms.
Local Open Scope nat_scope.

Implicit Types (h : heap A) (l : list A).

(** Every position before [i] holds an element that is at most each
    element after it: the part selection sort has placed. *)
Definition placed_before (i : nat) (l : list A) : Prop :=
  forall p q, p < i -> p <= q -> ordered_at l p q.

Lemma placed_before_length l i :
  length l <= i -> placed_before i l -> non_decreasing l.
Proof.
  intros Hi Hpl p q Hpq x y Hx Hy.
  apply (Hpl p q); [|done|done|done].
  apply lookup_lt_Some in Hx. lia.
Qed.

(** The inner loop only reads, and finds a position of a smallest
    element of [i..n). *)
Lemma selection_inner_spec arr i k : forall j0 l min_idx h,
  h !! arr = Some l ->
  j0 + k = length l ->
  i <= min_idx < j0 ->
  (forall p, i <= p < j0 -> ordered_at l min_idx p) ->
  exists m,
    selection_inner arr (seq j0 k) min_idx h = Some (m, h)
    /\ i <= m < length l
    /\ forall p, i <= p -> ordered_at l m p.
Proof.
  induction k as [|k IH]; intros j0 l min_idx h Hh Hlen Hmin Hleast.
  - exists min_idx. split; [done|]. split; [lia|].
    intros p Hp x y Hx Hy. apply (Hleast p); [|done|done].
    apply lookup_lt_Some in Hy. lia.
  - destruct (lookup_lt_is_Some_2 l j0) as [a Ha]; [lia|].
    destruct (lookup_lt_is_Some_2 l min_idx) as [b Hb]; [lia|].
    simpl seq. simpl selection_inner. unfold bind at 1.
    rewrite (getitem_run _ _ _ _ _ Hh Ha). unfold bind at 1.
    rewrite (getitem_run _ _ _ _ _ Hh Hb).
    destruct (py_ltb a b) eqn:Hab.
    + apply (IH (S j0) l j0 h); [done|lia|lia|].
      intros p Hp x y Hx Hy. rewrite Ha in Hx. injection Hx as <-.
      destruct (decide (p = j0)) as [->|].
      * rewrite Ha in Hy. injection Hy as <-. apply le_refl.
      * eapply lt_le_trans; [exact Hab|].
        apply (Hleast p); [lia|done|done].
    + apply (IH (S j0) l min_idx h); [done|lia|lia|].
      intros p Hp. destruct (decide (p = j0)) as [->|].
      * intros x y Hx Hy. rewrite Hb in Hx. rewrite Ha in Hy.
        injection Hx as <-. injection Hy as <-. exact Hab.
      * apply Hleast. lia.
Qed.

Lemma selection_outer_spec arr c : forall i0 l steps h,
  h !! arr = Some l ->
  i0 + c = length l ->
  placed_before i0 l ->
  exists l' steps',
    selection_outer arr (length l) (seq i0 c) steps h = Some (steps', <[arr := l']> h)
    /\ l' ≡ₚ l
    /\ non_decreasing l'.
Proof.
  induction c as [|c IH]; intros i0 l steps h Hh Hlen Hpl.
  - exists l, steps. rewrite (heap_update_id _ _ _ Hh).
    split; [done|]. split; [done|].
    apply (placed_before_length l i0); [lia|done].
  - simpl seq. simpl selection_outer. unfold bind at 1.
    destruct (selection_inner_spec arr i0 (length l - (i0 + 1)) (i0 + 1) l i0 h)
      as (m & Hrun & Hm & Hleast).
    + done.
    + lia.
    + lia.
    + intros p Hp. replace p with i0 by lia. apply ordered_at_refl.
    + rewrite Hrun. cbv beta iota.
      destruct (lookup_lt_is_Some_2 l i0) as [a Ha]; [lia|].
      destruct (lookup_lt_is_Some_2 l m) as [b Hb]; [lia|].
      destruct (Nat.eqb_spec m i0) as [->|Hne]; unfold negb; cbv iota.
      * unfold bind at 1. rewrite (getitem_run _ _ _ _ _ Hh Ha).
        match goal with
        | |- context [selection_outer _ _ _ ?st _] => set (steps1 := st)
        end.
        apply (IH (S i0) l steps1 h); [done|lia|].
        intros p q Hp Hpq. destruct (decide (p = i0)) as [->|].
        -- by apply Hleast.
        -- apply Hpl; lia.
      * set (l1 := <[m := a]> (<[i0 := b]> l)).
        assert (forall p, l1 !! p = l !! transp i0 m p) as Hl1
          by (intros p; by apply swap_lookup).
        assert (length l1 = length l) as Hlen1
          by (unfold l1; by rewrite !length_insert).
        unfold bind at 1. rewrite (getitem_run _ _ _ _ _ Hh Hb).
        unfold bind at 1. rewrite (getitem_run _ _ _ _ _ Hh Ha).
        unfold bind at 1. rewrite (setitem_run _ _ _ _ _ Hh) by lia.
        unfold bind at 1.
        rewrite (setitem_run _ _ (<[i0 := b]> l)); cycle 1.
        { by eapply heap_update_lookup. }
        { rewrite length_insert. lia. }
        rewrite heap_update_update. fold l1.
        assert (<[arr := l1]> h !! arr = Some l1) as Hh1
          by (by eapply heap_update_lookup).
        assert (l1 !! i0 = Some b) as Hb1.
        { rewrite Hl1. unfold transp. repeat case_decide; try lia; done. }
        assert (l1 !! m = Some a) as Ha1.
        { rewrite Hl1. unfold transp. repeat case_decide; try lia; done. }
        unfold bind at 1. rewrite (getitem_run _ _ _ _ _ Hh1 Hb1).
        unfold bind at 1. rewrite (getitem_run _ _ _ _ _ Hh1 Ha1).
        unfold bind at 1. rewrite (contents_run _ _ _ Hh1).
        match goal with
        | |- context [selection_outer _ _ _ ?st _] => set (steps1 := st)
        end.
        destruct (IH (S i0) l1 steps1 (<[arr := l1]> h))
          as (l' & steps' & Hrun' & Hperm' & Hsort').
        -- done.
        -- lia.
        -- intros p q Hp Hpq x y. rewrite !Hl1.
           destruct (decide (p = i0)) as [->|].
           ++ replace (transp i0 m i0) with m
                by (unfold transp; repeat case_decide; lia).
              apply Hleast. unfold transp. repeat case_decide; lia.
           ++ replace (transp i0 m p) with p
                by (unfold transp; repeat case_decide; lia).
              apply Hpl; [lia|]. unfold transp. repeat case_decide; lia.
        -- exists l', steps'. rewrite Hlen1, heap_update_update in Hrun'.
           split; [done|]. split; [|done].
           rewrite Hperm'. by apply swap_perm.
Qed.

(** [selection_sort] returns a new list object holding a
    non-decreasing arrangement of the elements of [array], and leaves
    every object that existed before as it was. *)
Lemma selection_sort_spec h array l :
  h !! array = Some l ->
  exists l' steps,
    selection_sort array h = Some ((length h, steps), h ++ [l'])
    /\ l' ≡ₚ l
    /\ non_decreasing l'.
Proof.
  intros Hh. unfold selection_sort. unfold bind at 1.
  rewrite (copy_run _ _ _ Hh).
  pose proof (heap_fresh_lookup h l) as Hfresh.
  unfold bind at 1. rewrite (len_run _ _ _ Hfresh).
  unfold bind at 1. rewrite (contents_run _ _ _ Hfresh).
  unfold bind at 1.
  match goal with
  | |- context [selection_outer _ _ _ ?st _] => set (steps0 := st)
  end.
  destruct (selection_outer_spec (length h) (length l) 0 l steps0 (h ++ [l]))
    as (l' & steps' & Hrun & Hperm & Hsort).
  - done.
  - lia.
  - intros p q Hp. lia.
  - rewrite Hrun, heap_fresh_update.
    pose proof (heap_fresh_lookup h l') as Hfresh'.
    unfold bind at 1. rewrite (contents_run _ _ _ Hfresh').
    eexists l', _. split; [done|]. done.
Qed.

End SelectionFacts.

(** ** Insertion sort *)

Section InsertionFacts.
Context {A : Type} `{PyOrd A} `{PyFormat A}.
Import Heap SortingAlgorithms.
Local Open Scope nat_scope.

Implicit Types (h : heap A) (l : list A).

(** The first [i] elements are in order. *)
Definition sorted_prefix (i : nat) (l : list A) : Prop :=
  forall p q, p <= q -> q < i -> ordered_at l p q.

Lemma sorted_prefix_length l i :
  length l <= i -> sorted_prefix i l -> non_decreasing l.
Proof.
  intros Hi Hs p q Hpq x y Hx Hy.
  apply (Hs p q); [done| |done|done].
  apply lookup_lt_Some in Hy. lia.
Qed.

(** The state of the array while the key of position [i] travels
    left: the elements of [l0] at [k..i-1] have moved one place to
    the right, everything else is where it was. *)
Definition shift (k i p : nat) : nat :=
  if decide (k < p /\ p <= i) then p - 1 else p.

Definition shifted (l0 : list A) (i k : nat) (l : list A) : Prop :=
  forall p, l !! p = l0 !! shift k i p.

Lemma insertion_inner_spec arr l0 i key : forall k l steps h,
  h !! arr = Some l ->
  length l = length l0 ->
  k <= i < length l0 ->
  shifted l0 i k l ->
  (forall p x, k <= p < i -> l0 !! p = Some x -> py_ltb key x = true) ->
  exists k' l' steps',
    insertion_inner arr key k steps h = Some ((k', steps'), <[arr := l']> h)
    /\ length l' = length l0
    /\ k' <= i
    /\ shifted l0 i k' l'
    /\ (forall p x, k' <= p < i -> l0 !! p = Some x -> py_ltb key x = true)
    /\ (forall x, 0 < k' -> l0 !! (k' - 1) = Some x -> le x key).
Proof.
  induction k as [|j IH]; intros l steps h Hh Hlen Hk Hshift Hgt.
  - exists 0, l, steps. rewrite (heap_update_id _ _ _ Hh).
    split; [done|]. repeat split; try done; try lia.
  - destruct (lookup_lt_is_Some_2 l j) as [a Ha]; [lia|].
    assert (l0 !! j = Some a) as Ha0.
    { rewrite <- Ha, Hshift. unfold shift. case_decide; [lia|done]. }
    simpl insertion_inner. unfold bind at 1.
    rewrite (getitem_run _ _ _ _ _ Hh Ha).
    unfold py_gtb. destruct (py_ltb key a) eqn:Hka.
    + set (l1 := <[j + 1 := a]> l).
      assert (length l1 = length l0) as Hlen1
        by (unfold l1; by rewrite length_insert).
      assert (shifted l0 i j l1) as Hshift1.
      { intros p. unfold l1. destruct (decide (p = j + 1)) as [->|Hp].
        - rewrite list_lookup_insert_eq by lia.
          unfold shift. rewrite decide_True by lia.
          by replace (j + 1 - 1) with j by lia.
        - rewrite list_lookup_insert_ne by lia. rewrite Hshift.
          unfold shift. repeat case_decide; try lia; done. }
      unfold bind at 1. rewrite (setitem_run _ _ _ _ _ Hh) by lia. fold l1.
      assert (<[arr := l1]> h !! arr = Some l1) as Hh1
        by (by eapply heap_update_lookup).
      assert (l1 !! j = Some a) as Ha1.
      { rewrite Hshift1. unfold shift. case_decide; [lia|done]. }
      unfold bind at 1. rewrite (getitem_run _ _ _ _ _ Hh1 Ha1).
      unfold bind at 1. rewrite (contents_run _ _ _ Hh1).
      match goal with
      | |- context [insertion_inner _ _ _ ?st _] => set (steps1 := st)
      end.
      destruct (IH l1 steps1 (<[arr := l1]> h))
        as (k' & l' & steps' & Hrun & Hlen' & Hk' & Hshift' & Hgt' & Hle').
      * done.
      * done.
      * lia.
      * done.
      * intros p x Hp Hx. destruct (decide (p = j)) as [->|].
        -- rewrite Ha0 in Hx. by injection Hx as <-.
        -- apply (Hgt p); [lia|done].
      * exists k', l', steps'. rewrite heap_update_update in Hrun.
        split; [done|]. repeat split; try done.
    + exists (S j), l, steps. rewrite (heap_update_id _ _ _ Hh).
      split; [done|]. repeat split; try done; try lia.
      intros x _ Hx. replace (S j - 1) with j in Hx by lia.
      rewrite Ha0 in Hx. injection Hx as <-. exact Hka.
Qed.

(** Where the elements of the array come from once the key has been
    put down at [k]. *)
Definition place (k i p : nat) : nat :=
  if decide (p = k) then i else shift k i p.

Lemma place_inj k i : k <= i -> Inj (=) (=) (place k i).
Proof.
  intros Hk p q. unfold place, shift. repeat case_decide; lia.
Qed.

Lemma insertion_outer_spec arr c : forall i0 l steps h,
  h !! arr = Some l ->
  c = 0 \/ i0 + c <= length l ->
  sorted_prefix i0 l ->
  exists l' steps',
    insertion_outer arr (seq i0 c) steps h = Some (steps', <[arr := l']> h)
    /\ l' ≡ₚ l
    /\ sorted_prefix (i0 + c) l'.
Proof.
  induction c as [|c IH]; intros i0 l steps h Hh Hlen Hsort.
  - exists l, steps. rewrite (heap_update_id _ _ _ Hh).
    split; [done|]. split; [done|]. by rewrite Nat.add_0_r.
  - destruct Hlen as [|Hlen]; [done|].
    destruct (lookup_lt_is_Some_2 l i0) as [key Hkey]; [lia|].
    simpl seq. simpl insertion_outer. unfold bind at 1.
    rewrite (getitem_run _ _ _ _ _ Hh Hkey). unfold bind at 1.
    match goal with
    | |- context [insertion_inner _ _ _ ?st _] => set (steps0 := st)
    end.
    destruct (insertion_inner_spec arr l i0 key i0 l steps0 h)
      as (k & l1 & steps1 & Hrun & Hlen1 & Hk & Hshift & Hgt & Hle).
    + done.
    + done.
    + lia.
    + intros p. unfold shift. case_decide; [lia|done].
    + intros p x Hp. lia.
    + rewrite Hrun. cbv beta iota.
      assert (<[arr := l1]> h !! arr = Some l1) as Hh1
        by (by eapply heap_update_lookup).
      unfold bind at 1. rewrite (setitem_run _ _ _ _ _ Hh1) by lia.
      rewrite heap_update_update.
      set (l2 := <[k := key]> l1).
      assert (forall p, l2 !! p = l !! place k i0 p) as Hl2.
      { intros p. unfold l2, place. destruct (decide (p = k)) as [->|Hp].
        - rewrite list_lookup_insert_eq by lia. done.
        - rewrite list_lookup_insert_ne by done. apply Hshift. }
      assert (length l2 = length l) as Hlen2
        by (unfold l2; by rewrite length_insert).
      assert (l2 ≡ₚ l) as Hperm2.
      { apply Permutation_inj. split; [done|].
        exists (place k i0). split; [by apply place_inj|done]. }
      assert (sorted_prefix (S i0) l2) as Hsort2.
      { intros p q Hpq Hq x y. rewrite !Hl2. unfold place, shift.
        destruct (decide (q = k)) as [->|Hqk].
        - rewrite Hkey. destruct (decide (p = k)) as [->|Hpk].
          + rewrite Hkey. intros [= <-] [= <-]. apply le_refl.
          + rewrite decide_False by lia. intros Hx [= <-].
            destruct (lookup_lt_is_Some_2 l (k - 1)) as [z Hz]; [lia|].
            eapply le_trans; [|apply (Hle z); [lia|done]].
            apply (Hsort p (k - 1)); [lia|lia|done|done].
        - destruct (decide (k < q /\ q <= i0)) as [Hq'|Hq'].
          + intros Hx Hy.
            assert (py_ltb key y = true) as Hky by (apply (Hgt (q - 1)); [lia|done]).
            destruct (decide (p = k)) as [->|Hpk].
            * rewrite Hkey in Hx. injection Hx as <-. by apply lt_le.
            * destruct (decide (k < p /\ p <= i0)).
              -- apply (Hsort (p - 1) (q - 1)); [lia|lia|done|done].
              -- apply (Hsort p (q - 1)); [lia|lia|done|done].
          + rewrite decide_False by lia. rewrite decide_False by lia.
            apply Hsort; lia. }
      destruct (Nat.eqb_spec k i0) as [Heq|Hne]; unfold negb; cbv iota.
      * match goal with
        | |- context [insertion_outer _ _ ?st _] => set (steps2 := st)
        end.
        destruct (IH (S i0) l2 steps2 (<[arr := l2]> h))
          as (l' & steps' & Hrun' & Hperm' & Hsort').
        -- by eapply heap_update_lookup.
        -- right. lia.
        -- done.
        -- exists l', steps'. rewrite heap_update_update in Hrun'.
           split; [done|]. split; [by rewrite Hperm'|].
           by replace (i0 + S c) with (S i0 + c) by lia.
      * assert (<[arr := l2]> h !! arr = Some l2) as Hh2
          by (by eapply heap_update_lookup).
        unfold bind at 1. rewrite (contents_run _ _ _ Hh2).
        match goal with
        | |- context [insertion_outer _ _ ?st _] => set (steps2 := st)
        end.
        destruct (IH (S i0) l2 steps2 (<[arr := l2]> h))
          as (l' & steps' & Hrun' & Hperm' & Hsort').
        -- done.
        -- right. lia.
        -- done.
        -- exists l', steps'. rewrite heap_update_update in Hrun'.
           split; [done|]. split; [by rewrite Hperm'|].
           by replace (i0 + S c) with (S i0 + c) by lia.
Qed.

(** [insertion_sort] returns a new list object holding a
    non-decreasing arrangement of the elements of [array], and leaves
    every object that existed before as it was. *)
Lemma insertion_sort_spec h array l :
  h !! array = Some l ->
  exists l' steps,
    insertion_sort array h = Some ((length h, steps), h ++ [l'])
    /\ l' ≡ₚ l
    /\ non_decreasing l'.
Proof.
  intros Hh. unfold insertion_sort. unfold bind at 1.
  rewrite (copy_run _ _ _ Hh).
  pose proof (heap_fresh_lookup h l) as Hfresh.
  unfold bind at 1. rewrite (len_run _ _ _ Hfresh).
  unfold bind at 1. rewrite (contents_run _ _ _ Hfresh).
  unfold bind at 1.
  match goal with
  | |- context [insertion_outer _ _ ?st _] => set (steps0 := st)
  end.
  destruct (insertion_outer_spec (length h) (length l - 1) 1 l steps0 (h ++ [l]))
    as (l' & steps' & Hrun & Hperm & Hsort).
  - done.
  - destruct (length l); [left|right]; lia.
  - intros p q Hpq Hq. replace p with 0 by lia. replace q with 0 by lia.
    apply ordered_at_refl.
  - rewrite Hrun, heap_fresh_update.
    pose proof (heap_fresh_lookup h l') as Hfresh'.
    unfold bind at 1. rewrite (contents_run _ _ _ Hfresh').
    eexists l', _. split; [done|]. split; [done|].
    apply (sorted_prefix_length l' (1 + (length l - 1))); [|done].
    apply Permutation_length in Hperm. lia.
Qed.

End InsertionFacts.

(** ** Searching *)

Section SearchFacts.
Context {A : Type} `{PyOrd A} `{PyFormat A}.
Import Heap SearchingAlgorithms.

Implicit Types (h : heap A) (l : list A).

Lemma py_eqb_refl (x : A) : py_eqb x x = true.
Proof. by apply py_eqb_eq. Qed.

Lemma py_eqb_neq (x y : A) : x <> y -> py_eqb x y = false.
Proof.
  intros Hne. destruct (py_eqb x y) eqn:Heq; [|done].
  by apply py_eqb_eq in Heq.
Qed.

(** A target that is absent costs one line per element and the
    failure line. *)
Lemma linear_loop_absent l : forall i target steps,
  target ∉ l ->
  exists steps',
    linear_loop (enumerate_from i l) target steps = (-1, steps')
    /\ last steps' = Some not_found_line
    /\ length steps' = (length steps + length l + 1)%nat.
Proof.
  induction l as [|x l IH]; intros i target steps Hnot.
  - exists (steps ++ [not_found_line]). split; [done|].
    split; [apply last_snoc|].
    rewrite length_app. simpl. lia.
  - apply not_elem_of_cons in Hnot as [Hne Hnot].
    simpl. rewrite py_eqb_neq by done.
    match goal with
    | |- context [linear_loop _ _ ?st] => set (steps1 := st)
    end.
    destruct (IH (S i) target steps1 Hnot) as (steps' & Hrun & Hlast & Hlen).
    exists steps'. split; [done|]. split; [done|].
    rewrite Hlen. unfold steps1. rewrite length_app. simpl. lia.
Qed.

(** A target that is present is reported at its first position. *)
Lemma linear_loop_first l : forall i k target steps,
  l !! k = Some target ->
  (forall j, (j < k)%nat -> l !! j <> Some target) ->
  exists steps',
    linear_loop (enumerate_from i l) target steps = (Z.of_nat (i + k), steps').
Proof.
  induction l as [|x l IH]; intros i k target steps Hk Hfirst; [done|].
  destruct k as [|k].
  - injection Hk as ->. simpl. rewrite py_eqb_refl.
    rewrite Nat.add_0_r. eauto.
  - simpl. rewrite py_eqb_neq.
    + match goal with
      | |- context [linear_loop _ _ ?st] => set (steps1 := st)
      end.
      destruct (IH (S i) k target steps1) as (steps' & Hrun).
      * done.
      * intros j Hj. apply (Hfirst (S j)). lia.
      * exists steps'. rewrite Hrun. do 2 f_equal. lia.
    + intros ->. by apply (Hfirst 0%nat); [lia|].
Qed.

Lemma first_occurrence l (target : A) :
  target ∈ l ->
  exists k, l !! k = Some target /\ forall j, (j < k)%nat -> l !! j <> Some target.
Proof.
  induction l as [|x l IH]; intros Hin; [by apply elem_of_nil in Hin|].
  destruct (py_eqb x target) eqn:Heq.
  - apply py_eqb_eq in Heq as ->. exists 0%nat. split; [done|]. intros j Hj. lia.
  - apply elem_of_cons in Hin as [->|Hin]; [by rewrite py_eqb_refl in Heq|].
    destruct (IH Hin) as (k & Hk & Hfirst). exists (S k). split; [done|].
    intros [|j] Hj; simpl.
    + intros [= ->]. by rewrite py_eqb_refl in Heq.
    + apply Hfirst. lia.
Qed.

Lemma getitem_int_local h array l i :
  h !! array = Some l ->
  getitem_int array i h =
    match position (length l) i with
    | Some k => match l !! k with Some x => Some (x, h) | None => None end
    | None => None
    end.
Proof.
  intros Hh. unfold getitem_int, getitem. rewrite Hh.
  by destruct (position (length l) i).
Qed.

(** The outcome of the bisection depends on the heap only through the
    contents of [array], and the heap comes back as it was. *)
Lemma binary_loop_local array target left_ right_ step_num steps h :
  forall l,
  h !! array = Some l ->
  binary_loop array target left_ right_ step_num steps h =
    match binary_loop 0%nat target left_ right_ step_num steps [l] with
    | Some (r, _) => Some (r, h)
    | None => None
    end.
Proof.
  funelim (binary_loop array target left_ right_ step_num steps h);
    intros l0 Hh.
  all: rewrite (binary_loop_equation_1 0%nat).
  all: unfold binary_loop_unfold_clause_1. 
  all: destruct (Z_le_dec left_ right_); try lia.
  - done.
  - match goal with
    | Hget : getitem_int _ _ _ = Some _ |- _ =>
        rewrite (getitem_int_local _ _ _ _ Hh) in Hget;
        rewrite (getitem_int_local [l0] 0%nat l0) by done;
        destruct (position (length l0) ((left_ + right_) / 2)) as [k|]; [|done];
        destruct (l0 !! k) as [x|]; [|done];
        injection Hget as -> ->
    end.
    unfold binary_loop_unfold_clause_1_clause_2.
    destruct (py_eqb mid_value target); [done|].
    destruct (py_ltb mid_value target); auto.
  - match goal with
    | Hget : getitem_int _ _ _ = None |- _ =>
        rewrite (getitem_int_local _ _ _ _ Hh) in Hget;
        rewrite (getitem_int_local [l0] 0%nat l0) by done;
        destruct (position (length l0) ((left_ + right_) / 2)) as [k|]; [|done];
        destruct (l0 !! k) as [x|]; done
    end.
Qed.

Lemma position_in_range (n : nat) (i : Z) :
  0 <= i < Z.of_nat n -> position n i = Some (Z.to_nat i).
Proof.
  intros Hi. unfold position.
  rewrite (proj2 (Z.leb_le 0 i)) by lia.
  by rewrite (proj2 (Z.ltb_lt i (Z.of_nat n))) by lia.
Qed.

(** Within the bounds of the array the bisection never raises. *)
Lemma binary_loop_total array target left_ right_ step_num steps h :
  forall l,
  h !! array = Some l ->
  0 <= left_ ->
  right_ < Z.of_nat (length l) ->
  exists r, binary_loop array target left_ right_ step_num steps h = Some (r, h).
Proof.
  funelim (binary_loop array target left_ right_ step_num steps h);
    intros l0 Hh Hleft Hright.
  - eauto.
  - match goal with
    | Hget : getitem_int _ _ _ = Some _ |- _ =>
        rewrite (getitem_int_local _ _ _ _ Hh) in Hget;
        destruct (position (length l0) ((left_ + right_) / 2)) as [k|]; [|done];
        destruct (l0 !! k) as [x|]; [|done];
        injection Hget as -> ->
    end.
    cbv zeta.
    destruct (py_eqb mid_value target); [eauto|].
    destruct (py_ltb mid_value target).
    + match goal with
      | IH : context [binary_loop _ _ (_ + 1) _ _ _ _] |- _ => apply (IH l0)
      end; [done| |done].
      Z.div_mod_to_equations; lia.
    + match goal with
      | IH : context [binary_loop _ _ _ (_ - 1) _ _ _] |- _ => apply (IH l0)
      end; [done|done|].
      Z.div_mod_to_equations; lia.
  - match goal with
    | Hget : getitem_int _ _ _ = None |- _ =>
        rewrite (getitem_int_local _ _ _ _ Hh) in Hget;
        rewrite position_in_range in Hget by (Z.div_mod_to_equations; lia)
    end.
    destruct (lookup_lt_is_Some_2 l0 (Z.to_nat ((left_ + right_) / 2))) as [x Hx].
    + apply Nat2Z.inj_lt. rewrite Z2Nat.id by (Z.div_mod_to_equations; lia).
      Z.div_mod_to_equations; lia.
    + match goal with
      | Hget : match _ with Some _ => _ | None => _ end = None |- _ =>
          by rewrite Hx in Hget
      end.
Qed.

Lemma linear_search_run h array l target :
  h !! array = Some l ->
  linear_search array target h = Some (linear_loop (enumerate l) target [], h).
Proof.
  intros Hh. unfold linear_search, bind. by rewrite (contents_run _ _ _ Hh).
Qed.

Lemma binary_search_run h array l target :
  h !! array = Some l ->
  exists r,
    binary_search array target h = Some (r, h)
    /\ binary_search 0%nat target [l] = Some (r, [l]).
Proof.
  intros Hh. unfold binary_search, bind.
  rewrite (len_run _ _ _ Hh), (len_run [l] 0%nat l) by done.
  destruct (binary_loop_total 0%nat target 0 (Z.of_nat (length l) - 1) 1 [] [l] l)
    as [r Hr]; [done|lia|lia|].
  exists r. rewrite (binary_loop_local _ _ _ _ _ _ _ l Hh), Hr. done.
Qed.

End SearchFacts.

(** ** Strings as character lists *)

Section StringFacts.

Lemma append_cons (c : ascii) (s t : string) :
  String c s +:+ t = String c (s +:+ t).
Proof. reflexivity. Qed.

Lemma append_nil_l (s : string) : "" +:+ s = s.
Proof. reflexivity. Qed.

Lemma append_nil_r (s : string) : s +:+ "" = s.
Proof. induction s as [|c s IH]; [done|]. by rewrite append_cons, IH. Qed.

Lemma append_assoc (s1 s2 s3 : string) : (s1 +:+ s2) +:+ s3 = s1 +:+ (s2 +:+ s3).
Proof.
  induction s1 as [|c s1 IH]; [done|]. by rewrite !append_cons, IH.
Qed.

Lemma list_of_append (s1 s2 : string) :
  list_ascii_of_string (s1 +:+ s2)
    = list_ascii_of_string s1 ++ list_ascii_of_string s2.
Proof.
  induction s1 as [|c s1 IH]; [done|]. rewrite append_cons. simpl. by rewrite IH.
Qed.

Lemma string_of_snoc (cs : list ascii) (c : ascii) :
  string_of_list_ascii (cs ++ [c]) = string_of_list_ascii cs +:+ String c "".
Proof.
  induction cs as [|d cs IH]; [done|]. simpl. by rewrite append_cons, IH.
Qed.

Lemma length_append (s1 s2 : string) :
  String.length (s1 +:+ s2) = (String.length s1 + String.length s2)%nat.
Proof.
  induction s1 as [|c s1 IH]; [done|]. rewrite append_cons. simpl. by rewrite IH.
Qed.

Lemma length_list (s : string) :
  length (list_ascii_of_string s) = String.length s.
Proof. induction s as [|c s IH]; [done|]. simpl. by rewrite IH. Qed.

End StringFacts.

(** ** Positional notation in a base *)

Section Radix.
Variable base : Z.
Variable Hbase : (1 <? base) = true.
(** The digit the rendering loop writes for a remainder, the value
    the parsing loop gives a character, and the alphabet test. *)
Variable digit : Z -> string.
Variable value : ascii -> Z.
Variable valid : ascii -> bool.

Hypothesis valid_value : forall c,
  valid c = true -> 0 <= value c < base /\ digit (value c) = String c "".
Hypothesis digit_valid : forall d,
  0 <= d < base -> exists c, digit d = String c "" /\ valid c = true /\ value c = d.
Hypothesis zero_char : forall c,
  valid c = true -> (value c = 0 <-> c = "0"%char).

Let base_gt_1 : 1 < base.
Proof. by apply Z.ltb_lt. Qed.

(** The number a digit sequence denotes, most significant digit
    first. *)
Fixpoint value_of (cs : list ascii) : Z :=
  match cs with
  | [] => 0
  | c :: r => value c * base ^ Z.of_nat (length r) + value_of r
  end.

(** The sum the parsing loops accumulate: the digit at offset [k]
    weighs [base ^ (i + k)]. *)
Fixpoint pos_sum (cs : list ascii) (i : Z) : Z :=
  match cs with
  | [] => 0
  | c :: r => value c * base ^ i + pos_sum r (i + 1)
  end.

Fixpoint strip_zeros (cs : list ascii) : list ascii :=
  match cs with
  | [] => []
  | c :: r => if Ascii.eqb c "0" then strip_zeros r else cs
  end.

Lemma value_of_snoc cs c : value_of (cs ++ [c]) = value_of cs * base + value c.
Proof.
  induction cs as [|d cs IH]; simpl.
  - lia.
  - rewrite IH, length_app. simpl length.
    replace (Z.of_nat (length cs + 1)) with (Z.succ (Z.of_nat (length cs))) by lia.
    rewrite Z.pow_succ_r by lia. lia.
Qed.

Lemma pos_sum_snoc cs c i :
  0 <= i ->
  pos_sum (cs ++ [c]) i = pos_sum cs i + value c * base ^ (i + Z.of_nat (length cs)).
Proof.
  revert i. induction cs as [|d cs IH]; intros i Hi.
  - simpl. replace (i + Z.of_nat 0) with i by lia. lia.
  - change (pos_sum ((d :: cs) ++ [c]) i)
      with (value d * base ^ i + pos_sum (cs ++ [c]) (i + 1)).
    change (pos_sum (d :: cs) i) with (value d * base ^ i + pos_sum cs (i + 1)).
    rewrite IH by lia.
    change (length (d :: cs)) with (S (length cs)). rewrite Nat2Z.inj_succ.
    replace (i + 1 + Z.of_nat (length cs)) with (i + Z.succ (Z.of_nat (length cs))) by lia.
    lia.
Qed.

Lemma pos_sum_rev cs : pos_sum (rev cs) 0 = value_of cs.
Proof.
  induction cs as [|c cs IH]; [done|]. simpl rev.
  rewrite pos_sum_snoc by lia. rewrite IH, length_rev. simpl value_of.
  rewrite Z.add_0_l. lia.
Qed.

Lemma value_of_nonneg cs : Forall (fun c => valid c = true) cs -> 0 <= value_of cs.
Proof.
  induction 1 as [|c cs Hc _ IH]; simpl; [lia|].
  destruct (valid_value c Hc) as [Hv _].
  assert (0 <= base ^ Z.of_nat (length cs)) by (apply Z.pow_nonneg; lia).
  nia.
Qed.

Lemma strip_zeros_nil cs :
  Forall (fun c => valid c = true) cs ->
  (strip_zeros cs = [] <-> value_of cs = 0).
Proof.
  induction 1 as [|c cs Hc Hcs IH]; simpl; [done|].
  destruct (valid_value c Hc) as [Hv _].
  destruct (Ascii.eqb_spec c "0") as [->|Hne].
  - rewrite (proj2 (zero_char _ Hc)) by done. rewrite IH. lia.
  - assert (value c <> 0) by (by rewrite zero_char).
    assert (0 < base ^ Z.of_nat (length cs)) by (apply Z.pow_pos_nonneg; lia).
    pose proof (value_of_nonneg cs Hcs).
    split; [done|]. nia.
Qed.

Lemma strip_zeros_snoc cs c :
  strip_zeros (cs ++ [c]) =
    match strip_zeros cs with
    | [] => strip_zeros [c]
    | r => r ++ [c]
    end.
Proof.
  induction cs as [|d cs IH]; [done|]. simpl.
  destruct (Ascii.eqb d "0"); [exact IH|done].
Qed.

(** One turn of the rendering loop. *)
Lemma digits_loop_pos num acc :
  0 < num ->
  PyStr.digits_loop base Hbase digit num acc
    = PyStr.digits_loop base Hbase digit (num / base) (digit (num mod base) +:+ acc).
Proof.
  intros Hnum. rewrite PyStr.digits_loop_equation_1.
  unfold PyStr.digits_loop_unfold_clause_1.
  destruct (Z_gt_dec num 0); [done|lia].
Qed.

Lemma digits_loop_nonpos num acc :
  num <= 0 -> PyStr.digits_loop base Hbase digit num acc = acc.
Proof.
  intros Hnum. rewrite PyStr.digits_loop_equation_1.
  unfold PyStr.digits_loop_unfold_clause_1.
  destruct (Z_gt_dec num 0); [lia|done].
Qed.

Lemma digits_loop_acc num : 0 <= num -> forall acc,
  PyStr.digits_loop base Hbase digit num acc
    = PyStr.digits_loop base Hbase digit num "" +:+ acc.
Proof.
  revert num. apply (Z_lt_induction (fun num => forall acc, _ = _)).
  intros num IH acc. destruct (Z_gt_dec num 0) as [Hpos|Hnonpos].
  - rewrite (digits_loop_pos num acc), (digits_loop_pos num "") by lia.
    assert (0 <= num / base < num) as Hdiv.
    { split; [apply Z.div_pos; lia|apply Z.div_lt; lia]. }
    rewrite (IH _ Hdiv (digit (num mod base) +:+ acc)).
    rewrite (IH _ Hdiv (digit (num mod base) +:+ "")).
    by rewrite append_nil_r, append_assoc.
  - by rewrite !digits_loop_nonpos by lia.
Qed.

Lemma digits_loop_snoc num :
  0 < num ->
  PyStr.digits_loop base Hbase digit num ""
    = PyStr.digits_loop base Hbase digit (num / base) "" +:+ digit (num mod base).
Proof.
  intros Hnum. rewrite digits_loop_pos by done.
  rewrite digits_loop_acc by (apply Z.div_pos; lia).
  by rewrite append_nil_r.
Qed.

(** The digits written for [num] are in the alphabet and denote
    [num]. *)
Lemma digits_loop_value num :
  0 <= num ->
  let cs := list_ascii_of_string (PyStr.digits_loop base Hbase digit num "") in
  Forall (fun c => valid c = true) cs /\ value_of cs = num.
Proof.
  revert num. apply (Zlt_0_ind (fun num => _ /\ _)).
  intros num IH Hnum. destruct (Z_gt_dec num 0) as [Hpos|Hnonpos].
  - rewrite digits_loop_snoc by lia.
    assert (0 <= num / base < num) as Hdiv.
    { split; [apply Z.div_pos; lia|apply Z.div_lt; lia]. }
    destruct (IH _ Hdiv) as [Hvalid Hvalue].
    destruct (digit_valid (num mod base)) as (c & Hc & Hvc & Hval).
    { apply Z.mod_pos_bound. lia. }
    rewrite Hc, list_of_append. simpl list_ascii_of_string. split.
    + apply Forall_app. split; [done|by constructor].
    + rewrite value_of_snoc, Hvalue, Hval.
      pose proof (Z.div_mod num base ltac:(lia)). lia.
  - rewrite digits_loop_nonpos by lia. simpl. split; [constructor|].
    assert (num = 0) by lia. by subst.
Qed.

(** A sequence of [k] digits denotes a number below [base ^ k]. *)
Lemma value_of_bound cs :
  Forall (fun c => valid c = true) cs ->
  value_of cs < base ^ Z.of_nat (length cs).
Proof.
  induction 1 as [|c cs Hc Hcs IH]; [done|].
  destruct (valid_value c Hc) as [Hv _].
  pose proof (value_of_nonneg cs Hcs) as Hnonneg.
  change (value_of (c :: cs))
    with (value c * base ^ Z.of_nat (length cs) + value_of cs).
  change (length (c :: cs)) with (S (length cs)).
  rewrite Nat2Z.inj_succ, Z.pow_succ_r by lia. nia.
Qed.

(** The loop writes one character for each digit of [num]: at most
    [k] of them exactly when [num] is below [base ^ k]. *)
Lemma digits_loop_length num :
  0 <= num ->
  forall k, 0 <= k ->
    Z.of_nat (String.length (PyStr.digits_loop base Hbase digit num "")) <= k
    <-> num < base ^ k.
Proof.
  revert num. apply (Zlt_0_ind (fun num => forall k, 0 <= k -> _ <-> _)).
  intros num IH Hnum k Hk. destruct (Z_gt_dec num 0) as [Hpos|Hnonpos].
  - rewrite digits_loop_snoc by lia.
    destruct (digit_valid (num mod base)) as (c & Hc & _ & _).
    { apply Z.mod_pos_bound. lia. }
    rewrite Hc, length_append. cbn [String.length].
    assert (0 <= num / base < num) as Hdiv.
    { split; [apply Z.div_pos; lia|apply Z.div_lt; lia]. }
    destruct (Z.eq_dec k 0) as [->|Hk0].
    + rewrite Z.pow_0_r. lia.
    + specialize (IH _ Hdiv (k - 1) ltac:(lia)).
      replace k with (Z.succ (k - 1)) at 2 by lia.
      rewrite Z.pow_succ_r by lia.
      pose proof (Z.div_mod num base ltac:(lia)) as Hnum_eq.
      pose proof (Z.mod_pos_bound num base ltac:(lia)) as Hmod.
      split; intros Hle.
      * assert (num / base < base ^ (k - 1)) by (apply IH; lia). nia.
      * assert (num / base < base ^ (k - 1)) as Hlt
          by (apply Z.div_lt_upper_bound; lia).
        apply IH in Hlt. lia.
  - rewrite digits_loop_nonpos by lia. cbn [String.length].
    assert (0 < base ^ k) by (apply Z.pow_pos_nonneg; lia). lia.
Qed.

(** Rendering the number a digit sequence denotes gives the sequence
    back without its leading zeros. *)
Lemma digits_loop_of_value cs :
  Forall (fun c => valid c = true) cs ->
  PyStr.digits_loop base Hbase digit (value_of cs) ""
    = string_of_list_ascii (strip_zeros cs).
Proof.
  induction cs as [|c cs IH] using rev_ind; intros Hvalid.
  - simpl. by rewrite digits_loop_nonpos.
  - apply Forall_app in Hvalid as [Hcs Hc]. apply Forall_inv in Hc.
    destruct (valid_value c Hc) as [Hv Hd].
    pose proof (value_of_nonneg cs Hcs) as Hnonneg.
    rewrite value_of_snoc, strip_zeros_snoc.
    destruct (Z.eq_dec (value_of cs) 0) as [Hzero|Hnonzero].
    + rewrite (proj2 (strip_zeros_nil cs Hcs) Hzero), Hzero.
      replace (0 * base + value c) with (value c) by lia. simpl.
      destruct (Ascii.eqb_spec c "0") as [->|Hne].
      * rewrite (proj2 (zero_char _ Hc)) by done. by rewrite digits_loop_nonpos.
      * assert (value c <> 0) by (by rewrite zero_char).
        rewrite digits_loop_snoc by lia.
        rewrite Z.div_small, Z.mod_small by lia.
        by rewrite digits_loop_nonpos, Hd by lia.
    + assert (strip_zeros cs <> []) as Hne by (by rewrite strip_zeros_nil).
      rewrite digits_loop_snoc by nia.
      replace ((value_of cs * base + value c) / base) with (value_of cs)
        by (rewrite Z.div_add_l, Z.div_small by lia; lia).
      replace ((value_of cs * base + value c) mod base) with (value c)
        by (rewrite Z.add_comm, Z_mod_plus_full, Z.mod_small by lia; lia).
      rewrite IH, Hd by done.
      destruct (strip_zeros cs) as [|d r] eqn:Hs; [done|].
      by rewrite string_of_snoc.
Qed.

(** The parsing loops, through the two equations each of them
    satisfies. *)
Variable loop : list ascii -> Z -> Z -> result Z.
Variable invalid : ascii -> error.

Hypothesis loop_nil : forall i acc, loop [] i acc = Ok acc.
Hypothesis loop_cons : forall c r i acc,
  loop (c :: r) i acc =
    if valid c then loop r (i + 1) (acc + value c * base ^ i)
    else Raise (invalid c).

Lemma loop_valid cs : forall i acc,
  Forall (fun c => valid c = true) cs ->
  loop cs i acc = Ok (acc + pos_sum cs i).
Proof.
  induction cs as [|c cs IH]; intros i acc Hvalid.
  - rewrite loop_nil. simpl. f_equal. lia.
  - apply Forall_cons in Hvalid as [Hc Hcs].
    rewrite loop_cons, Hc, IH by done. simpl. f_equal. lia.
Qed.

Lemma loop_invalid cs : forall i acc,
  Exists (fun c => valid c = false) cs ->
  exists e, loop cs i acc = Raise e.
Proof.
  induction cs as [|c cs IH]; intros i acc Hex.
  - by apply Exists_nil in Hex.
  - rewrite loop_cons. destruct (valid c) eqn:Hc; [|eauto].
    apply IH. apply Exists_cons in Hex as [Hex|Hex]; [congruence|done].
Qed.

Lemma loop_reversed (s : string) :
  Forall (fun c => valid c = true) (list_ascii_of_string s) ->
  loop (PyStr.reversed s) 0 0 = Ok (value_of (list_ascii_of_string s)).
Proof.
  intros Hvalid. unfold PyStr.reversed.
  rewrite loop_valid by (by apply Forall_rev).
  by rewrite pos_sum_rev.
Qed.

(** The shape shared by [str] and the three [decimal_to_*]
    functions, and the shape shared by the three [*_to_decimal]
    functions once the literal has been cleaned. *)
Definition render (decimal : Z) : string :=
  if decimal =? 0 then "0"
  else
    let digits := PyStr.digits_loop base Hbase digit (Z.abs decimal) "" in
    if decimal >=? 0 then digits else "-" +:+ digits.

Definition parse (s : string) : result Z :=
  let '(sign, s) :=
    if PyStr.starts_with_minus s then (-1, PyStr.tail s) else (1, s) in
  decimal ← loop (PyStr.reversed s) 0 0;
  Ok (sign * decimal).

Hypothesis valid_not_minus : forall c, valid c = true -> c <> "-"%char.

Lemma valid_zero : valid "0" = true /\ value "0" = 0.
Proof.
  destruct (digit_valid 0) as (c & _ & Hc & Hv); [lia|].
  assert (c = "0"%char) as -> by (by apply zero_char).
  done.
Qed.

Lemma valid_no_minus (s : string) :
  Forall (fun c => valid c = true) (list_ascii_of_string s) ->
  PyStr.starts_with_minus s = false.
Proof.
  destruct s as [|c s]; [done|]. intros Hvalid.
  apply Forall_inv in Hvalid. apply valid_not_minus in Hvalid.
  unfold PyStr.starts_with_minus.
  destruct c as [[] [] [] [] [] [] [] []]; done.
Qed.

Lemma parse_digits (s : string) :
  Forall (fun c => valid c = true) (list_ascii_of_string s) ->
  parse s = Ok (value_of (list_ascii_of_string s)).
Proof.
  intros Hvalid. unfold parse. rewrite valid_no_minus by done.
  rewrite loop_reversed by done. simpl; f_equal; lia.
Qed.

Lemma parse_minus_digits (s : string) :
  Forall (fun c => valid c = true) (list_ascii_of_string s) ->
  parse (String "-" s) = Ok (- value_of (list_ascii_of_string s)).
Proof.
  intros Hvalid. unfold parse. simpl PyStr.starts_with_minus. cbv iota.
  simpl PyStr.tail. rewrite loop_reversed by done. simpl; f_equal; lia.
Qed.

(** Reading back what was written. *)
Lemma parse_render (decimal : Z) : parse (render decimal) = Ok decimal.
Proof.
  unfold render. destruct (Z.eqb_spec decimal 0) as [->|Hne].
  - rewrite parse_digits.
    + simpl. destruct valid_zero as [_ ->]. done.
    + simpl. constructor; [apply valid_zero|constructor].
  - destruct (digits_loop_value (Z.abs decimal)) as [Hvalid Hvalue]; [lia|].
    destruct (Z.geb_spec decimal 0).
    + rewrite parse_digits by done. rewrite Hvalue. f_equal. lia.
    + change ("-" +:+ ?s) with (String "-" s).
      rewrite parse_minus_digits by done. rewrite Hvalue. f_equal. lia.
Qed.

(** Writing what was read: the digits without their leading zeros,
    ["0"] when nothing is left, and the sign unless the value is 0. *)
Lemma render_value cs :
  Forall (fun c => valid c = true) cs ->
  render (value_of cs) =
    match strip_zeros cs with
    | [] => "0"
    | r => string_of_list_ascii r
    end.
Proof.
  intros Hvalid. unfold render.
  pose proof (value_of_nonneg cs Hvalid) as Hnonneg.
  destruct (Z.eqb_spec (value_of cs) 0) as [Hzero|Hne].
  - by rewrite (proj2 (strip_zeros_nil cs Hvalid) Hzero).
  - rewrite (proj2 (Z.geb_le _ _)) by lia.
    rewrite Z.abs_eq by lia. rewrite digits_loop_of_value by done.
    destruct (strip_zeros cs) eqn:Hs; [|done].
    by apply strip_zeros_nil in Hs.
Qed.

Lemma render_minus_value cs :
  Forall (fun c => valid c = true) cs ->
  render (- value_of cs) =
    match strip_zeros cs with
    | [] => "0"
    | r => "-" +:+ string_of_list_ascii r
    end.
Proof.
  intros Hvalid. unfold render.
  pose proof (value_of_nonneg cs Hvalid) as Hnonneg.
  destruct (Z.eqb_spec (- value_of cs) 0) as [Hzero|Hne].
  - by rewrite (proj2 (strip_zeros_nil cs Hvalid)) by lia.
  - destruct (Z.geb_spec (- value_of cs) 0); [lia|].
    rewrite Z.abs_neq, Z.opp_involutive by lia.
    rewrite digits_loop_of_value by done.
    destruct (strip_zeros cs) eqn:Hs; [|done].
    apply strip_zeros_nil in Hs; [lia|done].
Qed.

(** A first character outside the alphabet, other than the sign, makes
    the parsing loop raise. *)
Lemma parse_invalid_first (c : ascii) (t : string) :
  valid c = false ->
  c <> "-"%char ->
  exists e, parse (String c t) = Raise e.
Proof.
  intros Hc Hminus. unfold parse.
  assert (PyStr.starts_with_minus (String c t) = false) as ->.
  { unfold PyStr.starts_with_minus.
    destruct c as [[] [] [] [] [] [] [] []]; done. }
  destruct (loop_invalid (PyStr.reversed (String c t)) 0 0) as [e He].
  - unfold PyStr.reversed. simpl. apply Exists_app. right. by constructor.
  - exists e. by rewrite He.
Qed.

Lemma render_chars (decimal : Z) :
  Forall (fun c => valid c = true \/ c = "-"%char)
    (list_ascii_of_string (render decimal)).
Proof.
  unfold render. destruct (Z.eqb_spec decimal 0) as [->|Hne].
  - simpl. constructor; [left; apply valid_zero|constructor].
  - destruct (digits_loop_value (Z.abs decimal)) as [Hvalid _]; [lia|].
    assert (Forall (fun c => valid c = true \/ c = "-"%char)
              (list_ascii_of_string
                 (PyStr.digits_loop base Hbase digit (Z.abs decimal) ""))) as Hall.
    { eapply Forall_impl; [exact Hvalid|]. by left. }
    destruct (decimal >=? 0); [done|].
    change ("-" +:+ ?s) with (String "-" s). simpl.
    constructor; [by right|done].
Qed.

Lemma strip_zeros_string (s : string) :
  Literal.strip_leading_zeros s
    = string_of_list_ascii (strip_zeros (list_ascii_of_string s)).
Proof.
  induction s as [|c s IH]; [done|]. simpl.
  destruct (Ascii.eqb c "0"); [done|].
  simpl. by rewrite string_of_list_ascii_of_string.
Qed.

(** The integer a literal denotes. *)
Definition literal_value (U : string) : Z :=
  if PyStr.starts_with_minus U
  then - value_of (list_ascii_of_string (Literal.digits U))
  else value_of (list_ascii_of_string (Literal.digits U)).

Lemma starts_with_minus_inv (s : string) :
  PyStr.starts_with_minus s = true -> s = String "-" (PyStr.tail s).
Proof.
  destruct s as [|c s]; [done|].
  destruct c as [[] [] [] [] [] [] [] []]; done.
Qed.

Lemma parse_literal (U : string) :
  Forall (fun c => valid c = true) (list_ascii_of_string (Literal.digits U)) ->
  parse U = Ok (literal_value U).
Proof.
  unfold literal_value, Literal.digits.
  destruct (PyStr.starts_with_minus U) eqn:Hminus; intros Hvalid.
  - rewrite (starts_with_minus_inv U Hminus) at 1. by apply parse_minus_digits.
  - by apply parse_digits.
Qed.

Lemma render_literal (U : string) :
  Forall (fun c => valid c = true) (list_ascii_of_string (Literal.digits U)) ->
  render (literal_value U) = Literal.normal U.
Proof.
  unfold literal_value, Literal.normal. intros Hvalid.
  rewrite strip_zeros_string.
  destruct (PyStr.starts_with_minus U).
  - rewrite render_minus_value by done.
    by destruct (strip_zeros (list_ascii_of_string (Literal.digits U))).
  - rewrite render_value by done.
    by destruct (strip_zeros (list_ascii_of_string (Literal.digits U))).
Qed.

End Radix.

(** ** The four alphabets *)

Section Alphabets.
Import NumberSystemConverter.

Lemma contains_In (c : ascii) (s : string) :
  PyStr.contains c s = true -> In c (list_ascii_of_string s).
Proof.
  induction s as [|d s IH]; simpl; [done|].
  destruct (Ascii.eqb_spec c d) as [->|_]; [by left|right; auto].
Qed.

Ltac char_cases H :=
  apply contains_In in H; simpl in H;
  repeat (destruct H as [<-|H]); [..|contradiction].

Definition binary_valid (c : ascii) : bool := PyStr.contains c "01".
Definition octal_valid (c : ascii) : bool := PyStr.contains c "01234567".

Definition hexadecimal_valid (c : ascii) : bool :=
  match PyStr.index c hex_chars with
  | Some _ => true
  | None => false
  end.

Definition hexadecimal_value (c : ascii) : Z :=
  match PyStr.index c hex_chars with
  | Some k => Z.of_nat k
  | None => 0
  end.

Lemma hexadecimal_valid_contains (c : ascii) :
  hexadecimal_valid c = PyStr.contains c hex_chars.
Proof.
  unfold hexadecimal_valid. generalize hex_chars. intros s.
  induction s as [|d s IH]; simpl; [done|].
  destruct (Ascii.eqb c d); [done|].
  destruct (PyStr.index c s); simpl; done.
Qed.

Lemma is_digit_contains (c : ascii) :
  PyStr.is_digit c = PyStr.contains c "0123456789".
Proof. destruct c as [[] [] [] [] [] [] [] []]; reflexivity. Qed.

Lemma binary_valid_value c :
  binary_valid c = true ->
  0 <= PyStr.digit_value c < 2 /\ PyStr.decimal_string (PyStr.digit_value c) = String c "".
Proof. intros Hc. char_cases Hc; vm_compute; done. Qed.

Lemma binary_digit_valid d :
  0 <= d < 2 ->
  exists c, PyStr.decimal_string d = String c "" /\ binary_valid c = true /\ PyStr.digit_value c = d.
Proof.
  intros Hd. assert (d = 0 \/ d = 1) as [->| ->] by lia;
    eexists; vm_compute; done.
Qed.

Lemma binary_zero_char c :
  binary_valid c = true -> (PyStr.digit_value c = 0 <-> c = "0"%char).
Proof. intros Hc. char_cases Hc; vm_compute; split; done. Qed.

Lemma binary_not_minus c : binary_valid c = true -> c <> "-"%char.
Proof. intros Hc. char_cases Hc; done. Qed.

Lemma binary_loop_cons c r i acc :
  binary_to_decimal_loop (c :: r) i acc =
    if binary_valid c
    then binary_to_decimal_loop r (i + 1) (acc + PyStr.digit_value c * 2 ^ i)
    else Raise (InvalidDigit "binary" c).
Proof.
  unfold binary_valid. cbn [binary_to_decimal_loop].
  by destruct (PyStr.contains c "01").
Qed.

Lemma octal_valid_value c :
  octal_valid c = true ->
  0 <= PyStr.digit_value c < 8 /\ PyStr.decimal_string (PyStr.digit_value c) = String c "".
Proof. intros Hc. char_cases Hc; vm_compute; done. Qed.

Lemma octal_digit_valid d :
  0 <= d < 8 ->
  exists c, PyStr.decimal_string d = String c "" /\ octal_valid c = true /\ PyStr.digit_value c = d.
Proof.
  intros Hd.
  assert (d = 0 \/ d = 1 \/ d = 2 \/ d = 3 \/ d = 4 \/ d = 5 \/ d = 6 \/ d = 7)
    as Hcases by lia.
  repeat (destruct Hcases as [->|Hcases]); [..|subst d];
    eexists; vm_compute; done.
Qed.

Lemma octal_zero_char c :
  octal_valid c = true -> (PyStr.digit_value c = 0 <-> c = "0"%char).
Proof. intros Hc. char_cases Hc; vm_compute; split; done. Qed.

Lemma octal_not_minus c : octal_valid c = true -> c <> "-"%char.
Proof. intros Hc. char_cases Hc; done. Qed.

Lemma octal_loop_cons c r i acc :
  octal_to_decimal_loop (c :: r) i acc =
    if octal_valid c
    then octal_to_decimal_loop r (i + 1) (acc + PyStr.digit_value c * 8 ^ i)
    else Raise (InvalidDigit "octal" c).
Proof.
  unfold octal_valid. cbn [octal_to_decimal_loop].
  by destruct (PyStr.contains c "01234567").
Qed.

Lemma hexadecimal_valid_value c :
  hexadecimal_valid c = true ->
  0 <= hexadecimal_value c < 16
  /\ PyStr.item hex_chars (hexadecimal_value c) = String c "".
Proof.
  rewrite hexadecimal_valid_contains. intros Hc.
  char_cases Hc; vm_compute; done.
Qed.

Lemma hexadecimal_digit_valid d :
  0 <= d < 16 ->
  exists c, PyStr.item hex_chars d = String c ""
    /\ hexadecimal_valid c = true /\ hexadecimal_value c = d.
Proof.
  intros Hd.
  assert (d = 0 \/ d = 1 \/ d = 2 \/ d = 3 \/ d = 4 \/ d = 5 \/ d = 6 \/ d = 7
          \/ d = 8 \/ d = 9 \/ d = 10 \/ d = 11 \/ d = 12 \/ d = 13 \/ d = 14
          \/ d = 15) as Hcases by lia.
  repeat (destruct Hcases as [->|Hcases]); [..|subst d];
    eexists; vm_compute; done.
Qed.

Lemma hexadecimal_zero_char c :
  hexadecimal_valid c = true -> (hexadecimal_value c = 0 <-> c = "0"%char).
Proof.
  rewrite hexadecimal_valid_contains. intros Hc.
  char_cases Hc; vm_compute; split; done.
Qed.

Lemma hexadecimal_not_minus c : hexadecimal_valid c = true -> c <> "-"%char.
Proof. rewrite hexadecimal_valid_contains. intros Hc. char_cases Hc; done. Qed.

Lemma hexadecimal_loop_cons c r i acc :
  hexadecimal_to_decimal_loop (c :: r) i acc =
    if hexadecimal_valid c
    then hexadecimal_to_decimal_loop r (i + 1) (acc + hexadecimal_value c * 16 ^ i)
    else Raise (InvalidDigit "hexadecimal" c).
Proof.
  unfold hexadecimal_valid, hexadecimal_value. cbn [hexadecimal_to_decimal_loop].
  by destruct (PyStr.index c hex_chars).
Qed.

Lemma decimal_valid_value c :
  PyStr.is_digit c = true ->
  0 <= PyStr.digit_value c < 10
  /\ PyStr.digit_char (PyStr.digit_value c) = String c "".
Proof.
  rewrite is_digit_contains. intros Hc. char_cases Hc; vm_compute; done.
Qed.

Lemma decimal_digit_valid d :
  0 <= d < 10 ->
  exists c, PyStr.digit_char d = String c ""
    /\ PyStr.is_digit c = true /\ PyStr.digit_value c = d.
Proof.
  intros Hd.
  assert (d = 0 \/ d = 1 \/ d = 2 \/ d = 3 \/ d = 4 \/ d = 5 \/ d = 6 \/ d = 7
          \/ d = 8 \/ d = 9) as Hcases by lia.
  repeat (destruct Hcases as [->|Hcases]); [..|subst d];
    eexists; vm_compute; done.
Qed.

Lemma decimal_zero_char c :
  PyStr.is_digit c = true -> (PyStr.digit_value c = 0 <-> c = "0"%char).
Proof.
  rewrite is_digit_contains. intros Hc. char_cases Hc; vm_compute; split; done.
Qed.

End Alphabets.

(** ** Cleaning a literal *)

Section Cleaning.

Lemma remove_spaces_id (s : string) :
  Forall (fun c => c <> " "%char) (list_ascii_of_string s) ->
  PyStr.remove_spaces s = s.
Proof.
  induction s as [|c s IH]; [done|]. simpl. intros Hall.
  apply Forall_cons in Hall as [Hc Hs].
  destruct (Ascii.eqb_spec c " "); [done|]. by rewrite IH.
Qed.

Lemma upper_id (s : string) :
  Forall (fun c => PyStr.upper_char c = c) (list_ascii_of_string s) ->
  PyStr.upper s = s.
Proof.
  induction s as [|c s IH]; [done|]. simpl. intros Hall.
  apply Forall_cons in Hall as [Hc Hs]. by rewrite Hc, IH.
Qed.

Lemma upper_list (s : string) :
  list_ascii_of_string (PyStr.upper s)
    = map PyStr.upper_char (list_ascii_of_string s).
Proof. induction s as [|c s IH]; [done|]. simpl. by rewrite IH. Qed.

Lemma upper_minus (s : string) :
  PyStr.starts_with_minus (PyStr.upper s) = PyStr.starts_with_minus s.
Proof.
  destruct s as [|c s]; [done|].
  destruct c as [[] [] [] [] [] [] [] []]; reflexivity.
Qed.

Lemma upper_digits (s : string) :
  Literal.digits (PyStr.upper s) = PyStr.upper (Literal.digits s).
Proof.
  unfold Literal.digits. rewrite upper_minus.
  destruct (PyStr.starts_with_minus s); [|done]. by destruct s.
Qed.

Lemma lstrip_id (s : string) :
  Forall (fun c => PyStr.is_space c = false) (list_ascii_of_string s) ->
  PyStr.lstrip s = s.
Proof.
  destruct s as [|c s]; [done|]. simpl. intros Hall.
  apply Forall_inv in Hall. by rewrite Hall.
Qed.

Lemma rstrip_id (s : string) :
  Forall (fun c => PyStr.is_space c = false) (list_ascii_of_string s) ->
  PyStr.rstrip s = s.
Proof.
  induction s as [|c s IH]; [done|]. simpl. intros Hall.
  apply Forall_cons in Hall as [Hc Hs]. rewrite IH by done.
  destruct s; [by rewrite Hc|done].
Qed.

Lemma strip_id (s : string) :
  Forall (fun c => PyStr.is_space c = false) (list_ascii_of_string s) ->
  PyStr.strip s = s.
Proof.
  intros Hall. unfold PyStr.strip. by rewrite lstrip_id, rstrip_id.
Qed.

(** A literal whose digits pass a test passes it as a whole, once
    the test lets [-] through. *)
Lemma literal_chars (P : ascii -> Prop) (L : string) :
  P "-"%char ->
  Forall P (list_ascii_of_string (Literal.digits L)) ->
  Forall P (list_ascii_of_string L).
Proof.
  intros Hminus. unfold Literal.digits.
  destruct (PyStr.starts_with_minus L) eqn:Hm; [|done].
  rewrite (starts_with_minus_inv L Hm) at 2. simpl. by constructor.
Qed.

Lemma valid_Forall (base : Z) (L : string) :
  Literal.valid base L = true ->
  Forall (fun c => PyStr.contains c (Literal.alphabet base) = true)
    (list_ascii_of_string (Literal.digits L)).
Proof.
  unfold Literal.valid. intros Hv.
  apply List.Forall_forall. by apply forallb_forall.
Qed.

End Cleaning.

(** ** The conversions of [convert] *)

Section Conversions.
Import NumberSystemConverter.

Ltac char_cases H :=
  apply contains_In in H; simpl in H;
  repeat (destruct H as [<-|H]); [..|contradiction].

(** *** Base 2 *)

Lemma binary_clean c :
  binary_valid c = true \/ c = "-"%char ->
  c <> " "%char /\ PyStr.upper_char c = c.
Proof. intros [Hc| ->]; [char_cases Hc|]; done. Qed.

Lemma binary_parse_render (decimal : Z) :
  binary_to_decimal (decimal_to_binary decimal) = Ok decimal.
Proof.
  change (decimal_to_binary decimal)
    with (render 2 eq_refl (fun d => PyStr.decimal_string d) decimal).
  change (binary_to_decimal ?s)
    with (parse binary_to_decimal_loop (PyStr.remove_spaces s)).
  rewrite remove_spaces_id.
  - eapply parse_render;
      eauto using binary_digit_valid, binary_zero_char, binary_loop_cons,
        binary_not_minus.
  - eapply Forall_impl.
    + eapply render_chars; eauto using binary_digit_valid, binary_zero_char.
    + intros c Hc. by apply binary_clean.
Qed.

Lemma binary_render_parse (L : string) :
  Literal.valid 2 L = true ->
  exists decimal,
    binary_to_decimal L = Ok decimal
    /\ decimal_to_binary decimal = Literal.normal_form L.
Proof.
  intros Hvalid%valid_Forall. fold binary_valid in Hvalid.
  assert (Forall (fun c => binary_valid c = true \/ c = "-"%char)
            (list_ascii_of_string L)) as Hall.
  { apply literal_chars; [by right|].
    eapply Forall_impl; [exact Hvalid|]. by left. }
  exists (literal_value 2 PyStr.digit_value L). split.
  - change (binary_to_decimal L)
      with (parse binary_to_decimal_loop (PyStr.remove_spaces L)).
    rewrite remove_spaces_id.
    + eapply parse_literal; eauto using binary_loop_cons, binary_not_minus.
    + eapply Forall_impl; [exact Hall|]. intros c Hc. by apply binary_clean.
  - unfold Literal.normal_form. rewrite upper_id.
    + change (decimal_to_binary ?v) with (render 2 eq_refl (fun d => PyStr.decimal_string d) v).
      eapply render_literal; eauto using binary_valid_value, binary_zero_char.
    + eapply Forall_impl; [exact Hall|]. intros c Hc. by apply binary_clean.
Qed.

(** *** Base 8 *)

Lemma octal_clean c :
  octal_valid c = true \/ c = "-"%char ->
  c <> " "%char /\ PyStr.upper_char c = c.
Proof. intros [Hc| ->]; [char_cases Hc|]; done. Qed.

Lemma octal_parse_render (decimal : Z) :
  octal_to_decimal (decimal_to_octal decimal) = Ok decimal.
Proof.
  change (decimal_to_octal decimal)
    with (render 8 eq_refl (fun d => PyStr.decimal_string d) decimal).
  change (octal_to_decimal ?s)
    with (parse octal_to_decimal_loop (PyStr.remove_spaces s)).
  rewrite remove_spaces_id.
  - eapply parse_render;
      eauto using octal_digit_valid, octal_zero_char, octal_loop_cons,
        octal_not_minus.
  - eapply Forall_impl.
    + eapply render_chars; eauto using octal_digit_valid, octal_zero_char.
    + intros c Hc. by apply octal_clean.
Qed.

Lemma octal_render_parse (L : string) :
  Literal.valid 8 L = true ->
  exists decimal,
    octal_to_decimal L = Ok decimal
    /\ decimal_to_octal decimal = Literal.normal_form L.
Proof.
  intros Hvalid%valid_Forall. fold octal_valid in Hvalid.
  assert (Forall (fun c => octal_valid c = true \/ c = "-"%char)
            (list_ascii_of_string L)) as Hall.
  { apply literal_chars; [by right|].
    eapply Forall_impl; [exact Hvalid|]. by left. }
  exists (literal_value 8 PyStr.digit_value L). split.
  - change (octal_to_decimal L)
      with (parse octal_to_decimal_loop (PyStr.remove_spaces L)).
    rewrite remove_spaces_id.
    + eapply parse_literal; eauto using octal_loop_cons, octal_not_minus.
    + eapply Forall_impl; [exact Hall|]. intros c Hc. by apply octal_clean.
  - unfold Literal.normal_form. rewrite upper_id.
    + change (decimal_to_octal ?v) with (render 8 eq_refl (fun d => PyStr.decimal_string d) v).
      eapply render_literal; eauto using octal_valid_value, octal_zero_char.
    + eapply Forall_impl; [exact Hall|]. intros c Hc. by apply octal_clean.
Qed.

(** *** Base 16 *)

Lemma hexadecimal_clean c :
  hexadecimal_valid c = true \/ c = "-"%char ->
  c <> " "%char /\ PyStr.upper_char c = c.
Proof.
  intros [Hc| ->]; [|done]. rewrite hexadecimal_valid_contains in Hc.
  char_cases Hc; done.
Qed.

Lemma hexadecimal_literal_char c :
  PyStr.contains c (Literal.alphabet 16) = true ->
  c <> " "%char /\ hexadecimal_valid (PyStr.upper_char c) = true.
Proof. intros Hc. char_cases Hc; done. Qed.

Lemma hexadecimal_parse_render (decimal : Z) :
  hexadecimal_to_decimal (decimal_to_hexadecimal decimal) = Ok decimal.
Proof.
  change (decimal_to_hexadecimal decimal)
    with (render 16 eq_refl (fun d => PyStr.item hex_chars d) decimal).
  change (hexadecimal_to_decimal ?s)
    with (parse hexadecimal_to_decimal_loop (PyStr.upper (PyStr.remove_spaces s))).
  assert (Forall (fun c => c <> " "%char /\ PyStr.upper_char c = c)
            (list_ascii_of_string
               (render 16 eq_refl (fun d => PyStr.item hex_chars d) decimal)))
    as Hclean.
  { eapply Forall_impl.
    - eapply render_chars;
        eauto using hexadecimal_digit_valid, hexadecimal_zero_char.
    - intros c Hc. by apply hexadecimal_clean. }
  rewrite remove_spaces_id, upper_id.
  - eapply parse_render;
      eauto using hexadecimal_digit_valid, hexadecimal_zero_char,
        hexadecimal_loop_cons, hexadecimal_not_minus.
  - eapply Forall_impl; [exact Hclean|]. by intros c [_ Hc].
  - eapply Forall_impl; [exact Hclean|]. by intros c [Hc _].
Qed.

Lemma hexadecimal_render_parse (L : string) :
  Literal.valid 16 L = true ->
  exists decimal,
    hexadecimal_to_decimal L = Ok decimal
    /\ decimal_to_hexadecimal decimal = Literal.normal_form L.
Proof.
  intros Hvalid%valid_Forall.
  assert (Forall (fun c => hexadecimal_valid c = true)
            (list_ascii_of_string (Literal.digits (PyStr.upper L)))) as Hupper.
  { rewrite upper_digits, upper_list. apply List.Forall_map.
    eapply Forall_impl; [exact Hvalid|].
    intros c Hc. by apply hexadecimal_literal_char. }
  exists (literal_value 16 hexadecimal_value (PyStr.upper L)). split.
  - change (hexadecimal_to_decimal L)
      with (parse hexadecimal_to_decimal_loop (PyStr.upper (PyStr.remove_spaces L))).
    rewrite remove_spaces_id.
    + eapply parse_literal;
        eauto using hexadecimal_loop_cons, hexadecimal_not_minus.
    + apply literal_chars; [done|].
      eapply Forall_impl; [exact Hvalid|].
      intros c Hc. by apply hexadecimal_literal_char.
  - unfold Literal.normal_form.
    change (decimal_to_hexadecimal ?v)
      with (render 16 eq_refl (fun d => PyStr.item hex_chars d) v).
    eapply render_literal;
      eauto using hexadecimal_valid_value, hexadecimal_zero_char.
Qed.

(** *** Base 10 *)

Lemma decimal_clean c :
  PyStr.is_digit c = true \/ c = "-"%char ->
  PyStr.is_space c = false /\ PyStr.upper_char c = c.
Proof.
  intros [Hc| ->]; [|done]. rewrite is_digit_contains in Hc.
  char_cases Hc; done.
Qed.

Lemma decimal_not_minus c : PyStr.is_digit c = true -> c <> "-"%char.
Proof. rewrite is_digit_contains. intros Hc. char_cases Hc; done. Qed.

Lemma int_digits_value (s : string) : forall acc seen,
  Forall (fun c => PyStr.is_digit c = true) (list_ascii_of_string s) ->
  s <> "" \/ seen = true ->
  PyStr.int_digits s acc seen
    = Some (acc * 10 ^ Z.of_nat (length (list_ascii_of_string s))
            + value_of 10 PyStr.digit_value (list_ascii_of_string s)).
Proof.
  induction s as [|c s IH]; intros acc seen Hall Hseen.
  - destruct Hseen as [Hne|Hseen]; [done|]. subst seen. simpl; f_equal; lia.
  - apply Forall_cons in Hall as [Hc Hs].
    cbn [PyStr.int_digits]. rewrite Hc. rewrite IH by auto.
    cbn [list_ascii_of_string length value_of]. rewrite Nat2Z.inj_succ.
    rewrite Z.pow_succ_r by lia; f_equal; lia.
Qed.

Lemma int_digits_literal (s : string) :
  Forall (fun c => PyStr.is_digit c = true) (list_ascii_of_string s) ->
  s <> "" ->
  PyStr.int_digits s 0 false
    = Some (value_of 10 PyStr.digit_value (list_ascii_of_string s)).
Proof.
  intros Hall Hne. rewrite int_digits_value by auto; f_equal; lia.
Qed.

(** The limit let through a single digit, and every writing that has
    one character at least. *)
Lemma int_max_str_digits_pos : 1 <= PyStr.int_max_str_digits.
Proof. done. Qed.

Lemma int_scan_digits (s : string) :
  Forall (fun c => PyStr.is_digit c = true) (list_ascii_of_string s) ->
  PyStr.int_scan s = (s, "").
Proof.
  induction s as [|c s IH]; [done|]. intros Hall.
  apply Forall_cons in Hall as [Hc Hs].
  cbn [PyStr.int_scan]. by rewrite Hc, IH.
Qed.

Lemma count_digits_digits (s : string) :
  Forall (fun c => PyStr.is_digit c = true) (list_ascii_of_string s) ->
  PyStr.count_digits s = Z.of_nat (String.length s).
Proof.
  induction s as [|c s IH]; [done|]. intros Hall.
  apply Forall_cons in Hall as [Hc Hs].
  cbn [PyStr.count_digits String.length]. rewrite Hc, IH by done. lia.
Qed.

(** What [int] makes of a run of digits behind a sign it has taken
    off. *)
Definition int_of_digits (sign : Z) (s : string) : result Z :=
  if PyStr.int_max_str_digits <? Z.of_nat (String.length s)
  then Raise (IntDigitLimit (Z.of_nat (String.length s)))
  else Ok (sign * value_of 10 PyStr.digit_value (list_ascii_of_string s)).

Lemma int_scanned (value s : string) (sign : Z) :
  Forall (fun c => PyStr.is_digit c = true) (list_ascii_of_string s) ->
  s <> "" ->
  (let '(run, rest) := PyStr.int_scan s in
   match PyStr.int_digits run 0 false with
   | None => Raise (InvalidLiteral value)
   | Some n =>
       if PyStr.int_max_str_digits <? PyStr.count_digits run
       then Raise (IntDigitLimit (PyStr.count_digits run))
       else if forallb PyStr.is_int_space (list_ascii_of_string rest)
            then Ok (sign * n)
            else Raise (InvalidLiteral value)
   end) = int_of_digits sign s.
Proof.
  intros Hall Hne. rewrite int_scan_digits by done.
  rewrite int_digits_literal, count_digits_digits by done.
  unfold int_of_digits. by destruct (_ <? _).
Qed.

(** [int] on a run of digits, bare or behind a sign. *)
Lemma int_digits_only (s : string) :
  Forall (fun c => PyStr.is_digit c = true) (list_ascii_of_string s) ->
  s <> "" ->
  PyStr.int s = int_of_digits 1 s.
Proof.
  intros Hall Hne. rewrite <- (int_scanned s s 1 Hall Hne).
  destruct s as [|c r]; [done|].
  pose proof (Forall_inv Hall) as Hc. simpl in Hc.
  rewrite is_digit_contains in Hc.
  char_cases Hc; reflexivity.
Qed.

Lemma int_minus_digits (s : string) :
  Forall (fun c => PyStr.is_digit c = true) (list_ascii_of_string s) ->
  s <> "" ->
  PyStr.int (String "-" s) = int_of_digits (-1) s.
Proof.
  intros Hall Hne. by rewrite <- (int_scanned (String "-" s) s (-1) Hall Hne).
Qed.

Lemma int_plus_digits (s : string) :
  Forall (fun c => PyStr.is_digit c = true) (list_ascii_of_string s) ->
  s <> "" ->
  PyStr.int (String "+" s) = int_of_digits 1 s.
Proof.
  intros Hall Hne. by rewrite <- (int_scanned (String "+" s) s 1 Hall Hne).
Qed.

Lemma int_of_digits_within (sign : Z) (s : string) :
  Z.of_nat (String.length s) <= PyStr.int_max_str_digits ->
  int_of_digits sign s
    = Ok (sign * value_of 10 PyStr.digit_value (list_ascii_of_string s)).
Proof.
  intros Hlen. unfold int_of_digits.
  by destruct (Z.ltb_spec PyStr.int_max_str_digits (Z.of_nat (String.length s)));
    [lia|].
Qed.

Lemma int_of_digits_Ok (sign : Z) (s : string) (n : Z) :
  int_of_digits sign s = Ok n ->
  Z.of_nat (String.length s) <= PyStr.int_max_str_digits
  /\ n = sign * value_of 10 PyStr.digit_value (list_ascii_of_string s).
Proof.
  unfold int_of_digits.
  destruct (Z.ltb_spec PyStr.int_max_str_digits (Z.of_nat (String.length s)));
    [done|].
  intros [= <-]. done.
Qed.

(** [int] on a literal of base 10: its value when the literal has no
    more digits than the limit, leading zeros counted. *)
Lemma int_literal (U : string) :
  Forall (fun c => PyStr.is_digit c = true) (list_ascii_of_string (Literal.digits U)) ->
  Literal.digits U <> "" ->
  PyStr.int U =
    if PyStr.int_max_str_digits <? Z.of_nat (String.length (Literal.digits U))
    then Raise (IntDigitLimit (Z.of_nat (String.length (Literal.digits U))))
    else Ok (literal_value 10 PyStr.digit_value U).
Proof.
  unfold literal_value, Literal.digits.
  destruct (PyStr.starts_with_minus U) eqn:Hminus; intros Hall Hne.
  - rewrite (starts_with_minus_inv U Hminus) at 1.
    rewrite int_minus_digits by done. unfold int_of_digits.
    destruct (_ <? _); [done|f_equal; lia].
  - rewrite int_digits_only by done. unfold int_of_digits.
    destruct (_ <? _); [done|f_equal; lia].
Qed.

(** The writing of an integer has at most [k] digits exactly when the
    integer is below [10 ^ k] in absolute value. *)
Lemma decimal_string_length (n k : Z) :
  1 <= k ->
  Z.of_nat (String.length (PyStr.decimal_string (Z.abs n))) <= k
  <-> Z.abs n < 10 ^ k.
Proof.
  intros Hk. unfold PyStr.decimal_string.
  destruct (Z.eqb_spec (Z.abs n) 0) as [Hzero|Hnonzero].
  - rewrite Hzero. cbn [String.length].
    assert (0 < 10 ^ k) by (apply Z.pow_pos_nonneg; lia). lia.
  - destruct (Z.geb_spec (Z.abs n) 0); [|lia]. rewrite Z.abs_idemp.
    apply (digits_loop_length 10 eq_refl PyStr.digit_char PyStr.digit_value
             PyStr.is_digit decimal_digit_valid); lia.
Qed.

(** [str] returns the writing of every integer below [10 ^ 4300] in
    absolute value, and raises on every other. *)
Lemma str_within (n : Z) :
  Z.abs n < 10 ^ PyStr.int_max_str_digits ->
  PyStr.str n = Ok (PyStr.decimal_string n).
Proof.
  intros Hn. apply decimal_string_length in Hn; [|apply int_max_str_digits_pos].
  unfold PyStr.str.
  by destruct (Z.ltb_spec PyStr.int_max_str_digits
                 (Z.of_nat (String.length (PyStr.decimal_string (Z.abs n)))));
    [lia|].
Qed.

Lemma str_beyond (n : Z) :
  10 ^ PyStr.int_max_str_digits <= Z.abs n ->
  PyStr.str n = Raise StrDigitLimit.
Proof.
  intros Hn. unfold PyStr.str.
  destruct (Z.ltb_spec PyStr.int_max_str_digits
              (Z.of_nat (String.length (PyStr.decimal_string (Z.abs n)))))
    as [Hlt|Hle]; [done|].
  apply decimal_string_length in Hle; [lia|apply int_max_str_digits_pos].
Qed.

Lemma str_Ok (n : Z) (s : string) :
  PyStr.str n = Ok s ->
  s = PyStr.decimal_string n /\ Z.abs n < 10 ^ PyStr.int_max_str_digits.
Proof.
  intros Hstr.
  destruct (Z.lt_ge_cases (Z.abs n) (10 ^ PyStr.int_max_str_digits)) as [Hlt|Hge].
  - rewrite str_within in Hstr by done. by injection Hstr as <-.
  - by rewrite str_beyond in Hstr.
Qed.

(** A single digit is always written. *)
Lemma str_small (d : Z) :
  0 <= d < 10 -> PyStr.str d = Ok (PyStr.decimal_string d).
Proof.
  intros Hd. apply str_within.
  apply Z.lt_le_trans with (10 ^ 1); [lia|].
  apply Z.pow_le_mono_r; [lia|apply int_max_str_digits_pos].
Qed.

(** Reading back what [str] wrote. *)
Lemma decimal_parse_render (decimal : Z) (s : string) :
  PyStr.str decimal = Ok s -> PyStr.int s = Ok decimal.
Proof.
  intros [-> Hlimit]%str_Ok.
  apply decimal_string_length in Hlimit; [|apply int_max_str_digits_pos].
  revert Hlimit. unfold PyStr.decimal_string at 1.
  change (PyStr.decimal_string decimal)
    with (render 10 eq_refl PyStr.digit_char decimal).
  unfold render. destruct (Z.eqb_spec decimal 0) as [->|Hne]; [done|].
  destruct (Z.eqb_spec (Z.abs decimal) 0) as [|_]; [lia|].
  destruct (Z.geb_spec (Z.abs decimal) 0) as [_|]; [|lia].
  rewrite Z.abs_idemp. intros Hlimit.
  destruct (digits_loop_value 10 eq_refl PyStr.digit_char PyStr.digit_value
              PyStr.is_digit decimal_digit_valid (Z.abs decimal))
    as [Hvalid Hvalue]; [lia|].
  assert (PyStr.digits_loop 10 eq_refl PyStr.digit_char (Z.abs decimal) "" <> "")
    as Hnonempty.
  { intros Hempty. rewrite Hempty in Hvalue. simpl in Hvalue. lia. }
  destruct (Z.geb_spec decimal 0).
  - rewrite int_digits_only, int_of_digits_within by done.
    rewrite Hvalue; f_equal; lia.
  - change ("-" +:+ ?s) with (String "-" s).
    rewrite int_minus_digits, int_of_digits_within by done.
    rewrite Hvalue; f_equal; lia.
Qed.

(** What [int] reads from a valid literal of base 10 is written back
    as the normal form of the literal. *)
Lemma decimal_parse_normal (L : string) (decimal : Z) :
  Literal.valid 10 L = true ->
  Literal.digits L <> "" ->
  PyStr.int L = Ok decimal ->
  decimal = literal_value 10 PyStr.digit_value L
  /\ PyStr.decimal_string decimal = Literal.normal_form L
  /\ Z.abs decimal < 10 ^ PyStr.int_max_str_digits.
Proof.
  intros Hvalid%valid_Forall Hne Hint.
  assert (Forall (fun c => PyStr.is_digit c = true)
            (list_ascii_of_string (Literal.digits L))) as Hdigits.
  { eapply Forall_impl; [exact Hvalid|]. intros c Hc.
    by rewrite is_digit_contains. }
  rewrite int_literal in Hint by done.
  destruct (Z.ltb_spec PyStr.int_max_str_digits
              (Z.of_nat (String.length (Literal.digits L)))) as [|Hlen];
    [done|].
  injection Hint as <-. split; [done|]. split.
  - unfold Literal.normal_form. rewrite upper_id.
    + change (PyStr.decimal_string ?v) with (render 10 eq_refl PyStr.digit_char v).
      eapply render_literal; eauto using decimal_valid_value, decimal_zero_char.
    + apply literal_chars; [done|].
      eapply Forall_impl; [exact Hdigits|]. intros c Hc.
      apply decimal_clean. by left.
  - pose proof (value_of_bound 10 eq_refl PyStr.digit_char PyStr.digit_value
                  PyStr.is_digit decimal_valid_value _ Hdigits) as Hbound.
    pose proof (value_of_nonneg 10 eq_refl PyStr.digit_char PyStr.digit_value
                  PyStr.is_digit decimal_valid_value _ Hdigits) as Hnonneg.
    rewrite length_list in Hbound.
    assert (10 ^ Z.of_nat (String.length (Literal.digits L))
            <= 10 ^ PyStr.int_max_str_digits)
      by (apply Z.pow_le_mono_r; lia).
    unfold literal_value. destruct (PyStr.starts_with_minus L); lia.
Qed.

(** A valid literal of base 10 with no more digits than the limit is
    read by [int]. *)
Lemma decimal_render_parse (L : string) :
  Literal.valid 10 L = true ->
  Literal.digits L <> "" ->
  Z.of_nat (String.length (Literal.digits L)) <= PyStr.int_max_str_digits ->
  exists decimal, PyStr.int L = Ok decimal.
Proof.
  intros Hvalid%valid_Forall Hne Hlen.
  rewrite int_literal; [|eapply Forall_impl; [exact Hvalid|];
                          intros c Hc; by rewrite is_digit_contains|done].
  destruct (Z.ltb_spec PyStr.int_max_str_digits
              (Z.of_nat (String.length (Literal.digits L)))); [lia|].
  by eexists.
Qed.

End Conversions.

(** ** Where the parsing loops stop *)

Section ParseFacts.
Variable base : Z.
Variable value : ascii -> Z.
Variable valid : ascii -> bool.
Variable loop : list ascii -> Z -> Z -> result Z.
Variable invalid : ascii -> error.

Hypothesis loop_cons : forall c r i acc,
  loop (c :: r) i acc =
    if valid c then loop r (i + 1) (acc + value c * base ^ i)
    else Raise (invalid c).

(** The loop raises at the first character outside the alphabet that it
    meets. *)
Lemma loop_first_invalid (pre : list ascii) (c : ascii) (rest : list ascii) :
  forall i acc,
  Forall (fun c => valid c = true) pre ->
  valid c = false ->
  loop (pre ++ c :: rest) i acc = Raise (invalid c).
Proof.
  induction pre as [|d pre IH]; intros i acc Hpre Hc.
  - simpl. by rewrite loop_cons, Hc.
  - apply Forall_cons in Hpre as [Hd Hpre].
    simpl. rewrite loop_cons, Hd. by apply IH.
Qed.

Lemma parse_by_digits (t : string) :
  parse loop t =
    loop (PyStr.reversed (Literal.digits t)) 0 0 ≫= fun decimal =>
    Ok ((if PyStr.starts_with_minus t then -1 else 1) * decimal).
Proof.
  unfold parse, Literal.digits. by destruct (PyStr.starts_with_minus t).
Qed.

(** Walking the digits from the right, the loop reports the last
    character of the literal that is outside the alphabet. *)
Lemma parse_last_invalid (t s1 s2 : string) (c : ascii) :
  Literal.digits t = s1 +:+ String c s2 ->
  valid c = false ->
  Forall (fun c => valid c = true) (list_ascii_of_string s2) ->
  parse loop t = Raise (invalid c).
Proof.
  intros Ht Hc Hs2. rewrite parse_by_digits, Ht.
  unfold PyStr.reversed. rewrite list_of_append. simpl list_ascii_of_string.
  rewrite rev_app_distr. simpl rev. rewrite <- app_assoc. simpl app.
  rewrite loop_first_invalid; [done| |done]. by apply Forall_rev.
Qed.

End ParseFacts.

(** ** Whitespace around and inside a literal *)

Section Whitespace.
Import NumberSystemConverter.

(** A text that [strip] empties is made of whitespace. *)
Lemma rstrip_empty (s : string) :
  PyStr.rstrip s = "" ->
  Forall (fun c => PyStr.is_space c = true) (list_ascii_of_string s).
Proof.
  induction s as [|c s IH]; [constructor|]. cbn [PyStr.rstrip].
  destruct (PyStr.rstrip s) eqn:Hs; [|done].
  destruct (PyStr.is_space c) eqn:Hc; [|done].
  intros _. constructor; [done|by apply IH].
Qed.

Lemma strip_empty (s : string) :
  PyStr.strip s = "" ->
  Forall (fun c => PyStr.is_space c = true) (list_ascii_of_string s).
Proof.
  unfold PyStr.strip. induction s as [|c s IH]; [constructor|].
  cbn [PyStr.lstrip]. destruct (PyStr.is_space c) eqn:Hc.
  - intros Hs. constructor; [done|by apply IH].
  - intros Hs%rstrip_empty. apply Forall_inv in Hs. congruence.
Qed.

Lemma remove_spaces_Forall (P : ascii -> Prop) (s : string) :
  Forall P (list_ascii_of_string s) ->
  Forall (fun c => P c /\ c <> " "%char)
    (list_ascii_of_string (PyStr.remove_spaces s)).
Proof.
  induction s as [|c s IH]; [constructor|]. intros Hall.
  apply Forall_cons in Hall as [Hc Hs]. cbn [PyStr.remove_spaces].
  destruct (Ascii.eqb_spec c " ") as [->|Hne]; [by apply IH|].
  constructor; [done|by apply IH].
Qed.

(** A text that is not empty ends with a character. *)
Lemma string_last (s : string) :
  s <> "" -> exists s1 c, s = s1 +:+ String c "".
Proof.
  induction s as [|d s IH]; [done|]. intros _.
  destruct s as [|e s].
  - by exists "", d.
  - destruct IH as (s1 & c & Hs); [done|].
    exists (String d s1), c. by rewrite append_cons, <- Hs.
Qed.

(** Whitespace other than the space is in no alphabet, is not the
    sign, and is left alone by [upper]. *)
Lemma space_invalid (c : ascii) :
  PyStr.is_space c = true ->
  binary_valid c = false /\ octal_valid c = false /\ hexadecimal_valid c = false
  /\ c <> "-"%char /\ PyStr.upper_char c = c.
Proof. destruct c as [[] [] [] [] [] [] [] []]; done. Qed.

(** [int] refuses a text made of whitespace. *)
Lemma int_whitespace (value : string) :
  Forall (fun c => PyStr.is_space c = true) (list_ascii_of_string value) ->
  PyStr.int value = Raise (InvalidLiteral value).
Proof.
  intros Hall. unfold PyStr.int.
  assert (PyStr.int_lstrip value = ""
          \/ exists c r, PyStr.int_lstrip value = String c r
                /\ PyStr.is_space c = true /\ PyStr.is_int_space c = false)
    as [->|(c & r & -> & Hc & Hint)].
  { induction value as [|c r IH]; [by left|].
    apply Forall_cons in Hall as [Hc Hr]. cbn [PyStr.int_lstrip].
    destruct (PyStr.is_int_space c) eqn:Hint; [by apply IH|].
    right. by exists c, r. }
  - done.
  - destruct c as [[] [] [] [] [] [] [] []]; try discriminate Hc;
      try discriminate Hint; reflexivity.
Qed.

(** A run of digits is read up to the first character that is neither
    a digit nor an underscore. *)
Lemma int_scan_app (s t : string) :
  Forall (fun c => PyStr.is_digit c = true) (list_ascii_of_string s) ->
  PyStr.int_scan t = ("", t) ->
  PyStr.int_scan (s +:+ t) = (s, t).
Proof.
  intros Hs Ht. induction s as [|c s IH]; [done|].
  apply Forall_cons in Hs as [Hc Hs].
  rewrite append_cons. cbn [PyStr.int_scan]. by rewrite Hc, IH.
Qed.

(** [int] on a run of digits followed by something that is neither a
    digit nor an underscore. *)
Lemma int_digits_then (s t : string) :
  Forall (fun c => PyStr.is_digit c = true) (list_ascii_of_string s) ->
  s <> "" ->
  PyStr.int_scan t = ("", t) ->
  PyStr.int (s +:+ t) =
    if PyStr.int_max_str_digits <? Z.of_nat (String.length s)
    then Raise (IntDigitLimit (Z.of_nat (String.length s)))
    else if forallb PyStr.is_int_space (list_ascii_of_string t)
         then Ok (value_of 10 PyStr.digit_value (list_ascii_of_string s))
         else Raise (InvalidLiteral (s +:+ t)).
Proof.
  intros Hs Hne Ht.
  transitivity
    (let '(run, rest) := PyStr.int_scan (s +:+ t) in
     match PyStr.int_digits run 0 false with
     | None => Raise (InvalidLiteral (s +:+ t))
     | Some n =>
         if PyStr.int_max_str_digits <? PyStr.count_digits run
         then Raise (IntDigitLimit (PyStr.count_digits run))
         else if forallb PyStr.is_int_space (list_ascii_of_string rest)
              then Ok (1 * n)
              else Raise (InvalidLiteral (s +:+ t))
     end).
  - destruct s as [|c s]; [done|].
    pose proof (Forall_inv Hs) as Hc. simpl in Hc.
    rewrite is_digit_contains in Hc.
    apply contains_In in Hc; simpl in Hc;
      repeat (destruct Hc as [<-|Hc]); [..|contradiction]; reflexivity.
  - rewrite (int_scan_app _ _ Hs Ht).
    rewrite int_digits_literal, count_digits_digits by done.
    destruct (_ <? _); [done|].
    destruct (forallb _ _); [f_equal; lia|done].
Qed.

(** A run of at most [k] digits denotes a number below [10 ^ k]. *)
Lemma digits_value_limit (s : string) :
  Forall (fun c => PyStr.is_digit c = true) (list_ascii_of_string s) ->
  Z.of_nat (String.length s) <= PyStr.int_max_str_digits ->
  0 <= value_of 10 PyStr.digit_value (list_ascii_of_string s)
    < 10 ^ PyStr.int_max_str_digits.
Proof.
  intros Hs Hlen.
  pose proof (value_of_bound 10 eq_refl PyStr.digit_char PyStr.digit_value
                PyStr.is_digit decimal_valid_value _ Hs) as Hbound.
  pose proof (value_of_nonneg 10 eq_refl PyStr.digit_char PyStr.digit_value
                PyStr.is_digit decimal_valid_value _ Hs) as Hnonneg.
  rewrite length_list in Hbound.
  assert (10 ^ Z.of_nat (String.length s) <= 10 ^ PyStr.int_max_str_digits)
    by (apply Z.pow_le_mono_r; lia).
  lia.
Qed.

End Whitespace.

(** * The claims *)

(** ** Reading a sort trace *)

(** A pass header is a line that starts with a line break and [Pass]. *)
Definition is_pass_header (line : string) : bool :=
  String.prefix (newline +:+ "Pass ") line.

Definition pass_count (steps : list string) : nat :=
  length (List.filter is_pass_header steps).

Definition no_swaps_line : string := "  No swaps needed, array is sorted".

Section SortClaims.
Context {A : Type} `{PyOrd A} `{PyFormat A}.
Import Heap SortingAlgorithms.

(** C2: for every array of elements under a total order, each of
    [bubble_sort], [selection_sort] and [insertion_sort] returns a new
    array that is a non-decreasing arrangement of the elements of the
    input, and the three return the same array. *)
Theorem sorts_return_sorted_permutation (h : heap A) (array : loc) (l : list A) :
  h !! array = Some l ->
  exists (sorted : list A) (bubble_steps selection_steps insertion_steps : trace),
    bubble_sort array h = Some ((length h, bubble_steps), h ++ [sorted])
    /\ selection_sort array h = Some ((length h, selection_steps), h ++ [sorted])
    /\ insertion_sort array h = Some ((length h, insertion_steps), h ++ [sorted])
    /\ sorted ≡ₚ l
    /\ non_decreasing sorted.
Proof.
  intros Hh.
  destruct (bubble_sort_spec h array l Hh) as (lb & sb & Hb & Hpb & Hsb).
  destruct (selection_sort_spec h array l Hh) as (ls & ss & Hs & Hps & Hss).
  destruct (insertion_sort_spec h array l Hh) as (li & si & Hi & Hpi & Hsi).
  assert (ls = lb) as ->.
  { apply non_decreasing_unique; [done|done|]. by rewrite Hps, Hpb. }
  assert (li = lb) as ->.
  { apply non_decreasing_unique; [done|done|]. by rewrite Hpi, Hpb. }
  by exists lb, sb, ss, si.
Qed.

(** C6, amended: for every already-sorted array that is not empty, the
    trace of [bubble_sort] is the starting line, one pass header, the
    "no swaps needed" line and the final line, so the sort stops after
    its first pass and returns the elements as they were. *)
Theorem bubble_sort_sorted_input (h : heap A) (array : loc) (l : list A) :
  h !! array = Some l ->
  l <> [] ->
  non_decreasing l ->
  exists steps : trace,
    bubble_sort array h = Some ((length h, steps), h ++ [l])
    /\ steps = [ "Starting array: " +:+ format_list l;
                 newline +:+ "Pass 1:";
                 no_swaps_line;
                 newline +:+ "Final sorted array: " +:+ format_list l ]
    /\ pass_count steps = 1%nat
    /\ In no_swaps_line steps.
Proof.
  intros Hh Hne Hsorted. eexists. split; [|split; [reflexivity|split]].
  - unfold bubble_sort. unfold bind at 1. rewrite (copy_run _ _ _ Hh).
    pose proof (heap_fresh_lookup h l) as Hfresh.
    unfold bind at 1. rewrite (len_run _ _ _ Hfresh).
    unfold bind at 1. rewrite (contents_run _ _ _ Hfresh).
    unfold bind at 1.
    destruct l as [|x l]; [done|].
    cbn [length seq bubble_outer]. unfold bind at 1.
    rewrite (bubble_inner_sorted _ _ 0%nat (x :: l)); [|done|simpl; lia|done].
    cbn [negb]. unfold ret at 1.
    unfold bind at 1. rewrite (contents_run _ _ _ Hfresh).
    reflexivity.
  - reflexivity.
  - right. right. by left.
Qed.

(** Each sort leaves every list object that existed before the call as
    it was, the caller's array among them, and returns a list object
    that did not exist before. *)
Lemma sorts_preserve_heap (h : heap A) (array : loc) (l : list A) :
  h !! array = Some l ->
  forall sort, sort = bubble_sort \/ sort = selection_sort \/ sort = insertion_sort ->
  exists (arr : loc) (steps : trace) (h' : heap A),
    sort array h = Some ((arr, steps), h')
    /\ arr <> array
    /\ h' !! array = Some l
    /\ forall p, (p < length h)%nat -> h' !! p = h !! p.
Proof.
  intros Hh sort Hsort.
  assert (exists l' steps, sort array h = Some ((length h, steps), h ++ [l']))
    as (l' & steps & Hrun).
  { destruct Hsort as [->|[->| ->]].
    - destruct (bubble_sort_spec h array l Hh) as (l' & st & Hrun & _). eauto.
    - destruct (selection_sort_spec h array l Hh) as (l' & st & Hrun & _). eauto.
    - destruct (insertion_sort_spec h array l Hh) as (l' & st & Hrun & _). eauto. }
  pose proof (lookup_lt_Some _ _ _ Hh) as Hlt.
  exists (length h), steps, (h ++ [l']). split; [done|]. split; [lia|]. split.
  - by rewrite lookup_app_l.
  - intros p Hp. by rewrite lookup_app_l.
Qed.

End SortClaims.

(** ** Searching *)

(** The array of the worked example. *)
Definition example_array : list Z := [2; 5; 8; 12; 16; 23; 38; 45; 56].

Section SearchClaims.
Context {A : Type} `{PyOrd A} `{PyFormat A}.
Import Heap SortingAlgorithms SearchingAlgorithms.

(** C7: for every array, each sort works on a list object of its own:
    the caller's array, like every other list object that existed
    before the call, holds the same elements afterwards, and the result
    is a new object; each search returns with the heap exactly as it
    was. *)
Theorem sort_and_search_preserve_input (h : heap A) (array : loc) (l : list A)
    (target : A) :
  h !! array = Some l ->
  (forall sort,
     sort = bubble_sort \/ sort = selection_sort \/ sort = insertion_sort ->
     exists (arr : loc) (steps : list string) (h' : heap A),
       sort array h = Some ((arr, steps), h')
       /\ arr <> array
       /\ h' !! array = Some l
       /\ forall p, (p < length h)%nat -> h' !! p = h !! p)
  /\ (exists r, linear_search array target h = Some (r, h))
  /\ (exists r, binary_search array target h = Some (r, h)).
Proof.
  intros Hh. split; [|split].
  - intros sort Hsort. by apply (sorts_preserve_heap h array l).
  - rewrite (linear_search_run _ _ _ _ Hh). eauto.
  - destruct (binary_search_run h array l target Hh) as (r & Hr & _). eauto.
Qed.

(** C10: when the target occurs in the array more than once,
    [linear_search] returns the smallest index that holds it. *)
Theorem linear_search_first_occurrence (h : heap A) (array : loc) (l : list A)
    (target : A) (i j : nat) :
  h !! array = Some l ->
  i <> j ->
  l !! i = Some target ->
  l !! j = Some target ->
  exists (k : nat) (steps : list string),
    linear_search array target h = Some ((Z.of_nat k, steps), h)
    /\ l !! k = Some target
    /\ forall p, l !! p = Some target -> (k <= p)%nat.
Proof.
  intros Hh _ Hi _.
  destruct (first_occurrence l target) as (k & Hk & Hfirst).
  { apply list_elem_of_lookup. eauto. }
  destruct (linear_loop_first l 0 k target [] Hk Hfirst) as (steps & Hrun).
  exists k, steps. rewrite (linear_search_run _ _ _ _ Hh).
  unfold enumerate. rewrite Hrun. split; [done|]. split; [done|].
  intros p Hp. destruct (decide (k <= p)%nat); [done|].
  exfalso. apply (Hfirst p); [lia|done].
Qed.

End SearchClaims.

Import Heap SearchingAlgorithms.

(** C4, amended: [linear_search] on the example array with target 23
    returns index 5 with a trace of exactly 7 lines, six comparisons and
    the success line; for any target absent from an array it returns
    -1 and its trace ends with the failure line. *)
Theorem linear_search_example_and_absent :
  (forall (h : heap Z) (array : loc),
     h !! array = Some example_array ->
     exists steps,
       linear_search array 23 h = Some ((5, steps), h)
       /\ length steps = 7%nat
       /\ last steps = Some (found_line 5))
  /\ (forall (A : Type) (O : PyOrd A) (F : PyFormat A)
        (h : heap A) (array : loc) (l : list A) (target : A),
        h !! array = Some l ->
        target ∉ l ->
        exists steps,
          linear_search array target h = Some ((-1, steps), h)
          /\ last steps = Some not_found_line).
Proof.
  split.
  - intros h array Hh. rewrite (linear_search_run _ _ _ _ Hh).
    eexists. split; [reflexivity|]. split; reflexivity.
  - intros A O F h array l target Hh Hnot.
    rewrite (linear_search_run _ _ _ _ Hh).
    destruct (linear_loop_absent l 0 target [] Hnot) as (steps & Hrun & Hlast & _).
    exists steps. unfold enumerate. by rewrite Hrun.
Qed.

(** C5: [binary_search] on the example array with target 23 returns
    index 5, and its trace, of 6 lines, is strictly shorter than the
    trace of [linear_search] on the same array for any absent target. *)
Theorem binary_search_example (h : heap Z) (array : loc) :
  h !! array = Some example_array ->
  exists steps,
    binary_search array 23 h = Some ((5, steps), h)
    /\ length steps = 6%nat
    /\ forall target,
         target ∉ example_array ->
         exists linear_steps,
           linear_search array target h = Some ((-1, linear_steps), h)
           /\ (length steps < length linear_steps)%nat.
Proof.
  intros Hh.
  destruct (binary_search_run h array example_array 23 Hh) as ([k steps] & Hr & Hr0).
  vm_compute in Hr0. injection Hr0 as <- <-.
  eexists. split; [exact Hr|]. split; [reflexivity|].
  intros target Hnot. rewrite (linear_search_run _ _ _ _ Hh).
  destruct (linear_loop_absent example_array 0 target [] Hnot)
    as (lsteps & Hrun & _ & Hlen).
  exists lsteps. unfold enumerate. rewrite Hrun. split; [done|].
  rewrite Hlen. simpl. lia.
Qed.

(** ** Sets *)

Section SetClaims.
Context {T : Type} {T_eq : EqDecision T} {T_countable : Countable T}.
Import SetOperations.

(** C9: union is commutative, a set meets itself in itself, a set minus
    itself is empty, and a union has at most as many elements as its two
    sets together. *)
Theorem set_laws (set_a set_b : gset T) :
  union set_a set_b = union set_b set_a
  /\ intersection set_a set_a = set_a
  /\ difference set_a set_a = ∅
  /\ (cardinality (union set_a set_b) <= cardinality set_a + cardinality set_b)%nat.
Proof.
  unfold union, intersection, difference, cardinality.
  split; [apply union_comm_L|]. split; [apply intersection_idemp_L|].
  split; [apply difference_diag_L|].
  rewrite size_union_alt.
  assert (size (set_b ∖ set_a) <= size set_b)%nat; [|lia].
  apply subseteq_size, subseteq_difference_l. done.
Qed.

End SetClaims.

(** ** Radix conversion *)

Section ConvertClaims.
Import NumberSystemConverter DiscreteCalculatorApp.

(** The bases [convert] supports. *)
Definition bases : list Z := [2; 8; 10; 16].

(** The two halves of [convert]: into an integer, and out of it. *)
Definition to_decimal (from_base : Z) (value : string) : result Z :=
  if from_base =? 10 then PyStr.int value
  else if from_base =? 2 then binary_to_decimal value
  else if from_base =? 8 then octal_to_decimal value
  else if from_base =? 16 then hexadecimal_to_decimal value
  else Raise (UnsupportedBase from_base).

Definition from_decimal (to_base : Z) (decimal : Z) : result string :=
  if to_base =? 10 then PyStr.str decimal
  else if to_base =? 2 then Ok (decimal_to_binary decimal)
  else if to_base =? 8 then Ok (decimal_to_octal decimal)
  else if to_base =? 16 then Ok (decimal_to_hexadecimal decimal)
  else Raise (UnsupportedBase to_base).

Lemma convert_split (value : string) (from_base to_base : Z) :
  convert value from_base to_base
    = to_decimal from_base value ≫= from_decimal to_base.
Proof. reflexivity. Qed.

Lemma bases_cases (b : Z) : In b bases -> b = 2 \/ b = 8 \/ b = 10 \/ b = 16.
Proof. unfold bases. simpl. intuition. Qed.

(** What [from_decimal] wrote is read back by [to_decimal]. *)
Lemma from_to_decimal (base decimal : Z) (s : string) :
  In base bases ->
  from_decimal base decimal = Ok s ->
  to_decimal base s = Ok decimal.
Proof.
  intros [->|[->|[->| ->]]]%bases_cases; unfold from_decimal, to_decimal;
    cbn [Z.eqb Pos.eqb].
  - intros [= <-]. apply binary_parse_render.
  - intros [= <-]. apply octal_parse_render.
  - apply decimal_parse_render.
  - intros [= <-]. apply hexadecimal_parse_render.
Qed.

(** [from_decimal] writes every integer in bases 2, 8 and 16, and in
    base 10 those within the digit limit. *)
Lemma from_decimal_returns (base decimal : Z) :
  In base bases ->
  (base = 10 -> Z.abs decimal < 10 ^ PyStr.int_max_str_digits) ->
  exists s, from_decimal base decimal = Ok s.
Proof.
  intros [->|[->|[->| ->]]]%bases_cases Hlimit; unfold from_decimal;
    cbn [Z.eqb Pos.eqb]; eauto.
  rewrite str_within by auto. eauto.
Qed.

(** What [to_decimal] read from a valid literal is written back, in
    the base of the literal, as its normal form. *)
Lemma to_from_decimal (base : Z) (L : string) (decimal : Z) :
  In base bases ->
  Literal.valid base L = true ->
  (base = 10 -> Literal.digits L <> "") ->
  to_decimal base L = Ok decimal ->
  from_decimal base decimal = Ok (Literal.normal_form L).
Proof.
  intros [->|[->|[->| ->]]]%bases_cases Hvalid Hne; unfold from_decimal, to_decimal;
    cbn [Z.eqb Pos.eqb]; intros Hto.
  - destruct (binary_render_parse L Hvalid) as (d & Hd & Hn).
    rewrite Hd in Hto. injection Hto as <-. by rewrite Hn.
  - destruct (octal_render_parse L Hvalid) as (d & Hd & Hn).
    rewrite Hd in Hto. injection Hto as <-. by rewrite Hn.
  - destruct (decimal_parse_normal L decimal Hvalid (Hne eq_refl) Hto)
      as (_ & Hn & Hlimit).
    by rewrite str_within, Hn.
  - destruct (hexadecimal_render_parse L Hvalid) as (d & Hd & Hn).
    rewrite Hd in Hto. injection Hto as <-. by rewrite Hn.
Qed.

(** [to_decimal] reads every valid literal of bases 2, 8 and 16, and
    in base 10 those that have a digit and are within the digit
    limit. *)
Lemma to_decimal_returns (base : Z) (L : string) :
  In base bases ->
  Literal.valid base L = true ->
  (base = 10 -> Literal.digits L <> "") ->
  (base = 10 ->
   Z.of_nat (String.length (Literal.digits L)) <= PyStr.int_max_str_digits) ->
  exists decimal, to_decimal base L = Ok decimal.
Proof.
  intros [->|[->|[->| ->]]]%bases_cases Hvalid Hne Hlen; unfold to_decimal;
    cbn [Z.eqb Pos.eqb].
  - destruct (binary_render_parse L Hvalid) as (d & Hd & _). eauto.
  - destruct (octal_render_parse L Hvalid) as (d & Hd & _). eauto.
  - apply decimal_render_parse; auto.
  - destruct (hexadecimal_render_parse L Hvalid) as (d & Hd & _). eauto.
Qed.

(** C1, amended: for every pair of bases [b], [c] in 2, 8, 10, 16 and
    every valid literal [L] of base [b] (with at least one digit when
    [b] is 10), whenever converting [L] from [b] to [c] returns a
    result, converting that result back gives the normal form of [L]:
    its digits in upper case without leading zeros, ["0"] when the
    value is zero, and the sign kept on any other value. The first
    conversion returns a result unless the limit of 4300 decimal digits
    is passed: by the digits of [L] when [b] is 10, by the decimal
    writing of its value when [c] is 10. *)
Theorem convert_round_trip (L : string) (b c : Z) :
  In b bases ->
  In c bases ->
  Literal.valid b L = true ->
  (b = 10 -> Literal.digits L <> "") ->
  (forall r,
     convert L b c = Ok r ->
     convert r c b = Ok (Literal.normal_form L))
  /\ ((b = 10 ->
       Z.of_nat (String.length (Literal.digits L)) <= PyStr.int_max_str_digits) ->
      (c = 10 ->
       forall decimal,
         to_decimal b L = Ok decimal ->
         Z.abs decimal < 10 ^ PyStr.int_max_str_digits) ->
      exists r, convert L b c = Ok r).
Proof.
  intros Hb Hc Hvalid Hne. split.
  - intros r. rewrite !convert_split.
    destruct (to_decimal b L) as [d|e] eqn:Hto; [|done].
    change (Ok d ≫= from_decimal c) with (from_decimal c d). intros Hr.
    rewrite (from_to_decimal c d r Hc Hr).
    change (Ok d ≫= from_decimal b) with (from_decimal b d).
    by apply to_from_decimal.
  - intros Hlen Hvalue.
    destruct (to_decimal_returns b L Hb Hvalid Hne Hlen) as [d Hto].
    destruct (from_decimal_returns c d Hc) as [r Hr].
    { intros Hc10. by apply Hvalue. }
    exists r. by rewrite convert_split, Hto.
Qed.

(** C3, amended: on a literal that is empty after whitespace
    stripping, [convert] raises when the base is 10, and when the base
    is 2, 8 or 16 and the literal holds a whitespace character other
    than the space, which is then the digit the error names; a literal
    of base 2, 8 or 16 that is empty or made of spaces is not refused:
    [convert] returns ["0"]. *)
Theorem convert_empty_literal (value : string) (from_base to_base : Z) :
  PyStr.strip value = "" ->
  In from_base bases ->
  In to_base bases ->
  (from_base = 10 ->
   convert value from_base to_base = Raise (InvalidLiteral value))
  /\ (from_base <> 10 ->
      PyStr.remove_spaces value = "" ->
      convert value from_base to_base = Ok "0")
  /\ (from_base <> 10 ->
      PyStr.remove_spaces value <> "" ->
      exists (system : string) (c : ascii),
        PyStr.is_space c = true
        /\ c <> " "%char
        /\ convert value from_base to_base = Raise (InvalidDigit system c)).
Proof.
  intros Hstrip%strip_empty Hfrom Hto. split; [|split].
  - intros ->. rewrite convert_split. unfold to_decimal. cbn [Z.eqb Pos.eqb].
    by rewrite int_whitespace.
  - intros Hne Hspaces. rewrite convert_split.
    assert (to_decimal from_base value = Ok 0) as ->.
    { apply bases_cases in Hfrom as [->|[->|[->| ->]]]; try done;
        unfold to_decimal; cbn [Z.eqb Pos.eqb].
      - unfold binary_to_decimal. by rewrite Hspaces.
      - unfold octal_to_decimal. by rewrite Hspaces.
      - unfold hexadecimal_to_decimal. by rewrite Hspaces. }
    by apply bases_cases in Hto as [->|[->|[->| ->]]].
  - intros Hne Hspaces.
    destruct (string_last _ Hspaces) as (s1 & c & Hlast).
    pose proof (remove_spaces_Forall _ _ Hstrip) as Hall.
    assert (PyStr.is_space c = true /\ c <> " "%char) as [Hc Hcne].
    { rewrite Hlast, list_of_append in Hall.
      apply Forall_app in Hall as [_ Hall]. by apply Forall_inv in Hall. }
    destruct (space_invalid c Hc) as (Hc2 & Hc8 & Hc16 & _ & _).
    assert (Literal.digits (PyStr.remove_spaces value) = PyStr.remove_spaces value)
      as Hdigits.
    { unfold Literal.digits. destruct (PyStr.remove_spaces value) as [|d r]; [done|].
      apply Forall_inv in Hall as [Hd _].
      destruct (space_invalid d Hd) as (_ & _ & _ & Hminus & _).
      destruct d as [[] [] [] [] [] [] [] []]; done. }
    assert (PyStr.upper (PyStr.remove_spaces value) = PyStr.remove_spaces value)
      as Hupper.
    { apply upper_id. eapply Forall_impl; [exact Hall|].
      intros d [Hd _]. by destruct (space_invalid d Hd) as (_ & _ & _ & _ & ?). }
    rewrite convert_split.
    apply bases_cases in Hfrom as [->|[->|[->| ->]]]; try done;
      unfold to_decimal; cbn [Z.eqb Pos.eqb].
    + exists "binary", c. split; [done|]. split; [done|].
      change (binary_to_decimal value)
        with (parse binary_to_decimal_loop (PyStr.remove_spaces value)).
      rewrite (parse_last_invalid 2 PyStr.digit_value binary_valid _
                 (InvalidDigit "binary") binary_loop_cons _ s1 "" c);
        [done|by rewrite Hdigits|done|constructor].
    + exists "octal", c. split; [done|]. split; [done|].
      change (octal_to_decimal value)
        with (parse octal_to_decimal_loop (PyStr.remove_spaces value)).
      rewrite (parse_last_invalid 8 PyStr.digit_value octal_valid _
                 (InvalidDigit "octal") octal_loop_cons _ s1 "" c);
        [done|by rewrite Hdigits|done|constructor].
    + exists "hexadecimal", c. split; [done|]. split; [done|].
      change (hexadecimal_to_decimal value)
        with (parse hexadecimal_to_decimal_loop
                (PyStr.upper (PyStr.remove_spaces value))).
      rewrite (parse_last_invalid 16 hexadecimal_value hexadecimal_valid _
                 (InvalidDigit "hexadecimal") hexadecimal_loop_cons _ s1 "" c);
        [done|by rewrite Hupper, Hdigits|done|constructor].
Qed.

(** C8, amended: a base-10 literal with a leading [+] in front of its
    digits is accepted: it converts exactly as the same digits without
    it, to the same result when the digits are within the limit of
    4300, and to the same error beyond; in bases 2, 8 and 16 a leading
    [+] makes [convert] raise. *)
Theorem convert_plus_prefix (s : string) (from_base to_base : Z) :
  In from_base bases ->
  In to_base bases ->
  (from_base = 10 ->
   Forall (fun c => PyStr.is_digit c = true) (list_ascii_of_string s) ->
   s <> "" ->
   convert (String "+" s) from_base to_base = convert s from_base to_base
   /\ (Z.of_nat (String.length s) <= PyStr.int_max_str_digits ->
       exists r,
         convert (String "+" s) from_base to_base = Ok r
         /\ convert s from_base to_base = Ok r))
  /\ (from_base <> 10 ->
      exists e, convert (String "+" s) from_base to_base = Raise e).
Proof.
  intros Hfrom Hto. split.
  - intros -> Hdigits Hne. rewrite !convert_split. unfold to_decimal.
    cbn [Z.eqb Pos.eqb].
    rewrite int_plus_digits, int_digits_only by done. split; [done|].
    intros Hlen. rewrite int_of_digits_within by done.
    destruct (from_decimal_returns to_base
                (1 * value_of 10 PyStr.digit_value (list_ascii_of_string s)) Hto)
      as [r Hr].
    { intros _. pose proof (digits_value_limit s Hdigits Hlen). lia. }
    by exists r.
  - intros Hne. rewrite convert_split.
    assert (exists e, to_decimal from_base (String "+" s) = Raise e) as [e ->].
    { apply bases_cases in Hfrom as [->|[->|[->| ->]]]; try done;
        unfold to_decimal; cbn [Z.eqb Pos.eqb].
      - change (binary_to_decimal ?v)
          with (parse binary_to_decimal_loop (PyStr.remove_spaces v)).
        simpl PyStr.remove_spaces.
        eapply parse_invalid_first; eauto using binary_loop_cons.
      - change (octal_to_decimal ?v)
          with (parse octal_to_decimal_loop (PyStr.remove_spaces v)).
        simpl PyStr.remove_spaces.
        eapply parse_invalid_first; eauto using octal_loop_cons.
      - change (hexadecimal_to_decimal ?v)
          with (parse hexadecimal_to_decimal_loop
                  (PyStr.upper (PyStr.remove_spaces v))).
        simpl PyStr.remove_spaces. simpl PyStr.upper.
        eapply parse_invalid_first; eauto using hexadecimal_loop_cons. }
    eauto.
Qed.

End ConvertClaims.

(** ** Checking the claims on inputs *)

Section SortedCheck.
Context {A : Type} `{PyOrd A}.

(** A test for [non_decreasing]: no element is below its left
    neighbour. *)
Fixpoint is_sorted (l : list A) : bool :=
  match l with
  | x :: (y :: _) as r => negb (py_ltb y x) && is_sorted r
  | _ => true
  end.

Lemma is_sorted_non_decreasing (l : list A) :
  is_sorted l = true -> non_decreasing l.
Proof.
  induction l as [|x l IH]; intros Hs p q Hpq a b Ha Hb.
  - done.
  - destruct l as [|y r].
    + destruct p, q; try done. simpl in Ha, Hb.
      injection Ha as <-. injection Hb as <-. apply le_refl.
    + cbn [is_sorted] in Hs. apply andb_true_iff in Hs as [Hxy Hr].
      apply negb_true_iff in Hxy. specialize (IH Hr).
      destruct p as [|p], q as [|q]; try lia.
      * simpl in Ha, Hb. injection Ha as <-. injection Hb as <-. apply le_refl.
      * simpl in Ha. injection Ha as <-.
        apply (le_trans x y b); [exact Hxy|].
        apply (IH 0%nat q); [lia|done|done].
      * apply (IH p q); [lia|done|done].
Qed.

End SortedCheck.

Import Heap SortingAlgorithms SearchingAlgorithms NumberSystemConverter.
Import DiscreteCalculatorApp SetOperations.

(** The conversions the specification lists. *)
Example convert_examples :
  convert "255" 10 16 = Ok "FF"
  /\ convert "FF" 16 2 = Ok "11111111"
  /\ convert "-10" 10 2 = Ok "-1010".
Proof. repeat split; reflexivity. Qed.

(** The sort the specification lists. *)
Example bubble_sort_example :
  exists steps,
    bubble_sort 0%nat [[64; 34; 25; 12; 22; 11; 90]]
      = Some ((1%nat, steps),
              [[64; 34; 25; 12; 22; 11; 90]; [11; 12; 22; 25; 34; 64; 90]]).
Proof. eexists. reflexivity. Qed.

(** An array of strings is sorted in the order of its characters. *)
Example selection_sort_strings :
  exists steps,
    selection_sort 0%nat [["pear"; "apple"; "fig"]]
      = Some ((1%nat, steps), [["pear"; "apple"; "fig"]; ["apple"; "fig"; "pear"]])
    /\ last steps = Some (newline +:+ "Final sorted array: ['apple', 'fig', 'pear']").
Proof. eexists. split; reflexivity. Qed.

(** The digit limit at its edge: a run of 4300 digits is read and one
    of 4301 is refused, with or without what follows it; the largest
    integer [str] writes is [10 ^ 4300 - 1]. *)
Definition ones (n : nat) : string := string_of_list_ascii (repeat "1"%char n).

Lemma ones_digits (n : nat) :
  Forall (fun c => PyStr.is_digit c = true) (list_ascii_of_string (ones n))
  /\ String.length (ones n) = n.
Proof.
  unfold ones. induction n as [|n [IHdigits IHlength]]; [by split|].
  cbn [repeat string_of_list_ascii list_ascii_of_string String.length].
  split; [by constructor|by rewrite IHlength].
Qed.

Example digit_limit_examples :
  (exists n, PyStr.int (ones 4300) = Ok n)
  /\ PyStr.int (ones 4301) = Raise (IntDigitLimit 4301)
  /\ convert (ones 4301 +:+ "x") 10 2 = Raise (IntDigitLimit 4301)
  /\ (exists s, PyStr.str (10 ^ 4300 - 1) = Ok s)
  /\ PyStr.str (10 ^ 4300) = Raise StrDigitLimit
  /\ convert "1" 10 10 = Ok "1".
Proof.
  assert (0 < 10 ^ 4300) as Hpos by (by apply Z.pow_pos_nonneg).
  split; [|split; [|split; [|split; [|split]]]].
  - destruct (ones_digits 4300) as [Hdigits Hlength].
    rewrite int_digits_only, int_of_digits_within; [by eexists| |done|].
    + rewrite Hlength. done.
    + intros Hempty. by rewrite Hempty in Hlength.
  - destruct (ones_digits 4301) as [Hdigits Hlength].
    rewrite int_digits_only; [|done|].
    + unfold int_of_digits. rewrite Hlength. reflexivity.
    + intros Hempty. by rewrite Hempty in Hlength.
  - destruct (ones_digits 4301) as [Hdigits Hlength].
    rewrite convert_split. unfold to_decimal. cbn [Z.eqb Pos.eqb].
    rewrite int_digits_then; [|done| |done].
    + rewrite Hlength. reflexivity.
    + intros Hempty. by rewrite Hempty in Hlength.
  - rewrite str_within; [by eexists|].
    change PyStr.int_max_str_digits with 4300.
    set (p := 10 ^ 4300) in *. clearbody p. lia.
  - apply str_beyond. change PyStr.int_max_str_digits with 4300.
    set (p := 10 ^ 4300) in *. clearbody p. lia.
  - reflexivity.
Qed.

(** C1 as stated fails on a lower-case literal of base 16: ["ff"] comes
    back as ["FF"], which is not what stripping zeros and keeping the
    sign gives. *)
Lemma convert_round_trip_counterexample :
  Literal.valid 16 "ff" = true
  /\ exists r,
       convert "ff" 16 10 = Ok r
       /\ convert r 10 16 <> Ok (Literal.normalize "ff").
Proof.
  split; [reflexivity|]. exists "255". split; [reflexivity|].
  vm_compute. intros Heq. discriminate Heq.
Qed.

(** The two other places where the code departs from the wording: the
    sign of a zero, and a literal of base 10 without digits. *)
Example convert_round_trip_zero_and_empty :
  (convert "-0" 2 10 ≫= fun r => convert r 10 2) = Ok "0"
  /\ Literal.normalize "-0" = "-0"
  /\ Literal.valid 10 "" = true
  /\ convert "" 10 2 = Raise (InvalidLiteral "").
Proof. repeat split; reflexivity. Qed.

Lemma convert_round_trip_witness :
  (forall r,
     convert "-00ff" 16 10 = Ok r ->
     convert r 10 16 = Ok (Literal.normal_form "-00ff"))
  /\ exists r, convert "-00ff" 16 10 = Ok r.
Proof.
  destruct (convert_round_trip "-00ff" 16 10) as [Hback Hreturns].
  - right. right. right. left. reflexivity.
  - right. right. left. reflexivity.
  - reflexivity.
  - intros Heq. discriminate Heq.
  - split; [exact Hback|]. apply Hreturns.
    + intros Heq. discriminate Heq.
    + intros _ decimal Hto. vm_compute in Hto. injection Hto as <-.
      vm_compute. reflexivity.
Defined.

Lemma sorts_return_sorted_permutation_witness :
  exists (sorted : list Z) (bubble_steps selection_steps insertion_steps : list string),
    bubble_sort 0%nat [[3; 1; 2]]
      = Some ((length [[3; 1; 2]], bubble_steps), [[3; 1; 2]] ++ [sorted])
    /\ selection_sort 0%nat [[3; 1; 2]]
       = Some ((length [[3; 1; 2]], selection_steps), [[3; 1; 2]] ++ [sorted])
    /\ insertion_sort 0%nat [[3; 1; 2]]
       = Some ((length [[3; 1; 2]], insertion_steps), [[3; 1; 2]] ++ [sorted])
    /\ sorted ≡ₚ [3; 1; 2]
    /\ non_decreasing sorted.
Proof.
  apply (sorts_return_sorted_permutation [[3; 1; 2]] 0%nat [3; 1; 2]).
  reflexivity.
Defined.

(** C3 as stated fails for base 2: the empty literal is converted. *)
Lemma convert_empty_literal_counterexample :
  PyStr.strip "" = "" /\ convert "" 2 10 = Ok "0".
Proof. split; reflexivity. Qed.

Lemma convert_empty_literal_witness :
  convert "  " 2 10 = Ok "0"
  /\ exists (system : string) (c : ascii),
       PyStr.is_space c = true
       /\ c <> " "%char
       /\ convert (String "009" " ") 2 10 = Raise (InvalidDigit system c).
Proof.
  split.
  - destruct (convert_empty_literal "  " 2 10) as (_ & Hspaces & _).
    + reflexivity.
    + left. reflexivity.
    + right. right. left. reflexivity.
    + apply Hspaces; [intros Heq; discriminate Heq|reflexivity].
  - destruct (convert_empty_literal (String "009" " ") 2 10) as (_ & _ & Hother).
    + reflexivity.
    + left. reflexivity.
    + right. right. left. reflexivity.
    + apply Hother; intros Heq; discriminate Heq.
Defined.

(** C4 as stated fails on the length of the trace: the success line is
    the seventh line. *)
Lemma linear_search_example_counterexample :
  exists steps h',
    linear_search 0%nat 23 [example_array] = Some ((5, steps), h')
    /\ length steps <> 6%nat.
Proof. eexists _, _. split; [reflexivity|]. simpl. lia. Qed.

Lemma linear_search_example_and_absent_witness :
  (exists steps,
     linear_search 0%nat 23 [example_array] = Some ((5, steps), [example_array])
     /\ length steps = 7%nat
     /\ last steps = Some (found_line 5))
  /\ (exists steps,
        linear_search 0%nat 24 [example_array] = Some ((-1, steps), [example_array])
        /\ last steps = Some not_found_line).
Proof.
  destruct linear_search_example_and_absent as [Hfound Habsent]. split.
  - apply Hfound. reflexivity.
  - apply (Habsent Z _ _ [example_array] 0%nat example_array 24); [reflexivity|].
    unfold example_array. intros Hin.
    repeat (apply elem_of_cons in Hin as [Hin|Hin]; [discriminate Hin|]).
    by apply elem_of_nil in Hin.
Defined.

Lemma binary_search_example_witness :
  exists steps,
    binary_search 0%nat 23 [example_array] = Some ((5, steps), [example_array])
    /\ length steps = 6%nat
    /\ forall target,
         target ∉ example_array ->
         exists linear_steps,
           linear_search 0%nat target [example_array]
             = Some ((-1, linear_steps), [example_array])
           /\ (length steps < length linear_steps)%nat.
Proof. apply (binary_search_example [example_array] 0%nat). reflexivity. Defined.

(** C6 as stated fails on the empty array, which is sorted: its trace
    has no pass header and no "no swaps needed" line. *)
Lemma bubble_sort_sorted_input_counterexample :
  non_decreasing ([] : list Z)
  /\ exists steps h',
       bubble_sort 0%nat [[] : list Z] = Some ((1%nat, steps), h')
       /\ pass_count steps = 0%nat
       /\ ~ In no_swaps_line steps.
Proof.
  split; [by apply is_sorted_non_decreasing|].
  eexists _, _. split; [reflexivity|]. split; [reflexivity|].
  simpl. intros [Heq|[Heq|[]]]; discriminate Heq.
Qed.

Lemma bubble_sort_sorted_input_witness :
  exists steps : list string,
    bubble_sort 0%nat [[1; 2; 3]] = Some ((length [[1; 2; 3]], steps), [[1; 2; 3]] ++ [[1; 2; 3]])
    /\ steps = [ "Starting array: " +:+ format_list [1; 2; 3];
                 newline +:+ "Pass 1:";
                 no_swaps_line;
                 newline +:+ "Final sorted array: " +:+ format_list [1; 2; 3] ]
    /\ pass_count steps = 1%nat
    /\ In no_swaps_line steps.
Proof.
  apply (bubble_sort_sorted_input [[1; 2; 3]] 0%nat [1; 2; 3]).
  - reflexivity.
  - intros Heq. discriminate Heq.
  - by apply is_sorted_non_decreasing.
Defined.

Lemma sort_and_search_preserve_input_witness :
  (exists (arr : nat) (steps : list string) (h' : list (list Z)),
     insertion_sort 0%nat [[3; 1; 2]] = Some ((arr, steps), h')
     /\ arr <> 0%nat
     /\ h' !! 0%nat = Some [3; 1; 2]
     /\ forall p, (p < length [[3; 1; 2]])%nat -> h' !! p = [[3; 1; 2]] !! p)
  /\ (exists r, linear_search 0%nat 2 [[3; 1; 2]] = Some (r, [[3; 1; 2]]))
  /\ (exists r, binary_search 0%nat 2 [[3; 1; 2]] = Some (r, [[3; 1; 2]])).
Proof.
  destruct (sort_and_search_preserve_input [[3; 1; 2]] 0%nat [3; 1; 2] 2)
    as (Hsort & Hlinear & Hbinary); [reflexivity|].
  split; [|split; [exact Hlinear|exact Hbinary]].
  apply Hsort. right. right. reflexivity.
Defined.

(** C8 as stated fails: ["+5"] in base 10 is converted. *)
Lemma convert_plus_prefix_counterexample : convert "+5" 10 2 = Ok "101".
Proof. reflexivity. Qed.

Lemma convert_plus_prefix_witness :
  (convert "+5" 10 2 = convert "5" 10 2
   /\ exists r, convert "+5" 10 2 = Ok r /\ convert "5" 10 2 = Ok r)
  /\ (exists e, convert "+5" 2 10 = Raise e).
Proof.
  split.
  - destruct (proj1 (convert_plus_prefix "5" 10 2
                       ltac:(right; right; left; reflexivity)
                       ltac:(left; reflexivity))) as [Hsame Hreturns].
    + reflexivity.
    + repeat constructor.
    + intros Heq. discriminate Heq.
    + split; [exact Hsame|]. apply Hreturns. vm_compute. discriminate.
  - apply (proj2 (convert_plus_prefix "5" 2 10
                    ltac:(left; reflexivity)
                    ltac:(right; right; left; reflexivity))).
    intros Heq. discriminate Heq.
Defined.

Lemma linear_search_first_occurrence_witness :
  exists (k : nat) (steps : list string),
    linear_search 0%nat 3 [[5; 3; 7; 3]] = Some ((Z.of_nat k, steps), [[5; 3; 7; 3]])
    /\ [5; 3; 7; 3] !! k = Some 3
    /\ forall p, [5; 3; 7; 3] !! p = Some 3 -> (k <= p)%nat.
Proof.
  apply (linear_search_first_occurrence [[5; 3; 7; 3]] 0%nat [5; 3; 7; 3] 3 1%nat 3%nat).
  - reflexivity.
  - lia.
  - reflexivity.
  - reflexivity.
Defined.

(** * Further properties of the code *)

(** ** What the rendering loops write *)

Section RenderShape.
Variable base : Z.
Variable Hbase : (1 <? base) = true.
Variable digit : Z -> string.
Variable value : ascii -> Z.
Variable valid : ascii -> bool.

Hypothesis digit_valid : forall d,
  0 <= d < base -> exists c, digit d = String c "" /\ valid c = true /\ value c = d.
Hypothesis zero_char : forall c,
  valid c = true -> (value c = 0 <-> c = "0"%char).
Hypothesis valid_not_minus : forall c, valid c = true -> c <> "-"%char.

(** After its sign, what [render] writes is a non-empty run of digits of
    the alphabet. *)
Lemma render_digits (decimal : Z) :
  Forall (fun c => valid c = true)
    (list_ascii_of_string (Literal.digits (render base Hbase digit decimal)))
  /\ Literal.digits (render base Hbase digit decimal) <> "".
Proof.
  unfold render. destruct (Z.eqb_spec decimal 0) as [->|Hne].
  - split; [|done]. simpl. constructor; [|constructor].
    by apply (valid_zero base Hbase digit value valid).
  - destruct (digits_loop_value base Hbase digit value valid digit_valid
                (Z.abs decimal)) as [Hvalid Hvalue]; [lia|].
    assert (PyStr.digits_loop base Hbase digit (Z.abs decimal) "" <> "")
      as Hnonempty.
    { intros Hempty. rewrite Hempty in Hvalue. simpl in Hvalue. lia. }
    destruct (decimal >=? 0).
    + unfold Literal.digits.
      by rewrite (valid_no_minus valid valid_not_minus).
    + done.
Qed.

End RenderShape.

Section ValueFacts.

Lemma value_of_ext (base : Z) (v1 v2 : ascii -> Z) (cs : list ascii) :
  Forall (fun c => v1 c = v2 c) cs -> value_of base v1 cs = value_of base v2 cs.
Proof.
  induction 1 as [|c cs Hc _ IH]; [done|]. simpl. by rewrite Hc, IH.
Qed.

Lemma literal_value_ext (base : Z) (v1 v2 : ascii -> Z) (U : string) :
  Forall (fun c => v1 c = v2 c) (list_ascii_of_string (Literal.digits U)) ->
  literal_value base v1 U = literal_value base v2 U.
Proof.
  intros Hext. unfold literal_value. by rewrite (value_of_ext base v1 v2).
Qed.

End ValueFacts.

(** ** Radix conversion, further *)

Section ConvertFacts.

Lemma from_decimal_Ok (to_base decimal : Z) (r : string) :
  from_decimal to_base decimal = Ok r -> In to_base bases.
Proof.
  unfold from_decimal, bases. simpl.
  destruct (Z.eqb_spec to_base 10); [auto|].
  destruct (Z.eqb_spec to_base 2); [auto|].
  destruct (Z.eqb_spec to_base 8); [auto|].
  destruct (Z.eqb_spec to_base 16); [auto 6|]. done.
Qed.

Lemma convert_Ok (value : string) (from_base to_base : Z) (r : string) :
  convert value from_base to_base = Ok r ->
  exists decimal,
    to_decimal from_base value = Ok decimal
    /\ from_decimal to_base decimal = Ok r.
Proof.
  rewrite convert_split.
  destruct (to_decimal from_base value) as [d|e]; [|done]. eauto.
Qed.

Lemma to_decimal_rendered (to_base decimal : Z) (r : string) :
  from_decimal to_base decimal = Ok r -> to_decimal to_base r = Ok decimal.
Proof.
  intros Hr. apply from_to_decimal; [|done]. by eapply from_decimal_Ok.
Qed.

Lemma alphabet_valid (base : Z) (valid : ascii -> bool) (s : string) :
  (forall c, valid c = true -> PyStr.contains c (Literal.alphabet base) = true) ->
  Forall (fun c => valid c = true) (list_ascii_of_string (Literal.digits s)) ->
  Literal.valid base s = true.
Proof.
  intros Hsub Hvalid. unfold Literal.valid.
  apply forallb_forall. intros c Hc.
  apply Hsub. by eapply (proj1 (List.Forall_forall _ _) Hvalid).
Qed.

Lemma hexadecimal_in_alphabet c :
  hexadecimal_valid c = true -> PyStr.contains c (Literal.alphabet 16) = true.
Proof.
  rewrite hexadecimal_valid_contains. intros Hc.
  apply contains_In in Hc; simpl in Hc;
    repeat (destruct Hc as [<-|Hc]); [..|contradiction]; reflexivity.
Qed.

(** What [from_decimal] writes is a valid literal of the base, with at
    least one digit. *)
Lemma from_decimal_valid (to_base decimal : Z) (r : string) :
  from_decimal to_base decimal = Ok r ->
  Literal.valid to_base r = true /\ Literal.digits r <> "".
Proof.
  intros Hr. pose proof (from_decimal_Ok _ _ _ Hr) as Hin.
  apply bases_cases in Hin as [->|[->|[->| ->]]];
    unfold from_decimal in Hr; cbn [Z.eqb Pos.eqb] in Hr;
    [injection Hr as <-|injection Hr as <-|apply str_Ok in Hr as [-> _]
    |injection Hr as <-].
  - destruct (render_digits 2 eq_refl (fun d => PyStr.decimal_string d) PyStr.digit_value
                binary_valid binary_digit_valid binary_zero_char
                binary_not_minus decimal) as [Hvalid Hne].
    split; [|exact Hne]. by apply (alphabet_valid 2 binary_valid).
  - destruct (render_digits 8 eq_refl (fun d => PyStr.decimal_string d) PyStr.digit_value
                octal_valid octal_digit_valid octal_zero_char
                octal_not_minus decimal) as [Hvalid Hne].
    split; [|exact Hne]. by apply (alphabet_valid 8 octal_valid).
  - destruct (render_digits 10 eq_refl PyStr.digit_char PyStr.digit_value
                PyStr.is_digit decimal_digit_valid decimal_zero_char
                decimal_not_minus decimal) as [Hvalid Hne].
    split; [|exact Hne]. apply (alphabet_valid 10 PyStr.is_digit); [|done].
    intros c Hc. by rewrite <- is_digit_contains.
  - destruct (render_digits 16 eq_refl (fun d => PyStr.item hex_chars d)
                hexadecimal_value hexadecimal_valid hexadecimal_digit_valid
                hexadecimal_zero_char hexadecimal_not_minus decimal)
      as [Hvalid Hne].
    split; [|exact Hne]. apply (alphabet_valid 16 hexadecimal_valid); [|done].
    apply hexadecimal_in_alphabet.
Qed.

(** X1: reading back what was written gives the integer back, for each
    of the three pairs of digit loops at every integer, negative ones
    included, and for the built-in pair wherever [str] returns, which
    it does for the integers below [10 ^ 4300] in absolute value and
    for no other. *)
Theorem decode_encode (decimal : Z) :
  binary_to_decimal (decimal_to_binary decimal) = Ok decimal
  /\ octal_to_decimal (decimal_to_octal decimal) = Ok decimal
  /\ hexadecimal_to_decimal (decimal_to_hexadecimal decimal) = Ok decimal
  /\ (forall s, PyStr.str decimal = Ok s -> PyStr.int s = Ok decimal)
  /\ (Z.abs decimal < 10 ^ PyStr.int_max_str_digits ->
      exists s, PyStr.str decimal = Ok s)
  /\ (10 ^ PyStr.int_max_str_digits <= Z.abs decimal ->
      PyStr.str decimal = Raise StrDigitLimit).
Proof.
  split; [apply binary_parse_render|].
  split; [apply octal_parse_render|].
  split; [apply hexadecimal_parse_render|].
  split; [apply decimal_parse_render|].
  split; [|apply str_beyond].
  intros Hlimit. rewrite str_within by done. eauto.
Qed.

(** X2: conversions compose: whenever [convert] returns a result, that
    result converts on to any third base as the original literal does,
    errors included. *)
Theorem convert_compose (value : string) (b c d : Z) (r : string) :
  convert value b c = Ok r ->
  convert r c d = convert value b d.
Proof.
  intros (n & Hto & Hfrom)%convert_Ok.
  rewrite !convert_split, Hto. by rewrite (to_decimal_rendered c n r).
Qed.

(** X3: whatever [convert] returns is a valid literal of the target
    base, has at least one digit, and is in normal form: upper case, no
    leading zero, no sign on zero. *)
Theorem convert_output_normal (value : string) (b c : Z) (r : string) :
  convert value b c = Ok r ->
  Literal.valid c r = true
  /\ Literal.digits r <> ""
  /\ Literal.normal_form r = r.
Proof.
  intros (n & Hto & Hfrom)%convert_Ok.
  destruct (from_decimal_valid c n r Hfrom) as [Hvalid Hne].
  split; [done|]. split; [done|].
  pose proof (from_decimal_Ok _ _ _ Hfrom) as Hin.
  pose proof (to_from_decimal c r n Hin Hvalid (fun _ => Hne)
                (to_decimal_rendered c n r Hfrom)) as Hfrom'.
  rewrite Hfrom in Hfrom'. by injection Hfrom'.
Qed.

(** X4: converting a valid literal to its own base puts it in normal
    form; in base 10 the literal must be within the limit of 4300
    digits, leading zeros counted. *)
Theorem convert_same_base (L : string) (b : Z) :
  In b bases ->
  Literal.valid b L = true ->
  (b = 10 -> Literal.digits L <> "") ->
  (b = 10 ->
   Z.of_nat (String.length (Literal.digits L)) <= PyStr.int_max_str_digits) ->
  convert L b b = Ok (Literal.normal_form L).
Proof.
  intros Hb Hvalid Hne Hlen.
  destruct (to_decimal_returns b L Hb Hvalid Hne Hlen) as [n Hto].
  rewrite convert_split, Hto. by apply to_from_decimal.
Qed.

(** X5: two valid literals of a base that convert to the same result
    have the same normal form: [convert] never sends two different
    numbers to one output. *)
Theorem convert_injective (L1 L2 : string) (b c : Z) (r : string) :
  In b bases ->
  Literal.valid b L1 = true ->
  Literal.valid b L2 = true ->
  (b = 10 -> Literal.digits L1 <> "" /\ Literal.digits L2 <> "") ->
  convert L1 b c = Ok r ->
  convert L2 b c = Ok r ->
  Literal.normal_form L1 = Literal.normal_form L2.
Proof.
  intros Hb Hv1 Hv2 Hne (n1 & Hto1 & Hfrom1)%convert_Ok (n2 & Hto2 & Hfrom2)%convert_Ok.
  assert (n1 = n2) as <-.
  { apply to_decimal_rendered in Hfrom1, Hfrom2.
    rewrite Hfrom1 in Hfrom2. by injection Hfrom2. }
  pose proof (to_from_decimal b L1 n1 Hb Hv1
                (fun Hb10 => proj1 (Hne Hb10)) Hto1) as Hn1.
  pose proof (to_from_decimal b L2 n1 Hb Hv2
                (fun Hb10 => proj2 (Hne Hb10)) Hto2) as Hn2.
  rewrite Hn1 in Hn2. by injection Hn2.
Qed.

(** X6: a base outside 2, 8, 10, 16 is refused by name: the source base
    before the literal is looked at, the target base once the literal
    has been read; an unreadable literal is reported before an
    unsupported target base. *)
Theorem convert_unsupported_base (value : string) (from_base to_base : Z) :
  (~ In from_base bases ->
   convert value from_base to_base = Raise (UnsupportedBase from_base))
  /\ (~ In to_base bases ->
      forall decimal,
        to_decimal from_base value = Ok decimal ->
        convert value from_base to_base = Raise (UnsupportedBase to_base))
  /\ (forall e,
        to_decimal from_base value = Raise e ->
        convert value from_base to_base = Raise e).
Proof.
  unfold bases. simpl. split; [|split].
  - intros Hnot. rewrite convert_split. unfold to_decimal.
    destruct (Z.eqb_spec from_base 10); [subst; exfalso; apply Hnot; auto 6|].
    destruct (Z.eqb_spec from_base 2); [subst; exfalso; apply Hnot; auto 6|].
    destruct (Z.eqb_spec from_base 8); [subst; exfalso; apply Hnot; auto 6|].
    destruct (Z.eqb_spec from_base 16); [subst; exfalso; apply Hnot; auto 6|]. done.
  - intros Hnot decimal Hto. rewrite convert_split, Hto. simpl.
    unfold from_decimal.
    destruct (Z.eqb_spec to_base 10); [subst; exfalso; apply Hnot; auto 6|].
    destruct (Z.eqb_spec to_base 2); [subst; exfalso; apply Hnot; auto 6|].
    destruct (Z.eqb_spec to_base 8); [subst; exfalso; apply Hnot; auto 6|].
    destruct (Z.eqb_spec to_base 16); [subst; exfalso; apply Hnot; auto 6|]. done.
  - intros e Hto. by rewrite convert_split, Hto.
Qed.

End ConvertFacts.

(** ** The parsing loops, further *)

Section MoreConvertFacts.

Ltac char_cases H :=
  apply contains_In in H; simpl in H;
  repeat (destruct H as [<-|H]); [..|contradiction].

Lemma binary_to_decimal_value (L : string) :
  Literal.valid 2 L = true ->
  binary_to_decimal L = Ok (literal_value 2 hexadecimal_value (PyStr.upper L)).
Proof.
  intros Hvalid%valid_Forall. fold binary_valid in Hvalid.
  assert (Forall (fun c => binary_valid c = true \/ c = "-"%char)
            (list_ascii_of_string L)) as Hall.
  { apply literal_chars; [by right|].
    eapply Forall_impl; [exact Hvalid|]. by left. }
  rewrite upper_id
    by (eapply Forall_impl; [exact Hall|]; intros c Hc; by apply binary_clean).
  change (binary_to_decimal L)
    with (parse binary_to_decimal_loop (PyStr.remove_spaces L)).
  rewrite remove_spaces_id
    by (eapply Forall_impl; [exact Hall|]; intros c Hc; by apply binary_clean).
  rewrite (parse_literal 2 PyStr.digit_value binary_valid _ (InvalidDigit "binary"))
    by (done || apply binary_loop_cons || apply binary_not_minus).
  f_equal. apply literal_value_ext.
  eapply Forall_impl; [exact Hvalid|]. intros c Hc. by char_cases Hc.
Qed.

Lemma octal_to_decimal_value (L : string) :
  Literal.valid 8 L = true ->
  octal_to_decimal L = Ok (literal_value 8 hexadecimal_value (PyStr.upper L)).
Proof.
  intros Hvalid%valid_Forall. fold octal_valid in Hvalid.
  assert (Forall (fun c => octal_valid c = true \/ c = "-"%char)
            (list_ascii_of_string L)) as Hall.
  { apply literal_chars; [by right|].
    eapply Forall_impl; [exact Hvalid|]. by left. }
  rewrite upper_id
    by (eapply Forall_impl; [exact Hall|]; intros c Hc; by apply octal_clean).
  change (octal_to_decimal L)
    with (parse octal_to_decimal_loop (PyStr.remove_spaces L)).
  rewrite remove_spaces_id
    by (eapply Forall_impl; [exact Hall|]; intros c Hc; by apply octal_clean).
  rewrite (parse_literal 8 PyStr.digit_value octal_valid _ (InvalidDigit "octal"))
    by (done || apply octal_loop_cons || apply octal_not_minus).
  f_equal. apply literal_value_ext.
  eapply Forall_impl; [exact Hvalid|]. intros c Hc. by char_cases Hc.
Qed.

Lemma hexadecimal_to_decimal_value (L : string) :
  Literal.valid 16 L = true ->
  hexadecimal_to_decimal L
    = Ok (literal_value 16 hexadecimal_value (PyStr.upper L)).
Proof.
  intros Hvalid%valid_Forall.
  change (hexadecimal_to_decimal L)
    with (parse hexadecimal_to_decimal_loop (PyStr.upper (PyStr.remove_spaces L))).
  rewrite remove_spaces_id.
  - apply (parse_literal 16 hexadecimal_value hexadecimal_valid _
             (InvalidDigit "hexadecimal"));
      [done|apply hexadecimal_loop_cons|apply hexadecimal_not_minus|].
    rewrite upper_digits, upper_list. apply List.Forall_map.
    eapply Forall_impl; [exact Hvalid|].
    intros c Hc. by apply hexadecimal_literal_char.
  - apply literal_chars; [done|].
    eapply Forall_impl; [exact Hvalid|].
    intros c Hc. by apply hexadecimal_literal_char.
Qed.

Lemma int_value (L : string) :
  Literal.valid 10 L = true ->
  Literal.digits L <> "" ->
  Z.of_nat (String.length (Literal.digits L)) <= PyStr.int_max_str_digits ->
  PyStr.int L = Ok (literal_value 10 hexadecimal_value (PyStr.upper L)).
Proof.
  intros Hvalid%valid_Forall Hne Hlen.
  assert (Forall (fun c => PyStr.is_digit c = true)
            (list_ascii_of_string (Literal.digits L))) as Hdigits.
  { eapply Forall_impl; [exact Hvalid|]. intros c Hc.
    by rewrite is_digit_contains. }
  rewrite upper_id.
  - rewrite int_literal by done.
    destruct (Z.ltb_spec PyStr.int_max_str_digits
                (Z.of_nat (String.length (Literal.digits L)))); [lia|].
    f_equal. apply literal_value_ext.
    eapply Forall_impl; [exact Hvalid|]. intros c Hc. by char_cases Hc.
  - apply literal_chars; [done|].
    eapply Forall_impl; [exact Hdigits|]. intros c Hc.
    apply decimal_clean. by left.
Qed.

(** X7: a valid literal of base [b] (in base 10, within the limit of
    4300 digits) converts to base 10 as the decimal writing of its
    positional value, the sum of digit times
    [b ^ (number of digits after it)], with the sign of the literal;
    the value of a digit is its place among [0123456789ABCDEF]. When
    the value takes more than 4300 decimal digits there is no writing:
    [convert] raises the error of [str]. *)
Theorem convert_to_decimal_value (L : string) (b : Z) :
  In b bases ->
  Literal.valid b L = true ->
  (b = 10 -> Literal.digits L <> "") ->
  (b = 10 ->
   Z.of_nat (String.length (Literal.digits L)) <= PyStr.int_max_str_digits) ->
  (Z.abs (literal_value b hexadecimal_value (PyStr.upper L))
     < 10 ^ PyStr.int_max_str_digits ->
   convert L b 10
     = Ok (PyStr.decimal_string
             (literal_value b hexadecimal_value (PyStr.upper L))))
  /\ (10 ^ PyStr.int_max_str_digits
        <= Z.abs (literal_value b hexadecimal_value (PyStr.upper L)) ->
      convert L b 10 = Raise StrDigitLimit).
Proof.
  intros Hb Hvalid Hne Hlen.
  assert (convert L b 10
          = PyStr.str (literal_value b hexadecimal_value (PyStr.upper L)))
    as ->.
  { apply bases_cases in Hb as [->|[->|[->| ->]]];
      rewrite convert_split; unfold to_decimal; cbn [Z.eqb Pos.eqb].
    - by rewrite binary_to_decimal_value.
    - by rewrite octal_to_decimal_value.
    - by rewrite int_value by auto.
    - by rewrite hexadecimal_to_decimal_value. }
  split; [apply str_within|apply str_beyond].
Qed.

(** X8: in bases 2, 8 and 16 the error names one character: walking
    from the right, the first one outside the alphabet, that is the
    last invalid character of the literal once spaces and the sign are
    off (and, for base 16, letters are in upper case). The literal is
    ASCII text. *)
Theorem invalid_digit_reported (L s1 s2 : string) (c : ascii) :
  PyStr.is_ascii L = true ->
  (Literal.digits (PyStr.remove_spaces L) = s1 +:+ String c s2 ->
   binary_valid c = false ->
   Forall (fun c => binary_valid c = true) (list_ascii_of_string s2) ->
   binary_to_decimal L = Raise (InvalidDigit "binary" c))
  /\ (Literal.digits (PyStr.remove_spaces L) = s1 +:+ String c s2 ->
      octal_valid c = false ->
      Forall (fun c => octal_valid c = true) (list_ascii_of_string s2) ->
      octal_to_decimal L = Raise (InvalidDigit "octal" c))
  /\ (Literal.digits (PyStr.upper (PyStr.remove_spaces L)) = s1 +:+ String c s2 ->
      hexadecimal_valid c = false ->
      Forall (fun c => hexadecimal_valid c = true) (list_ascii_of_string s2) ->
      hexadecimal_to_decimal L = Raise (InvalidDigit "hexadecimal" c)).
Proof.
  intros _.
  split; [|split]; intros Hdigits Hc Hs2.
  - change (binary_to_decimal L)
      with (parse binary_to_decimal_loop (PyStr.remove_spaces L)).
    by apply (parse_last_invalid 2 PyStr.digit_value binary_valid _ _
                binary_loop_cons _ s1 s2).
  - change (octal_to_decimal L)
      with (parse octal_to_decimal_loop (PyStr.remove_spaces L)).
    by apply (parse_last_invalid 8 PyStr.digit_value octal_valid _ _
                octal_loop_cons _ s1 s2).
  - change (hexadecimal_to_decimal L)
      with (parse hexadecimal_to_decimal_loop
              (PyStr.upper (PyStr.remove_spaces L))).
    by apply (parse_last_invalid 16 hexadecimal_value hexadecimal_valid _ _
                hexadecimal_loop_cons _ s1 s2).
Qed.

End MoreConvertFacts.

(** ** Spaces in a literal, and the table of the handler *)

Section SpaceFacts.

Lemma remove_spaces_app (a b : string) :
  PyStr.remove_spaces (a +:+ b) = PyStr.remove_spaces a +:+ PyStr.remove_spaces b.
Proof.
  induction a as [|c a IH]; [done|]. rewrite append_cons. simpl.
  destruct (Ascii.eqb c " "); [done|]. by rewrite append_cons, IH.
Qed.

Lemma to_decimal_Ok (from_base : Z) (value : string) (decimal : Z) :
  to_decimal from_base value = Ok decimal -> In from_base bases.
Proof.
  unfold to_decimal, bases. simpl.
  destruct (Z.eqb_spec from_base 10); [auto|].
  destruct (Z.eqb_spec from_base 2); [auto|].
  destruct (Z.eqb_spec from_base 8); [auto|].
  destruct (Z.eqb_spec from_base 16); [auto 6|]. done.
Qed.

(** X9: a space inside a literal is dropped in bases 2, 8 and 16, where
    the literal converts as if the space were not there; in base 10 a
    space between two runs of digits makes [convert] raise: the error
    of an invalid literal, or that of the digit limit when the first
    run alone is beyond it. *)
Theorem interior_space (s1 s2 : string) (from_base to_base : Z) :
  (In from_base [2; 8; 16] ->
   convert (s1 +:+ String " " s2) from_base to_base
     = convert (s1 +:+ s2) from_base to_base)
  /\ (from_base = 10 ->
      Forall (fun c => PyStr.is_digit c = true) (list_ascii_of_string s1) ->
      Forall (fun c => PyStr.is_digit c = true) (list_ascii_of_string s2) ->
      s1 <> "" ->
      s2 <> "" ->
      convert (s1 +:+ String " " s2) from_base to_base
        = Raise (if PyStr.int_max_str_digits <? Z.of_nat (String.length s1)
                 then IntDigitLimit (Z.of_nat (String.length s1))
                 else InvalidLiteral (s1 +:+ String " " s2))).
Proof.
  split.
  - intros Hin.
    assert (PyStr.remove_spaces (s1 +:+ String " " s2)
            = PyStr.remove_spaces (s1 +:+ s2)) as Hsame.
    { by rewrite !remove_spaces_app. }
    rewrite !convert_split. f_equal.
    simpl in Hin. destruct Hin as [<-|[<-|[<-|[]]]]; unfold to_decimal;
      cbn [Z.eqb Pos.eqb].
    + unfold binary_to_decimal. by rewrite Hsame.
    + unfold octal_to_decimal. by rewrite Hsame.
    + unfold hexadecimal_to_decimal. by rewrite Hsame.
  - intros -> Hs1 Hs2 Hne1 Hne2. rewrite convert_split.
    unfold to_decimal. cbn [Z.eqb Pos.eqb].
    rewrite int_digits_then by done.
    destruct (_ <? _); [done|].
    destruct s2 as [|c s2]; [done|]. apply Forall_inv in Hs2.
    cbn [list_ascii_of_string forallb].
    assert (PyStr.is_int_space c = false) as ->; [|done].
    rewrite is_digit_contains in Hs2.
    apply contains_In in Hs2; simpl in Hs2;
      repeat (destruct Hs2 as [<-|Hs2]); [..|contradiction]; reflexivity.
Qed.

(** X10: when the handler shows a result for a typed ASCII text, its
    table of the other bases holds, in the order 2, 8, 10, 16, one row
    for each base other than the source base for which [convert]
    returned, with what it returned. The rows of bases 2, 8 and 16 are
    never missing; the row of base 10 is missing exactly when the
    value takes more than 4300 decimal digits, where [str] raises and
    the handler passes over the error. When the handler shows no
    result, either the text was empty after stripping or [convert]
    raised on the stripped text. *)
Theorem convert_number_rows (num_input : string) (from_base to_base : Z) :
  PyStr.is_ascii num_input = true ->
  match convert_number num_input from_base to_base with
  | ShowResult value result rows =>
      value = PyStr.strip num_input
      /\ value <> ""
      /\ convert value from_base to_base = Ok result
      /\ (exists decimal,
            to_decimal from_base value = Ok decimal
            /\ map fst rows
               = List.filter
                   (fun b =>
                      negb (b =? from_base)
                      && (negb (b =? 10)
                          || (Z.abs decimal <? 10 ^ PyStr.int_max_str_digits)))
                   base_map)
      /\ forall b r, In (b, r) rows -> convert value from_base b = Ok r
  | ConversionFailed e =>
      PyStr.strip num_input <> ""
      /\ convert (PyStr.strip num_input) from_base to_base = Raise e
  | ShowError message =>
      PyStr.strip num_input = "" /\ message = "Please enter a number!"
  end.
Proof.
  intros _. unfold convert_number.
  destruct (PyStr.strip num_input) as [|c s] eqn:Hstrip; [done|].
  destruct (convert (String c s) from_base to_base) as [result|e] eqn:Hconv;
    [|done].
  split; [done|]. split; [done|]. split; [done|].
  destruct (convert_Ok _ _ _ _ Hconv) as (d & Hto & _).
  assert (forall b, convert (String c s) from_base b = from_decimal b d) as Hrow.
  { intros b. by rewrite convert_split, Hto. }
  pose proof (to_decimal_Ok _ _ _ Hto) as Hin.
  assert (from_decimal 10 d
          = if Z.abs d <? 10 ^ PyStr.int_max_str_digits
            then Ok (PyStr.decimal_string d) else Raise StrDigitLimit) as Hten.
  { unfold from_decimal. cbn [Z.eqb Pos.eqb].
    destruct (Z.ltb_spec (Z.abs d) (10 ^ PyStr.int_max_str_digits));
      [by apply str_within|by apply str_beyond]. }
  assert (forall b, b <> 10 -> In b bases ->
                    exists r, from_decimal b d = Ok r) as Hother.
  { intros b Hb Hbin. by apply from_decimal_returns. }
  destruct (Hother 2) as [r2 H2]; [done|by left|].
  destruct (Hother 8) as [r8 H8]; [done|right; by left|].
  destruct (Hother 16) as [r16 H16]; [done|do 3 right; by left|].
  unfold base_map. split.
  - exists d. split; [done|].
    apply bases_cases in Hin as [->|[->|[->| ->]]];
      cbn [all_conversions Z.eqb Pos.eqb negb]; rewrite !Hrow, ?H2, ?H8, ?H16, ?Hten;
      destruct (Z.abs d <? 10 ^ PyStr.int_max_str_digits);
      reflexivity.
  - intros b r.
    destruct (Z.abs d <? 10 ^ PyStr.int_max_str_digits) eqn:Hlimit;
      apply bases_cases in Hin as [->|[->|[->| ->]]];
      cbn [all_conversions Z.eqb Pos.eqb negb]; rewrite !Hrow, ?H2, ?H8, ?H16, ?Hten;
      cbn [In]; intros Hbr;
      repeat (destruct Hbr as [[= <- <-]|Hbr];
              [congruence|]); done.
Qed.

End SpaceFacts.

(** ** Searching, further *)

(** How many probes a window of [w] elements can take: the number of
    binary digits of [w]. *)
Definition probes (w : Z) : Z := if w <=? 0 then 0 else Z.log2 w + 1.

Lemma probes_nonneg (w : Z) : 0 <= probes w.
Proof.
  unfold probes. destruct (w <=? 0); [lia|]. pose proof (Z.log2_nonneg w). lia.
Qed.

Lemma probes_mono (w1 w2 : Z) : w1 <= w2 -> probes w1 <= probes w2.
Proof.
  intros Hle. unfold probes.
  destruct (Z.leb_spec w1 0), (Z.leb_spec w2 0); try lia.
  - pose proof (Z.log2_nonneg w2). lia.
  - pose proof (Z.log2_le_mono w1 w2 Hle). lia.
Qed.

Lemma probes_half (w : Z) : 1 <= w -> probes (w / 2) + 1 = probes w.
Proof.
  intros Hw. unfold probes.
  destruct (Z.leb_spec w 0); [lia|].
  destruct (Z.leb_spec (w / 2) 0) as [Hsmall|Hbig].
  - assert (w = 1) as -> by (Z.div_mod_to_equations; lia). reflexivity.
  - pose proof (Z.div_mod w 2 ltac:(lia)) as Hdiv.
    pose proof (Z.mod_pos_bound w 2 ltac:(lia)) as Hmod.
    assert (w mod 2 = 0 \/ w mod 2 = 1) as [Hr|Hr] by lia.
    + rewrite Hdiv at 2. rewrite Hr, Z.add_0_r, Z.log2_double by lia. lia.
    + rewrite Hdiv at 2. rewrite Hr, Z.log2_succ_double by lia. lia.
Qed.

Section MoreSearchFacts.
Context {A : Type} `{PyOrd A} `{PyFormat A}.

Implicit Types (h : heap A) (l : list A).

Lemma position_Some (n : nat) (i : Z) (k : nat) :
  0 <= i -> position n i = Some k -> k = Z.to_nat i /\ i < Z.of_nat n.
Proof.
  intros Hi. unfold position.
  rewrite (proj2 (Z.leb_le 0 i)) by lia.
  destruct (Z.ltb_spec i (Z.of_nat n)); [|done]. by intros [= <-].
Qed.

(** A present target costs one line per element up to its first
    occurrence and the success line. *)
Lemma linear_loop_first_length l : forall i k target steps,
  l !! k = Some target ->
  (forall j, (j < k)%nat -> l !! j <> Some target) ->
  exists steps',
    linear_loop (enumerate_from i l) target steps = (Z.of_nat (i + k), steps')
    /\ length steps' = (length steps + k + 2)%nat.
Proof.
  induction l as [|x l IH]; intros i k target steps Hk Hfirst; [done|].
  destruct k as [|k].
  - injection Hk as ->. simpl. rewrite py_eqb_refl.
    rewrite Nat.add_0_r. eexists. split; [done|].
    rewrite !length_app. simpl. lia.
  - simpl. rewrite py_eqb_neq.
    + match goal with
      | |- context [linear_loop _ _ ?st] => set (steps1 := st)
      end.
      destruct (IH (S i) k target steps1) as (steps' & Hrun & Hlen).
      * done.
      * intros j Hj. apply (Hfirst (S j)). lia.
      * exists steps'. rewrite Hrun. split; [do 2 f_equal; lia|].
        rewrite Hlen. unfold steps1. rewrite length_app. simpl. lia.
    + intros ->. by apply (Hfirst 0%nat); [lia|].
Qed.

Lemma target_in_or_not l (target : A) : target ∈ l \/ target ∉ l.
Proof.
  induction l as [|x l IH]; [right; apply not_elem_of_nil|].
  destruct (py_eqb x target) eqn:Heq.
  - apply py_eqb_eq in Heq as ->. left. left.
  - destruct IH as [Hin|Hnot]; [left; by right|right].
    apply not_elem_of_cons. split; [|done].
    intros ->. by rewrite py_eqb_refl in Heq.
Qed.

(** X11: [linear_search] reports -1 exactly when the target is absent,
    after one line per element and the failure line; otherwise it
    reports the first position of the target after one line per element
    up to that position and the success line: the elements behind the
    first match are never compared. *)
Theorem linear_search_outcome (h : heap A) (array : loc) (l : list A) (target : A) :
  h !! array = Some l ->
  exists (i : Z) (steps : list string),
    linear_search array target h = Some ((i, steps), h)
    /\ ((i = -1 /\ (target ∉ l) /\ length steps = (length l + 1)%nat)
        \/ (exists k : nat,
              i = Z.of_nat k
              /\ l !! k = Some target
              /\ (forall j, (j < k)%nat -> l !! j <> Some target)
              /\ length steps = (k + 2)%nat)).
Proof.
  intros Hh. rewrite (linear_search_run _ _ _ _ Hh). unfold enumerate.
  destruct (target_in_or_not l target) as [Hin|Hnot].
  - destruct (first_occurrence l target Hin) as (k & Hk & Hfirst).
    destruct (linear_loop_first_length l 0 k target [] Hk Hfirst)
      as (steps & Hrun & Hlen).
    exists (Z.of_nat k), steps. rewrite Hrun. split; [done|].
    right. exists k. simpl in Hlen. auto.
  - destruct (linear_loop_absent l 0 target [] Hnot) as (steps & Hrun & _ & Hlen).
    exists (-1), steps. rewrite Hrun. split; [done|]. left. simpl in Hlen. auto.
Qed.

(** What every returning run of the bisection satisfies, sorted array
    or not: the index is -1 or lies in the window and holds the target,
    and the trace grows by at most two lines per probe and the closing
    line. *)
Lemma binary_loop_sound array target left_ right_ step_num steps h :
  forall l r steps' h',
  h !! array = Some l ->
  0 <= left_ ->
  right_ < Z.of_nat (length l) ->
  binary_loop array target left_ right_ step_num steps h = Some ((r, steps'), h') ->
  (r = -1 \/ (left_ <= r <= right_ /\ l !! Z.to_nat r = Some target))
  /\ Z.of_nat (length steps')
       <= Z.of_nat (length steps) + 2 * probes (right_ - left_ + 1) + 1.
Proof.
  funelim (binary_loop array target left_ right_ step_num steps h);
    intros l0 r steps' h'' Hh Hleft Hright Hrun.
  - injection Hrun as <- <- <-. split; [by left|].
    rewrite length_app. simpl.
    pose proof (probes_nonneg (right_ - left_ + 1)). lia.
  - match goal with
    | Hget : getitem_int _ _ _ = Some _ |- _ =>
        rewrite (getitem_int_local _ _ _ _ Hh) in Hget;
        destruct (position (length l0) ((left_ + right_) / 2)) as [k|] eqn:Hpos;
          [|done];
        destruct (l0 !! k) as [x|] eqn:Hk; [|done];
        injection Hget as -> ->
    end.
    apply position_Some in Hpos as [-> Hmid]; [|Z.div_mod_to_equations; lia].
    cbv zeta in Hrun.
    assert (left_ <= (left_ + right_) / 2 <= right_) as Hbounds
      by (Z.div_mod_to_equations; lia).
    pose proof (probes_half (right_ - left_ + 1) ltac:(lia)) as Hhalf.
    destruct (py_eqb mid_value target) eqn:Heq.
    + injection Hrun as <- <- <-. apply py_eqb_eq in Heq as ->.
      split; [right; done|].
      rewrite !length_app. simpl.
      pose proof (probes_nonneg ((right_ - left_ + 1) / 2)). lia.
    + destruct (py_ltb mid_value target).
      * match goal with
        | IH : context [binary_loop _ _ (_ + 1) _ _ _ _] |- _ =>
            destruct (IH l0 r steps' h'' Hh) as [Hr Hlen]; [lia|done|done|]
        end.
        split; [destruct Hr as [Hr|[Hr Hx]]; [by left|right; split; [lia|done]]|].
        rewrite !length_app in Hlen. simpl in Hlen.
        pose proof (probes_mono (right_ - ((left_ + right_) / 2 + 1) + 1)
                      ((right_ - left_ + 1) / 2)
                      ltac:(Z.div_mod_to_equations; lia)).
        lia.
      * match goal with
        | IH : context [binary_loop _ _ _ (_ - 1) _ _ _] |- _ =>
            destruct (IH l0 r steps' h'' Hh) as [Hr Hlen]; [done|lia|done|]
        end.
        split; [destruct Hr as [Hr|[Hr Hx]]; [by left|right; split; [lia|done]]|].
        rewrite !length_app in Hlen. simpl in Hlen.
        pose proof (probes_mono ((left_ + right_) / 2 - 1 - left_ + 1)
                      ((right_ - left_ + 1) / 2)
                      ltac:(Z.div_mod_to_equations; lia)).
        lia.
  - done.
Qed.

(** On a non-decreasing array the window always holds every occurrence
    of the target, so -1 means there is none. *)
Lemma binary_loop_complete array target left_ right_ step_num steps h :
  forall l steps' h',
  h !! array = Some l ->
  non_decreasing l ->
  0 <= left_ ->
  right_ < Z.of_nat (length l) ->
  (forall k, l !! k = Some target -> left_ <= Z.of_nat k <= right_) ->
  binary_loop array target left_ right_ step_num steps h = Some ((-1, steps'), h') ->
  target ∉ l.
Proof.
  funelim (binary_loop array target left_ right_ step_num steps h);
    intros l0 steps' h'' Hh Hsorted Hleft Hright Hwindow Hrun.
  - intros [k Hk]%list_elem_of_lookup. specialize (Hwindow k Hk). lia.
  - match goal with
    | Hget : getitem_int _ _ _ = Some _ |- _ =>
        rewrite (getitem_int_local _ _ _ _ Hh) in Hget;
        destruct (position (length l0) ((left_ + right_) / 2)) as [k|] eqn:Hpos;
          [|done];
        destruct (l0 !! k) as [x|] eqn:Hk; [|done];
        injection Hget as -> ->
    end.
    apply position_Some in Hpos as [-> Hmid]; [|Z.div_mod_to_equations; lia].
    cbv zeta in Hrun.
    assert (left_ <= (left_ + right_) / 2 <= right_) as Hbounds
      by (Z.div_mod_to_equations; lia).
    destruct (py_eqb mid_value target) eqn:Heq.
    + injection Hrun as Hr _ _. lia.
    + destruct (py_ltb mid_value target) eqn:Hlt.
      * match goal with
        | IH : context [binary_loop _ _ (_ + 1) _ _ _ _] |- _ =>
            apply (IH l0 steps' h'' Hh); [done|lia|done| |done]
        end.
        intros j Hj. split; [|by apply Hwindow].
        destruct (Z.le_gt_cases ((left_ + right_) / 2 + 1) (Z.of_nat j));
          [done|exfalso].
        assert (le target mid_value) as Hle.
        { apply (Hsorted j (Z.to_nat ((left_ + right_) / 2))); [lia|done|done]. }
        unfold le in Hle. congruence.
      * match goal with
        | IH : context [binary_loop _ _ _ (_ - 1) _ _ _] |- _ =>
            apply (IH l0 steps' h'' Hh); [done|done|lia| |done]
        end.
        intros j Hj. split; [by apply Hwindow|].
        destruct (Z.le_gt_cases (Z.of_nat j) ((left_ + right_) / 2 - 1));
          [done|exfalso].
        assert (le mid_value target) as Hle.
        { apply (Hsorted (Z.to_nat ((left_ + right_) / 2)) j); [lia|done|done]. }
        unfold le in Hle.
        rewrite (py_ltb_connex _ _ Hlt Hle), py_eqb_refl in Heq. done.
  - done.
Qed.

(** X12: on a non-decreasing array [binary_search] finds the target
    whenever it is there: it returns -1 exactly when the target is
    absent, and otherwise an index that holds the target. *)
Theorem binary_search_sorted (h : heap A) (array : loc) (l : list A) (target : A) :
  h !! array = Some l ->
  non_decreasing l ->
  exists (i : Z) (steps : list string),
    binary_search array target h = Some ((i, steps), h)
    /\ ((i = -1 /\ (target ∉ l))
        \/ (0 <= i < Z.of_nat (length l) /\ l !! Z.to_nat i = Some target)).
Proof.
  intros Hh Hsorted.
  destruct (binary_search_run h array l target Hh) as ([i steps] & Hrun & _).
  exists i, steps. split; [done|].
  unfold binary_search, bind in Hrun. rewrite (len_run _ _ _ Hh) in Hrun.
  destruct (binary_loop_sound array target 0 (Z.of_nat (length l) - 1) 1 [] h
              l i steps h Hh ltac:(lia) ltac:(lia) Hrun)
    as [[->|[Hi Hx]] _].
  - left. split; [done|].
    apply (binary_loop_complete array target 0 (Z.of_nat (length l) - 1) 1 [] h
             l steps h Hh Hsorted ltac:(lia) ltac:(lia)); [|done].
    intros k Hk. apply lookup_lt_Some in Hk. lia.
  - right. split; [lia|done].
Qed.

(** X13: on any array, sorted or not, [binary_search] never reports a
    wrong position: an index other than -1 is within the array and
    holds the target. *)
Theorem binary_search_never_wrong (h : heap A) (array : loc) (l : list A)
    (target : A) (i : Z) (steps : list string) (h' : heap A) :
  h !! array = Some l ->
  binary_search array target h = Some ((i, steps), h') ->
  i <> -1 ->
  0 <= i < Z.of_nat (length l) /\ l !! Z.to_nat i = Some target.
Proof.
  intros Hh Hrun Hi.
  unfold binary_search, bind in Hrun. rewrite (len_run _ _ _ Hh) in Hrun.
  destruct (binary_loop_sound array target 0 (Z.of_nat (length l) - 1) 1 [] h
              l i steps h' Hh ltac:(lia) ltac:(lia) Hrun)
    as [[->|[Hb Hx]] _]; [done|].
  split; [lia|done].
Qed.

(** X14: the trace of [binary_search] is logarithmic in the length [n]
    of the array: at most two lines for each of the at most
    [log2 n + 1] probes, and the closing line; a single line when the
    array is empty. *)
Theorem binary_search_trace_bound (h : heap A) (array : loc) (l : list A)
    (target : A) (i : Z) (steps : list string) (h' : heap A) :
  h !! array = Some l ->
  binary_search array target h = Some ((i, steps), h') ->
  Z.of_nat (length steps) <= 2 * probes (Z.of_nat (length l)) + 1.
Proof.
  intros Hh Hrun.
  unfold binary_search, bind in Hrun. rewrite (len_run _ _ _ Hh) in Hrun.
  destruct (binary_loop_sound array target 0 (Z.of_nat (length l) - 1) 1 [] h
              l i steps h' Hh ltac:(lia) ltac:(lia) Hrun)
    as [_ Hlen].
  simpl in Hlen.
  by replace (Z.of_nat (length l) - 1 - 0 + 1) with (Z.of_nat (length l)) in Hlen by lia.
Qed.

End MoreSearchFacts.

(** ** The shape of the sort traces *)

(** The "no swaps needed" lines of a trace. *)
Definition is_no_swaps (line : string) : bool := String.eqb line no_swaps_line.

Definition no_swaps_count (steps : list string) : nat :=
  length (List.filter is_no_swaps steps).

(** A line that is neither a pass header nor the "no swaps needed"
    line. *)
Definition is_body_line (line : string) : bool :=
  negb (is_pass_header line) && negb (is_no_swaps line).

Lemma pass_count_app (a b : list string) :
  pass_count (a ++ b) = (pass_count a + pass_count b)%nat.
Proof. unfold pass_count. by rewrite List.filter_app, length_app. Qed.

Lemma no_swaps_count_app (a b : list string) :
  no_swaps_count (a ++ b) = (no_swaps_count a + no_swaps_count b)%nat.
Proof. unfold no_swaps_count. by rewrite List.filter_app, length_app. Qed.

Lemma body_lines_counts (lines : list string) :
  Forall (fun line => is_body_line line = true) lines ->
  pass_count lines = 0%nat /\ no_swaps_count lines = 0%nat.
Proof.
  unfold pass_count, no_swaps_count.
  induction 1 as [|line lines Hline _ [IH1 IH2]]; [done|].
  unfold is_body_line in Hline. apply andb_true_iff in Hline as [Hp Hn].
  apply negb_true_iff in Hp, Hn. simpl. by rewrite Hp, Hn.
Qed.

Lemma pass_count_header (x : string) :
  pass_count [newline +:+ "Pass " +:+ x] = 1%nat.
Proof.
  unfold pass_count, is_pass_header, newline. cbn [List.filter].
  rewrite !append_cons, !append_nil_l. by destruct x.
Qed.

Section TraceShape.
Context {A : Type} `{PyOrd A} `{PyFormat A}.

Implicit Types (h : heap A) (l : list A).

(** Taking a heap computation that returned apart at its first
    operation. *)
Ltac bind_inv Hrun :=
  unfold bind at 1 in Hrun;
  lazymatch type of Hrun with
  | match ?m ?h with _ => _ end = Some _ =>
      let E := fresh "E" in
      destruct (m h) as [[? ?]|] eqn:E; [|discriminate Hrun]
  end.

Lemma bubble_inner_shape arr js : forall swapped steps h swapped' steps' h',
  bubble_inner arr js swapped steps h = Some ((swapped', steps'), h') ->
  exists added,
    steps' = steps ++ added
    /\ Forall (fun line => is_body_line line = true) added.
Proof.
  induction js as [|j js IH]; intros swapped steps h swapped' steps' h' Hrun.
  - injection Hrun as <- <- <-. exists []. by rewrite app_nil_r.
  - cbn [bubble_inner] in Hrun. do 2 bind_inv Hrun.
    destruct (py_gtb _ _).
    + do 7 bind_inv Hrun.
      apply IH in Hrun as (added & -> & Hadded).
      eexists (_ :: added). rewrite <- app_assoc. split; [reflexivity|].
      constructor; [reflexivity|done].
    + by apply IH in Hrun.
Qed.

(** A run of passes of bubble sort that reaches the last pass always
    leaves through the early exit: the last pass compares nothing. *)
Lemma bubble_outer_shape arr n c : forall i0 steps h steps' h',
  (i0 + c = n)%nat ->
  (1 <= c)%nat ->
  bubble_outer arr n (seq i0 c) steps h = Some (steps', h') ->
  exists added,
    steps' = steps ++ added ++ [no_swaps_line]
    /\ (1 <= pass_count added <= c)%nat
    /\ no_swaps_count added = 0%nat.
Proof.
  induction c as [|c IH]; intros i0 steps h steps' h' Hn Hc Hrun; [lia|].
  cbn [seq bubble_outer] in Hrun. bind_inv Hrun.
  match goal with
  | E : bubble_inner _ _ _ _ _ = Some (?p, _) |- _ =>
      destruct p as [swapped steps1]; pose proof E as Einner;
      apply bubble_inner_shape in E as (inner & -> & Hinner)
  end.
  destruct (body_lines_counts inner Hinner) as [Hp0 Hn0].
  destruct swapped; cbn [negb] in Hrun.
  - destruct c as [|c].
    + (* the last pass has nothing to compare, so it cannot have swapped *)
      exfalso. clear Hrun.
      replace (n - i0 - 1)%nat with 0%nat in Einner by lia.
      by injection Einner.
    + apply IH in Hrun as (added & -> & Hcount & Hnone); [|lia|lia].
      eexists ((_ :: inner) ++ added).
      split; [by rewrite <- !app_assoc|].
      rewrite pass_count_app, no_swaps_count_app.
      change (pass_count (?x :: inner)) with (pass_count ([x] ++ inner)).
      change (no_swaps_count (?x :: inner)) with (no_swaps_count ([x] ++ inner)).
      rewrite pass_count_app, no_swaps_count_app, Hp0, Hn0.
      split; [|by rewrite Hnone].
      rewrite pass_count_header. lia.
  - injection Hrun as <- <-.
    eexists (_ :: inner). split; [by rewrite <- !app_assoc|].
    change (pass_count (?x :: inner)) with (pass_count ([x] ++ inner)).
    change (no_swaps_count (?x :: inner)) with (no_swaps_count ([x] ++ inner)).
    rewrite pass_count_app, no_swaps_count_app, Hp0, Hn0.
    split; [|reflexivity].
    rewrite pass_count_header. lia.
Qed.

Lemma selection_outer_shape arr n c : forall i0 steps h steps' h',
  selection_outer arr n (seq i0 c) steps h = Some (steps', h') ->
  exists added,
    steps' = steps ++ added
    /\ length added = (2 * c)%nat
    /\ pass_count added = c.
Proof.
  induction c as [|c IH]; intros i0 steps h steps' h' Hrun.
  - injection Hrun as <- <-. exists []. by rewrite app_nil_r.
  - cbn [seq selection_outer] in Hrun. bind_inv Hrun.
    destruct (negb _).
    + do 7 bind_inv Hrun.
      apply IH in Hrun as (added & -> & Hlen & Hcount).
      eexists (_ :: _ :: added). split; [by rewrite <- !app_assoc|].
      split; [simpl; lia|].
      change (pass_count (?x :: ?y :: added))
        with (pass_count ([x] ++ [y] ++ added)).
      rewrite !pass_count_app, pass_count_header, Hcount. reflexivity.
    + bind_inv Hrun.
      apply IH in Hrun as (added & -> & Hlen & Hcount).
      eexists (_ :: _ :: added). split; [by rewrite <- !app_assoc|].
      split; [simpl; lia|].
      change (pass_count (?x :: ?y :: added))
        with (pass_count ([x] ++ [y] ++ added)).
      rewrite !pass_count_app, pass_count_header, Hcount. reflexivity.
Qed.

Lemma insertion_inner_shape arr key k : forall steps h k' steps' h',
  insertion_inner arr key k steps h = Some ((k', steps'), h') ->
  exists added,
    steps' = steps ++ added
    /\ pass_count added = 0%nat.
Proof.
  induction k as [|j IH]; intros steps h k' steps' h' Hrun.
  - injection Hrun as <- <- <-. exists []. by rewrite app_nil_r.
  - cbn [insertion_inner] in Hrun. bind_inv Hrun.
    destruct (py_gtb _ _).
    + do 3 bind_inv Hrun.
      apply IH in Hrun as (added & -> & Hcount).
      eexists (_ :: added). split; [by rewrite <- !app_assoc|].
      change (pass_count (?x :: added)) with (pass_count ([x] ++ added)).
      rewrite pass_count_app, Hcount. reflexivity.
    + injection Hrun as <- <- <-. exists []. by rewrite app_nil_r.
Qed.

Lemma insertion_outer_shape arr c : forall i0 steps h steps' h',
  insertion_outer arr (seq i0 c) steps h = Some (steps', h') ->
  exists added,
    steps' = steps ++ added
    /\ (2 * c <= length added)%nat
    /\ pass_count added = c.
Proof.
  induction c as [|c IH]; intros i0 steps h steps' h' Hrun.
  - injection Hrun as <- <-. exists []. by rewrite app_nil_r.
  - cbn [seq insertion_outer] in Hrun. do 2 bind_inv Hrun.
    match goal with
    | E : insertion_inner _ _ _ _ _ = Some (?p, _) |- _ =>
        destruct p as [k steps1];
        apply insertion_inner_shape in E as (inner & -> & Hinner)
    end.
    bind_inv Hrun. destruct (negb _).
    + bind_inv Hrun.
      apply IH in Hrun as (added & -> & Hlen & Hcount).
      eexists ([_] ++ inner ++ [_] ++ added).
      split; [by rewrite <- !app_assoc|].
      split; [rewrite !length_app; simpl; lia|].
      rewrite !pass_count_app, pass_count_header, Hinner, Hcount. reflexivity.
    + apply IH in Hrun as (added & -> & Hlen & Hcount).
      eexists ([_] ++ inner ++ [_] ++ added).
      split; [by rewrite <- !app_assoc|].
      split; [rewrite !length_app; simpl; lia|].
      rewrite !pass_count_app, pass_count_header, Hinner, Hcount. reflexivity.
Qed.

(** X15: on an array that is not empty, [bubble_sort] always leaves its
    loop through the early exit, after at most as many passes as there
    are elements: its trace is the starting line with the input, between
    1 and [n] passes, the "no swaps needed" line exactly once, and the
    final line with the result. *)
Theorem bubble_sort_trace (h : heap A) (array : loc) (l : list A) :
  h !! array = Some l ->
  l <> [] ->
  exists (sorted : list A) (middle : list string) (steps : list string),
    bubble_sort array h = Some ((length h, steps), h ++ [sorted])
    /\ steps = ["Starting array: " +:+ format_list l] ++ middle
                 ++ [no_swaps_line;
                     newline +:+ "Final sorted array: " +:+ format_list sorted]
    /\ (1 <= pass_count steps <= length l)%nat
    /\ no_swaps_count steps = 1%nat.
Proof.
  intros Hh Hne. unfold bubble_sort. unfold bind at 1.
  rewrite (copy_run _ _ _ Hh).
  pose proof (heap_fresh_lookup h l) as Hfresh.
  unfold bind at 1. rewrite (len_run _ _ _ Hfresh).
  unfold bind at 1. rewrite (contents_run _ _ _ Hfresh).
  unfold bind at 1.
  match goal with
  | |- context [bubble_outer _ _ _ ?st _] => set (steps0 := st)
  end.
  destruct (bubble_outer_spec (length h) (length l) 0 l steps0 (h ++ [l]))
    as (l' & steps' & Hrun & Hperm & Hsort).
  - done.
  - lia.
  - rewrite Nat.sub_0_r. apply settled_from_length.
  - assert (1 <= length l)%nat as Hlen by (destruct l; [done|simpl; lia]).
    destruct (bubble_outer_shape (length h) (length l) (length l) 0%nat
                steps0 _ steps' _ eq_refl Hlen Hrun)
      as (middle & -> & Hcount & Hnone).
    rewrite Hrun, heap_fresh_update.
    pose proof (heap_fresh_lookup h l') as Hfresh'.
    unfold bind at 1. rewrite (contents_run _ _ _ Hfresh').
    exists l', middle. eexists. split; [reflexivity|].
    split; [unfold steps0; by rewrite <- !app_assoc|].
    unfold steps0.
    rewrite !pass_count_app, !no_swaps_count_app, Hnone.
    split; [|reflexivity].
    change (pass_count ["Starting array: " +:+ format_list l]) with 0%nat.
    change (pass_count [no_swaps_line]) with 0%nat.
    change (pass_count [newline +:+ "Final sorted array: " +:+ format_list l'])
      with 0%nat.
    lia.
Qed.

(** X16: the trace of [selection_sort] has exactly two lines per
    element between its starting line and its final line, one pass
    header for each element, whatever the order of the input. *)
Theorem selection_sort_trace (h : heap A) (array : loc) (l : list A) :
  h !! array = Some l ->
  exists (sorted : list A) (middle : list string) (steps : list string),
    selection_sort array h = Some ((length h, steps), h ++ [sorted])
    /\ steps = ["Starting array: " +:+ format_list l] ++ middle
                 ++ [newline +:+ "Final sorted array: " +:+ format_list sorted]
    /\ length steps = (2 * length l + 2)%nat
    /\ pass_count steps = length l.
Proof.
  intros Hh. unfold selection_sort. unfold bind at 1.
  rewrite (copy_run _ _ _ Hh).
  pose proof (heap_fresh_lookup h l) as Hfresh.
  unfold bind at 1. rewrite (len_run _ _ _ Hfresh).
  unfold bind at 1. rewrite (contents_run _ _ _ Hfresh).
  unfold bind at 1.
  match goal with
  | |- context [selection_outer _ _ _ ?st _] => set (steps0 := st)
  end.
  destruct (selection_outer_spec (length h) (length l) 0 l steps0 (h ++ [l]))
    as (l' & steps' & Hrun & Hperm & Hsort).
  - done.
  - lia.
  - intros p q Hp. lia.
  - destruct (selection_outer_shape _ _ _ _ _ _ _ _ Hrun)
      as (middle & -> & Hlen & Hcount).
    rewrite Hrun, heap_fresh_update.
    pose proof (heap_fresh_lookup h l') as Hfresh'.
    unfold bind at 1. rewrite (contents_run _ _ _ Hfresh').
    exists l', middle. eexists. split; [reflexivity|].
    split; [unfold steps0; by rewrite <- !app_assoc|].
    unfold steps0. rewrite !length_app, !pass_count_app, Hlen, Hcount.
    split; [simpl; lia|].
    change (pass_count ["Starting array: " +:+ format_list l]) with 0%nat.
    change (pass_count [newline +:+ "Final sorted array: " +:+ format_list l'])
      with 0%nat.
    lia.
Qed.

(** X17: the trace of [insertion_sort] has one pass header for each
    element but the first, and at least two lines for each pass,
    between its starting line and its final line. *)
Theorem insertion_sort_trace (h : heap A) (array : loc) (l : list A) :
  h !! array = Some l ->
  exists (sorted : list A) (middle : list string) (steps : list string),
    insertion_sort array h = Some ((length h, steps), h ++ [sorted])
    /\ steps = ["Starting array: " +:+ format_list l] ++ middle
                 ++ [newline +:+ "Final sorted array: " +:+ format_list sorted]
    /\ (2 * (length l - 1) + 2 <= length steps)%nat
    /\ pass_count steps = (length l - 1)%nat.
Proof.
  intros Hh. unfold insertion_sort. unfold bind at 1.
  rewrite (copy_run _ _ _ Hh).
  pose proof (heap_fresh_lookup h l) as Hfresh.
  unfold bind at 1. rewrite (len_run _ _ _ Hfresh).
  unfold bind at 1. rewrite (contents_run _ _ _ Hfresh).
  unfold bind at 1.
  match goal with
  | |- context [insertion_outer _ _ ?st _] => set (steps0 := st)
  end.
  destruct (insertion_outer_spec (length h) (length l - 1) 1 l steps0 (h ++ [l]))
    as (l' & steps' & Hrun & Hperm & Hsort).
  - done.
  - destruct (length l); [left|right]; lia.
  - intros p q Hpq Hq. replace p with 0%nat by lia. replace q with 0%nat by lia.
    apply ordered_at_refl.
  - destruct (insertion_outer_shape _ _ _ _ _ _ _ Hrun)
      as (middle & -> & Hlen & Hcount).
    rewrite Hrun, heap_fresh_update.
    pose proof (heap_fresh_lookup h l') as Hfresh'.
    unfold bind at 1. rewrite (contents_run _ _ _ Hfresh').
    exists l', middle. eexists. split; [reflexivity|].
    split; [unfold steps0; by rewrite <- !app_assoc|].
    unfold steps0. rewrite !length_app, !pass_count_app, Hcount.
    split; [simpl; lia|].
    change (pass_count ["Starting array: " +:+ format_list l]) with 0%nat.
    change (pass_count [newline +:+ "Final sorted array: " +:+ format_list l'])
      with 0%nat.
    lia.
Qed.

(** X18: sorting what a sort returned changes nothing: whichever of the
    three sorts runs second, on the result of whichever ran first, it
    returns a new array with the same elements in the same order. *)
Theorem sort_idempotent (h : heap A) (array : loc) (l : list A)
    (first second : loc -> M (loc * list string)) :
  h !! array = Some l ->
  first = bubble_sort \/ first = selection_sort \/ first = insertion_sort ->
  second = bubble_sort \/ second = selection_sort \/ second = insertion_sort ->
  exists (sorted : list A) (steps1 steps2 : list string),
    first array h = Some ((length h, steps1), h ++ [sorted])
    /\ second (length h) (h ++ [sorted])
       = Some ((length (h ++ [sorted]), steps2), (h ++ [sorted]) ++ [sorted]).
Proof.
  intros Hh Hfirst Hsecond.
  assert (forall sort (h0 : heap A) a0 l0,
            sort = bubble_sort \/ sort = selection_sort \/ sort = insertion_sort ->
            h0 !! a0 = Some l0 ->
            exists l' steps,
              sort a0 h0 = Some ((length h0, steps), h0 ++ [l'])
              /\ l' ≡ₚ l0 /\ non_decreasing l') as Hspec.
  { intros sort h0 a0 l0 [->|[->| ->]] Hh0.
    - by apply bubble_sort_spec.
    - by apply selection_sort_spec.
    - by apply insertion_sort_spec. }
  destruct (Hspec first h array l Hfirst Hh) as (l1 & steps1 & Hrun1 & Hperm1 & Hsort1).
  destruct (Hspec second (h ++ [l1]) (length h) l1 Hsecond (heap_fresh_lookup h l1))
    as (l2 & steps2 & Hrun2 & Hperm2 & Hsort2).
  assert (l2 = l1) as -> by (by apply non_decreasing_unique).
  by exists l1, steps1, steps2.
Qed.

End TraceShape.

(** ** Sets, further *)

Section SetFacts.
Context {T : Type} {T_eq : EqDecision T} {T_countable : Countable T}.

(** X19: the four operations fit together: the difference and the
    intersection split the first set into two parts with nothing in
    common, so their cardinalities add up to that of the first set, and
    the cardinalities of union and intersection add up to those of the
    two sets. *)
Theorem set_cardinalities (set_a set_b : gset T) :
  union (difference set_a set_b) (intersection set_a set_b) = set_a
  /\ intersection (difference set_a set_b) (intersection set_a set_b) = ∅
  /\ (cardinality (difference set_a set_b)
      + cardinality (intersection set_a set_b) = cardinality set_a)%nat
  /\ (cardinality (union set_a set_b) + cardinality (intersection set_a set_b)
      = cardinality set_a + cardinality set_b)%nat.
Proof.
  unfold union, intersection, difference, cardinality.
  assert (set_a ∖ set_b ∪ set_a ∩ set_b = set_a) as Hsplit.
  { apply set_eq. intros x.
    rewrite elem_of_union, elem_of_difference, elem_of_intersection.
    destruct (decide (x ∈ set_b)); tauto. }
  assert ((set_a ∖ set_b) ## (set_a ∩ set_b)) as Hdisjoint.
  { intros x. rewrite elem_of_difference, elem_of_intersection. tauto. }
  assert (size (set_a ∖ set_b) + size (set_a ∩ set_b) = size set_a)%nat as Hsize.
  { rewrite <- size_union by done. by rewrite Hsplit. }
  assert (size (set_b ∖ set_a) + size (set_a ∩ set_b) = size set_b)%nat as Hsize'.
  { rewrite <- size_union.
    - f_equal. apply set_eq. intros x.
      rewrite elem_of_union, elem_of_difference, elem_of_intersection.
      destruct (decide (x ∈ set_a)); tauto.
    - intros x. rewrite elem_of_difference, elem_of_intersection. tauto. }
  split; [exact Hsplit|]. split.
  - apply set_eq. intros x.
    rewrite elem_of_intersection, elem_of_empty. apply (conj (fun Hx => Hdisjoint x (proj1 Hx) (proj2 Hx))).
    tauto.
  - split; [exact Hsize|]. rewrite size_union_alt. lia.
Qed.

End SetFacts.

(** ** The further properties at concrete inputs *)

Lemma decode_encode_witness :
  PyStr.int "-255" = Ok (-255)
  /\ (exists s, PyStr.str (-255) = Ok s).
Proof.
  destruct (decode_encode (-255)) as (_ & _ & _ & Hback & Hreturns & _).
  split.
  - apply Hback. vm_compute. reflexivity.
  - apply Hreturns. vm_compute. reflexivity.
Defined.

Lemma convert_compose_witness :
  convert "11111111" 2 8 = convert "ff" 16 8.
Proof. apply (convert_compose "ff" 16 2 8 "11111111"). vm_compute. reflexivity. Defined.

Lemma convert_output_normal_witness :
  Literal.valid 2 "-11111111" = true
  /\ Literal.digits "-11111111" <> ""
  /\ Literal.normal_form "-11111111" = "-11111111".
Proof. apply (convert_output_normal " -0ff" 16 2 "-11111111"). vm_compute. reflexivity. Defined.

Lemma convert_same_base_witness :
  convert "-0101" 10 10 = Ok (Literal.normal_form "-0101").
Proof.
  apply (convert_same_base "-0101" 10).
  - right. right. left. reflexivity.
  - reflexivity.
  - intros _ Heq. discriminate Heq.
  - intros _. vm_compute. discriminate.
Defined.

Lemma convert_injective_witness :
  Literal.normal_form "ff" = Literal.normal_form "0FF".
Proof.
  apply (convert_injective "ff" "0FF" 16 10 "255").
  - right. right. right. left. reflexivity.
  - reflexivity.
  - reflexivity.
  - intros Heq. discriminate Heq.
  - vm_compute. reflexivity.
  - vm_compute. reflexivity.
Defined.

Lemma convert_unsupported_base_witness :
  convert "12" 7 10 = Raise (UnsupportedBase 7)
  /\ convert "12" 10 7 = Raise (UnsupportedBase 7)
  /\ convert "12" 2 7 = Raise (InvalidDigit "binary" "2").
Proof.
  split; [|split].
  - apply (proj1 (convert_unsupported_base "12" 7 10)). simpl. lia.
  - apply (proj1 (proj2 (convert_unsupported_base "12" 10 7)) ltac:(simpl; lia) 12).
    vm_compute. reflexivity.
  - apply (proj2 (proj2 (convert_unsupported_base "12" 2 7))).
    vm_compute. reflexivity.
Defined.

Lemma convert_to_decimal_value_witness :
  convert "-ff" 16 10
    = Ok (PyStr.decimal_string
            (literal_value 16 hexadecimal_value (PyStr.upper "-ff"))).
Proof.
  apply (convert_to_decimal_value "-ff" 16).
  - right. right. right. left. reflexivity.
  - reflexivity.
  - intros Heq. discriminate Heq.
  - intros Heq. discriminate Heq.
  - vm_compute. reflexivity.
Defined.

Lemma invalid_digit_reported_witness :
  binary_to_decimal "-2 1g1" = Raise (InvalidDigit "binary" "g")
  /\ octal_to_decimal "-2 1g1" = Raise (InvalidDigit "octal" "g")
  /\ hexadecimal_to_decimal "-2 1g1" = Raise (InvalidDigit "hexadecimal" "G").
Proof.
  split; [|split].
  - apply (proj1 (invalid_digit_reported "-2 1g1" "21" "1" "g" eq_refl)).
    + reflexivity.
    + reflexivity.
    + repeat constructor.
  - apply (proj1 (proj2 (invalid_digit_reported "-2 1g1" "21" "1" "g" eq_refl))).
    + reflexivity.
    + reflexivity.
    + repeat constructor.
  - apply (proj2 (proj2 (invalid_digit_reported "-2 1g1" "21" "1" "G" eq_refl))).
    + reflexivity.
    + reflexivity.
    + repeat constructor.
Defined.

Lemma interior_space_witness :
  convert "10 1" 2 10 = convert "101" 2 10
  /\ convert "1 2" 10 2 = Raise (InvalidLiteral "1 2").
Proof.
  split.
  - apply (proj1 (interior_space "10" "1" 2 10)). left. reflexivity.
  - apply (proj2 (interior_space "1" "2" 10 2)).
    + reflexivity.
    + repeat constructor.
    + repeat constructor.
    + intros Heq. discriminate Heq.
    + intros Heq. discriminate Heq.
Defined.

Lemma convert_number_rows_witness :
  convert_number " ff " 16 2
    = ShowResult "ff" "11111111" [(2, "11111111"); (8, "377"); (10, "255")]
  /\ match convert_number " ff " 16 2 with
     | ShowResult value result rows =>
         value = PyStr.strip " ff "
         /\ value <> ""
         /\ convert value 16 2 = Ok result
         /\ (exists decimal,
               to_decimal 16 value = Ok decimal
               /\ map fst rows
                  = List.filter
                      (fun b =>
                         negb (b =? 16)
                         && (negb (b =? 10)
                             || (Z.abs decimal <? 10 ^ PyStr.int_max_str_digits)))
                      base_map)
         /\ forall b r, In (b, r) rows -> convert value 16 b = Ok r
     | ConversionFailed e =>
         PyStr.strip " ff " <> "" /\ convert (PyStr.strip " ff ") 16 2 = Raise e
     | ShowError message =>
         PyStr.strip " ff " = "" /\ message = "Please enter a number!"
     end.
Proof.
  split; [vm_compute; reflexivity|].
  apply (convert_number_rows " ff " 16 2). reflexivity.
Defined.

Lemma linear_search_outcome_witness :
  exists (i : Z) (steps : list string),
    linear_search 0%nat 3 [[5; 3; 7; 3]] = Some ((i, steps), [[5; 3; 7; 3]])
    /\ ((i = -1 /\ (3 ∉ [5; 3; 7; 3]) /\ length steps = (length [5; 3; 7; 3] + 1)%nat)
        \/ (exists k : nat,
              i = Z.of_nat k
              /\ [5; 3; 7; 3] !! k = Some 3
              /\ (forall j, (j < k)%nat -> [5; 3; 7; 3] !! j <> Some 3)
              /\ length steps = (k + 2)%nat)).
Proof.
  apply (linear_search_outcome [[5; 3; 7; 3]] 0%nat [5; 3; 7; 3] 3). reflexivity.
Defined.

Lemma binary_search_sorted_witness :
  exists (i : Z) (steps : list string),
    binary_search 0%nat 7 [[2; 5; 7; 9]] = Some ((i, steps), [[2; 5; 7; 9]])
    /\ ((i = -1 /\ (7 ∉ [2; 5; 7; 9]))
        \/ (0 <= i < Z.of_nat (length [2; 5; 7; 9])
            /\ [2; 5; 7; 9] !! Z.to_nat i = Some 7)).
Proof.
  apply (binary_search_sorted [[2; 5; 7; 9]] 0%nat [2; 5; 7; 9] 7).
  - reflexivity.
  - by apply is_sorted_non_decreasing.
Defined.

Lemma binary_search_never_wrong_witness :
  0 <= 0 < Z.of_nat (length [7; 9; 2]) /\ [7; 9; 2] !! Z.to_nat 0 = Some 7.
Proof.
  eapply (binary_search_never_wrong [[7; 9; 2]] 0%nat [7; 9; 2] 7 0).
  - reflexivity.
  - vm_compute. reflexivity.
  - lia.
Defined.

Lemma binary_search_trace_bound_witness :
  exists (i : Z) (steps : list string) (h' : list (list Z)),
    binary_search 0%nat 4 [[2; 5; 7; 9]] = Some ((i, steps), h')
    /\ Z.of_nat (length steps) <= 2 * probes (Z.of_nat (length [2; 5; 7; 9])) + 1.
Proof.
  eexists _, _, _. split; [vm_compute; reflexivity|].
  eapply (binary_search_trace_bound [[2; 5; 7; 9]] 0%nat [2; 5; 7; 9] 4).
  - reflexivity.
  - vm_compute. reflexivity.
Defined.

Lemma bubble_sort_trace_witness :
  exists (sorted : list Z) (middle : list string) (steps : list string),
    bubble_sort 0%nat [[3; 1; 2]] = Some ((length [[3; 1; 2]], steps), [[3; 1; 2]] ++ [sorted])
    /\ steps = ["Starting array: " +:+ format_list [3; 1; 2]] ++ middle
                 ++ [no_swaps_line;
                     newline +:+ "Final sorted array: " +:+ format_list sorted]
    /\ (1 <= pass_count steps <= length [3; 1; 2])%nat
    /\ no_swaps_count steps = 1%nat.
Proof.
  apply (bubble_sort_trace [[3; 1; 2]] 0%nat [3; 1; 2]).
  - reflexivity.
  - intros Heq. discriminate Heq.
Defined.

Lemma selection_sort_trace_witness :
  exists (sorted : list Z) (middle : list string) (steps : list string),
    selection_sort 0%nat [[3; 1; 2]]
      = Some ((length [[3; 1; 2]], steps), [[3; 1; 2]] ++ [sorted])
    /\ steps = ["Starting array: " +:+ format_list [3; 1; 2]] ++ middle
                 ++ [newline +:+ "Final sorted array: " +:+ format_list sorted]
    /\ length steps = (2 * length [3; 1; 2] + 2)%nat
    /\ pass_count steps = length [3; 1; 2].
Proof. apply (selection_sort_trace [[3; 1; 2]] 0%nat [3; 1; 2]). reflexivity. Defined.

Lemma insertion_sort_trace_witness :
  exists (sorted : list Z) (middle : list string) (steps : list string),
    insertion_sort 0%nat [[3; 1; 2]]
      = Some ((length [[3; 1; 2]], steps), [[3; 1; 2]] ++ [sorted])
    /\ steps = ["Starting array: " +:+ format_list [3; 1; 2]] ++ middle
                 ++ [newline +:+ "Final sorted array: " +:+ format_list sorted]
    /\ (2 * (length [3; 1; 2] - 1) + 2 <= length steps)%nat
    /\ pass_count steps = (length [3; 1; 2] - 1)%nat.
Proof. apply (insertion_sort_trace [[3; 1; 2]] 0%nat [3; 1; 2]). reflexivity. Defined.

Lemma sort_idempotent_witness :
  exists (sorted : list Z) (steps1 steps2 : list string),
    bubble_sort 0%nat [[3; 1; 2]] = Some ((length [[3; 1; 2]], steps1), [[3; 1; 2]] ++ [sorted])
    /\ insertion_sort (length [[3; 1; 2]]) ([[3; 1; 2]] ++ [sorted])
       = Some ((length ([[3; 1; 2]] ++ [sorted]), steps2),
               ([[3; 1; 2]] ++ [sorted]) ++ [sorted]).
Proof.
  apply (sort_idempotent [[3; 1; 2]] 0%nat [3; 1; 2] bubble_sort insertion_sort).
  - reflexivity.
  - left. reflexivity.
  - right. right. reflexivity.
Defined.
